(** * Supply-chain contract: a shallow embedding of
    [chaincode/src/contracts/supply-chain-contract.ts]

    The contract is TypeScript that runs on a JavaScript engine inside a
    Hyperledger Fabric peer.  The development has three layers:

    - [Js]: the JavaScript values the contract manipulates (the results of
      [JSON.parse]), the built-ins it calls ([JSON.parse], [JSON.stringify],
      [String.prototype.trim], [includes], [Date], [Array.prototype.sort],
      property access with its [TypeError]s);
    - [Stub]: the ledger seen through [ctx.stub] ([getState], [putState],
      [getStateByRange], [getQueryResult]) together with the inputs a
      transaction reads from outside the ledger: the clock, the random
      generator and the outcome of each write;
    - [Contract]: the methods of [SupplyChainContract], one definition per
      method, in the order of the source.

    [Gateway] holds the parts of the web application between a user and
    the contract: the circuit breaker, the roles and permissions, the
    [login].

    The properties follow: [JsFacts] (the JSON round trip),
    [ContractFacts] (what each method does to the ledger and what the
    queries return), [Examples] (the methods run on concrete ledgers),
    [ContractProperties] (what the methods refuse, keep and compose to),
    [GatewayFacts], and the runs [ContractRuns] and [GatewayRuns].

    Modelling boundary.  JavaScript numbers are modelled by the integers
    ([Z]) plus [NaN] where a computation can produce it: a JSON text with a
    fraction or an exponent is not a text of this model ([JSON_parse]
    rejects it), and IEEE rounding is not modelled.  So [JSON_parse] is
    [JSON.parse] on the texts [readsExactly] tells, whose numbers are
    integers up to 2^53; [Number] of a string ([stringToNumber]) reads
    decimal integers only; [round_div] rounds the exact quotient, where
    the engine rounds the double it computed; [sort_by] is the order of a
    comparator that is consistent, not of one that returns [NaN] for
    some pairs only.  The hypotheses [readsExactly], [exactNumbers] and
    [typedProduct] name the texts and the products on which a statement
    about the model is one about the engine.  Strings are byte strings
    holding UTF-8.  The
    properties of an object are kept in insertion order; that JavaScript
    lists the keys that are array indices before the others is not
    modelled. *)

From Stdlib Require Import ZArith QArith_base Ascii String List Lia Bool.
From Stdlib Require Import DecimalString DecimalFacts DecimalPos DecimalN DecimalZ.
From stdpp Require Import base option list strings gmap sorting.

Set Warnings "-register-all".
Local Open Scope string_scope.
Local Open Scope list_scope.
Local Open Scope Z_scope.

(* ===================================================================== *)
(** ** JavaScript values and built-ins                                    *)
(* ===================================================================== *)

Module Js.

(** A JavaScript value as [JSON.parse] builds it, plus [undefined] (the
    result of reading an absent property).  An object is its list of own
    properties in insertion order. *)
Inductive value : Type :=
  | Undefined
  | Null
  | Bool (b : bool)
  | Num (n : Z)
  | Str (s : string)
  | Arr (l : list value)
  | Obj (o : list (string * value)).

(** What a [throw] carries.  The contract itself only throws [Error] with
    a message; the others are raised by the engine. *)
Inductive exn : Type :=
  | Error (message : string)
  | TypeError
  | SyntaxError
  | RangeError.

Inductive result (A : Type) : Type :=
  | Ok (a : A)
  | Throw (e : exn).
Arguments Ok {A} a.
Arguments Throw {A} e.

(** Sequencing: a [throw] skips the rest.  With these instances stdpp's
    [x ← m; k] and [m;; k] read as successive statements. *)
#[export] Instance result_ret : MRet result := fun A a => Ok a.
#[export] Instance result_bind : MBind result := fun A B k m =>
  match m with
  | Ok a => k a
  | Throw e => Throw e
  end.

(** *** Characters and strings *)

Definition ascii_eqb (a b : ascii) : bool := Ascii.eqb a b.

Definition chr (n : nat) : ascii := ascii_of_nat n.

(** The double quote (code 34). *)
Definition dquote : ascii := chr 34.

(** White space and line terminators, as [String.prototype.trim] removes
    them.  The ones of one byte: TAB, LF, VT, FF, CR and SPACE. *)
Definition isWhiteSpace (c : ascii) : bool :=
  let n := nat_of_ascii c in
  ((9 <=? n)%nat && (n <=? 13)%nat) || (n =? 32)%nat.

(** The one of two bytes in UTF-8: U+00A0. *)
Definition isWhiteSpace2 (c d : ascii) : bool :=
  (N_of_ascii c =? 194)%N && (N_of_ascii d =? 160)%N.

(** The ones of three bytes: U+1680, U+2000 to U+200A, U+2028, U+2029,
    U+202F, U+205F, U+3000 and U+FEFF. *)
Definition isWhiteSpace3 (c d e : ascii) : bool :=
  let c := N_of_ascii c in
  let d := N_of_ascii d in
  let e := N_of_ascii e in
  ((c =? 225) && (d =? 154) && (e =? 128))%N
  || ((c =? 226) && (d =? 128)
      && (((128 <=? e) && (e <=? 138)) || (e =? 168) || (e =? 169) || (e =? 175)))%N
  || ((c =? 226) && (d =? 129) && (e =? 159))%N
  || ((c =? 227) && (d =? 128) && (e =? 128))%N
  || ((c =? 239) && (d =? 187) && (e =? 191))%N.

Fixpoint trimStart (s : string) : string :=
  match s with
  | EmptyString => EmptyString
  | String c s1 =>
      if isWhiteSpace c then trimStart s1
      else
        match s1 with
        | String d s2 =>
            if isWhiteSpace2 c d then trimStart s2
            else
              match s2 with
              | String e s3 => if isWhiteSpace3 c d e then trimStart s3 else s
              | EmptyString => s
              end
        | EmptyString => s
        end
  end.

(** A string of white space only. *)
Definition isBlank (s : string) : bool := String.eqb (trimStart s) "".

Fixpoint trimEnd (s : string) : string :=
  match s with
  | EmptyString => EmptyString
  | String c s' => if isBlank s then EmptyString else String c (trimEnd s')
  end.

Definition trim (s : string) : string := trimEnd (trimStart s).

Fixpoint startsWith (p s : string) : bool :=
  match p, s with
  | EmptyString, _ => true
  | String a p', String b s' => ascii_eqb a b && startsWith p' s'
  | String _ _, EmptyString => false
  end.

(** [s.includes(p)] on strings. *)
Fixpoint str_includes (p s : string) : bool :=
  startsWith p s ||
  match s with
  | String _ s' => str_includes p s'
  | EmptyString => false
  end.

(** [s.length]: the number of UTF-16 code units of the string whose UTF-8
    bytes are [s]: one per scalar value below U+10000 (every byte that is
    not a continuation byte [10xxxxxx]) and one more for each four-byte
    sequence (lead byte [11110xxx]). *)
Fixpoint utf16_length (s : string) : Z :=
  match s with
  | EmptyString => 0
  | String c s' =>
      let n := nat_of_ascii c in
      (if (128 <=? n)%nat && (n <? 192)%nat then 0
       else if (240 <=? n)%nat then 2 else 1) + utf16_length s'
  end.

Fixpoint join (sep : string) (l : list string) : string :=
  match l with
  | [] => ""
  | [x] => x
  | x :: l' => x +:+ sep +:+ join sep l'
  end.

(** *** Numbers as text *)

Definition string_of_Z (z : Z) : string :=
  NilZero.string_of_int (Z.to_int z).

(** The longest prefix of decimal digits, and what follows it. *)
Fixpoint span_digits (s : string) : Decimal.uint * string :=
  match s with
  | String c s' =>
      let k (f : Decimal.uint -> Decimal.uint) :=
        let '(u, r) := span_digits s' in (f u, r) in
      match c with
      | "0"%char => k Decimal.D0
      | "1"%char => k Decimal.D1
      | "2"%char => k Decimal.D2
      | "3"%char => k Decimal.D3
      | "4"%char => k Decimal.D4
      | "5"%char => k Decimal.D5
      | "6"%char => k Decimal.D6
      | "7"%char => k Decimal.D7
      | "8"%char => k Decimal.D8
      | "9"%char => k Decimal.D9
      | _ => (Decimal.Nil, s)
      end
  | EmptyString => (Decimal.Nil, EmptyString)
  end.

Definition isDigit (c : ascii) : bool :=
  let n := nat_of_ascii c in (48 <=? n)%nat && (n <=? 57)%nat.

(** A character that would continue a JSON number: a digit, or the start
    of a fraction or of an exponent. *)
Definition continuesNumber (s : string) : bool :=
  match s with
  | String c _ =>
      isDigit c || ascii_eqb c "." || ascii_eqb c "e" || ascii_eqb c "E"
  | EmptyString => false
  end.

(** JSON's integer: at least one digit, no leading zero. *)
Definition wellFormedInt (u : Decimal.uint) : bool :=
  match u with
  | Decimal.Nil => false
  | Decimal.D0 Decimal.Nil => true
  | Decimal.D0 _ => false
  | _ => true
  end.

(** A JSON number at the head of [s]; fractions and exponents are outside
    the model and rejected. *)
Definition parse_number (s : string) : option (Z * string) :=
  let '(neg, s1) :=
    match s with
    | String c s' => if ascii_eqb c "-" then (true, s') else (false, s)
    | EmptyString => (false, s)
    end in
  let '(u, r) := span_digits s1 in
  if wellFormedInt u && negb (continuesNumber r) then
    let n := Z.of_N (N.of_uint u) in
    Some (if neg then - n else n, r)
  else None.

(** *** JSON strings *)

Definition hexChar (n : N) : ascii :=
  if (n <? 10)%N then ascii_of_N (48 + n)%N else ascii_of_N (87 + n)%N.

Definition hexDigit (c : ascii) : option N :=
  let n := N_of_ascii c in
  if (48 <=? n)%N && (n <=? 57)%N then Some (n - 48)%N
  else if (97 <=? n)%N && (n <=? 102)%N then Some (n - 87)%N
  else if (65 <=? n)%N && (n <=? 70)%N then Some (n - 55)%N
  else None.

Definition hex4 (a b c d : ascii) : option N :=
  match hexDigit a, hexDigit b, hexDigit c, hexDigit d with
  | Some x, Some y, Some z, Some w => Some (((x * 16 + y) * 16 + z) * 16 + w)%N
  | _, _, _, _ => None
  end.

(** UTF-8 bytes of a code point. *)
Definition utf8_encode (cp : N) : string :=
  let b (n : N) := ascii_of_N n in
  if (cp <? 128)%N then String (b cp) ""
  else if (cp <? 2048)%N then
    String (b (192 + cp / 64)%N) (String (b (128 + cp mod 64)%N) "")
  else if (cp <? 65536)%N then
    String (b (224 + cp / 4096)%N)
      (String (b (128 + (cp / 64) mod 64)%N) (String (b (128 + cp mod 64)%N) ""))
  else
    String (b (240 + cp / 262144)%N)
      (String (b (128 + (cp / 4096) mod 64)%N)
         (String (b (128 + (cp / 64) mod 64)%N) (String (b (128 + cp mod 64)%N) ""))).

Definition isHighSurrogate (cp : N) : bool := (55296 <=? cp)%N && (cp <? 56320)%N.
Definition isLowSurrogate (cp : N) : bool := (56320 <=? cp)%N && (cp <? 57344)%N.

(** One character of [QuoteJSONString]. *)
Definition escape_char (c : ascii) : string :=
  let n := N_of_ascii c in
  if ascii_eqb c dquote then String "\" (String dquote "")
  else if ascii_eqb c "\" then "\\"
  else if (n =? 8)%N then "\b"
  else if (n =? 12)%N then "\f"
  else if (n =? 10)%N then "\n"
  else if (n =? 13)%N then "\r"
  else if (n =? 9)%N then "\t"
  else if (n <? 32)%N then
    "\u00" +:+ String (hexChar (n / 16)) (String (hexChar (n mod 16)) "")
  else String c "".

Fixpoint escape (s : string) : string :=
  match s with
  | EmptyString => EmptyString
  | String c s' => escape_char c +:+ escape s'
  end.

Definition quote (s : string) : string :=
  String dquote (escape s +:+ String dquote "").

Definition prepend (p : string) (r : option (string * string))
  : option (string * string) :=
  match r with
  | Some (s, rest) => Some (p +:+ s, rest)
  | None => None
  end.

(** The characters of a JSON string after its opening quote, up to and
    including the closing quote; returns the string and what follows.  A
    surrogate pair of [\u] escapes is one code point; a lone surrogate
    becomes U+FFFD, as [Buffer.from] encodes it. *)
Fixpoint parse_chars (s : string) : option (string * string) :=
  match s with
  | EmptyString => None
  | String c s' =>
      if ascii_eqb c dquote then Some ("", s')
      else if ascii_eqb c "\" then
        match s' with
        | String e s'' =>
            if ascii_eqb e dquote then prepend (String dquote "") (parse_chars s'')
            else if ascii_eqb e "\" then prepend "\" (parse_chars s'')
            else if ascii_eqb e "/" then prepend "/" (parse_chars s'')
            else if ascii_eqb e "b" then prepend (String (chr 8) "") (parse_chars s'')
            else if ascii_eqb e "f" then prepend (String (chr 12) "") (parse_chars s'')
            else if ascii_eqb e "n" then prepend (String (chr 10) "") (parse_chars s'')
            else if ascii_eqb e "r" then prepend (String (chr 13) "") (parse_chars s'')
            else if ascii_eqb e "t" then prepend (String (chr 9) "") (parse_chars s'')
            else if ascii_eqb e "u" then
              match s'' with
              | String h1 (String h2 (String h3 (String h4 s4))) =>
                  match hex4 h1 h2 h3 h4 with
                  | Some cp =>
                      if isHighSurrogate cp then
                        match s4 with
                        | String "\" (String "u" (String l1 (String l2 (String l3 (String l4 s5))))) =>
                            match hex4 l1 l2 l3 l4 with
                            | Some lo =>
                                if isLowSurrogate lo then
                                  prepend (utf8_encode (65536 + (cp - 55296) * 1024 + (lo - 56320))%N)
                                    (parse_chars s5)
                                else prepend (utf8_encode 65533) (parse_chars s4)
                            | None => None
                            end
                        | _ => prepend (utf8_encode 65533) (parse_chars s4)
                        end
                      else if isLowSurrogate cp then
                        prepend (utf8_encode 65533) (parse_chars s4)
                      else prepend (utf8_encode cp) (parse_chars s4)
                  | None => None
                  end
              | _ => None
              end
            else None
        | EmptyString => None
        end
      else if (N_of_ascii c <? 32)%N then None
      else prepend (String c "") (parse_chars s')
  end.

(** *** [JSON.stringify] *)

(** Own properties whose value is [undefined] are left out; [undefined]
    inside an array is written [null].  ([JSON.stringify(undefined)] itself
    is not a string; the contract never serialises [undefined].) *)
Fixpoint stringify (v : value) : string :=
  match v with
  | Undefined => "null"
  | Null => "null"
  | Bool true => "true"
  | Bool false => "false"
  | Num n => string_of_Z n
  | Str s => quote s
  | Arr l =>
      "[" +:+
      (fix elems (l : list value) : string :=
         match l with
         | [] => ""
         | [x] => stringify x
         | x :: l' => stringify x +:+ "," +:+ elems l'
         end) l +:+ "]"
  | Obj o =>
      "{" +:+
      (fix members (first : bool) (o : list (string * value)) : string :=
         match o with
         | [] => ""
         | (k, Undefined) :: o' => members first o'
         | (k, x) :: o' =>
             (if first then "" else ",") +:+ quote k +:+ ":" +:+ stringify x
             +:+ members false o'
         end) true o +:+ "}"
  end.

Definition JSON_stringify (v : value) : string := stringify v.

(** The values [JSON.parse] can return: no [undefined] anywhere and no
    object with a repeated key. *)
Fixpoint distinct (ks : list string) : bool :=
  match ks with
  | [] => true
  | k :: ks' => negb (existsb (String.eqb k) ks') && distinct ks'
  end.

Fixpoint isJson (v : value) : bool :=
  match v with
  | Undefined => false
  | Null | Bool _ | Num _ | Str _ => true
  | Arr l => forallb isJson l
  | Obj o => distinct (map fst o) && forallb (fun kv => isJson (snd kv)) o
  end.

(** *** [JSON.parse] *)

Definition isJsonSpace (c : ascii) : bool :=
  let n := N_of_ascii c in
  (n =? 32)%N || (n =? 9)%N || (n =? 10)%N || (n =? 13)%N.

Fixpoint skip_ws (s : string) : string :=
  match s with
  | String c s' => if isJsonSpace c then skip_ws s' else s
  | EmptyString => EmptyString
  end.

Fixpoint strip_prefix (p s : string) : option string :=
  match p, s with
  | EmptyString, _ => Some s
  | String a p', String b s' => if ascii_eqb a b then strip_prefix p' s' else None
  | String _ _, EmptyString => None
  end.

(** [o[k] = v] on an object: an existing property keeps its place. *)
Fixpoint obj_set (k : string) (v : value) (o : list (string * value))
  : list (string * value) :=
  match o with
  | [] => [(k, v)]
  | (k', v') :: o' =>
      if String.eqb k k' then (k, v) :: o' else (k', v') :: obj_set k v o'
  end.

(** The first character of a JSON value: a bracket, a quote, the first
    letter of a literal, a minus sign or a digit. *)
Definition startsValue (c : ascii) : bool :=
  ascii_eqb c "{" || ascii_eqb c "[" || ascii_eqb c dquote || ascii_eqb c "t"
  || ascii_eqb c "f" || ascii_eqb c "n" || ascii_eqb c "-" || isDigit c.

(** Recursive descent; [fuel] bounds the nesting and the number of
    elements, and the length of the text is always enough
    ([JSON_parse]).  A repeated key keeps its last value. *)
Fixpoint parse_value (fuel : nat) (s : string) : option (value * string) :=
  match fuel with
  | O => None
  | S fuel =>
      match skip_ws s with
      | EmptyString => None
      | String c s' =>
          if ascii_eqb c "{" then
            match skip_ws s' with
            | String c1 r =>
                if ascii_eqb c1 "}" then Some (Obj [], r)
                else parse_members fuel [] (String c1 r)
            | EmptyString => None
            end
          else if ascii_eqb c "[" then
            match skip_ws s' with
            | String c1 r =>
                if ascii_eqb c1 "]" then Some (Arr [], r)
                else parse_elems fuel [] (String c1 r)
            | EmptyString => None
            end
          else if ascii_eqb c dquote then
            match parse_chars s' with
            | Some (str, r) => Some (Str str, r)
            | None => None
            end
          else if ascii_eqb c "t" then
            match strip_prefix "rue" s' with
            | Some r => Some (Bool true, r)
            | None => None
            end
          else if ascii_eqb c "f" then
            match strip_prefix "alse" s' with
            | Some r => Some (Bool false, r)
            | None => None
            end
          else if ascii_eqb c "n" then
            match strip_prefix "ull" s' with
            | Some r => Some (Null, r)
            | None => None
            end
          else
            match parse_number (String c s') with
            | Some (n, r) => Some (Num n, r)
            | None => None
            end
      end
  end
with parse_elems (fuel : nat) (acc : list value) (s : string)
  : option (value * string) :=
  match fuel with
  | O => None
  | S fuel =>
      match parse_value fuel s with
      | Some (v, r) =>
          match skip_ws r with
          | String c r' =>
              if ascii_eqb c "," then parse_elems fuel (acc ++ [v]) r'
              else if ascii_eqb c "]" then Some (Arr (acc ++ [v]), r')
              else None
          | EmptyString => None
          end
      | None => None
      end
  end
with parse_members (fuel : nat) (acc : list (string * value)) (s : string)
  : option (value * string) :=
  match fuel with
  | O => None
  | S fuel =>
      match skip_ws s with
      | String q s1 =>
          if negb (ascii_eqb q dquote) then None else
          match parse_chars s1 with
          | Some (k, r1) =>
              match skip_ws r1 with
              | String c2 r2 =>
                  if negb (ascii_eqb c2 ":") then None else
                  match parse_value fuel r2 with
                  | Some (v, r3) =>
                      match skip_ws r3 with
                      | String c r4 =>
                          if ascii_eqb c "," then parse_members fuel (obj_set k v acc) r4
                          else if ascii_eqb c "}" then Some (Obj (obj_set k v acc), r4)
                          else None
                      | EmptyString => None
                      end
                  | None => None
                  end
              | EmptyString => None
              end
          | None => None
          end
      | EmptyString => None
      end
  end.

Definition JSON_parse (s : string) : result value :=
  match parse_value (S (String.length s)) s with
  | Some (v, r) =>
      match skip_ws r with
      | EmptyString => Ok v
      | _ => Throw SyntaxError
      end
  | None => Throw SyntaxError
  end.

(** *** The texts the model reads as the engine does *)

(** The numbers of the model are the integers, written with all their
    digits; the engine's are IEEE doubles.  The two agree on an integer
    of absolute value up to 2^53: the engine holds it exactly and
    [JSON.stringify] writes its digits.  [exactNumbers v]: every number
    in [v] is one of these. *)
Fixpoint exactNumbers (v : value) : bool :=
  match v with
  | Num n => Z.abs n <=? 2 ^ 53
  | Arr l => forallb exactNumbers l
  | Obj o => forallb (fun kv => exactNumbers (snd kv)) o
  | _ => true
  end.

(** No number of the text has a fraction or an exponent: outside the
    strings of the text ([inString] tells whether the scan is inside
    one), no digit is followed by [.], [e] or [E].  A JSON text of which
    this holds has integers for numbers, and [parse_number] reads them;
    a text of which it holds and that [JSON_parse] rejects is no JSON
    text. *)
Fixpoint wholeNumbers (inString : bool) (s : string) : bool :=
  match s with
  | EmptyString => true
  | String c rest =>
      if inString then
        if ascii_eqb c dquote then wholeNumbers false rest
        else if ascii_eqb c "\" then
          match rest with
          | String _ rest' => wholeNumbers true rest'
          | EmptyString => true
          end
        else wholeNumbers true rest
      else if ascii_eqb c dquote then wholeNumbers true rest
      else if isDigit c then
        match rest with
        | String d _ =>
            negb (ascii_eqb d "." || ascii_eqb d "e" || ascii_eqb d "E")
            && wholeNumbers false rest
        | EmptyString => true
        end
      else wholeNumbers false rest
  end.

(** [JSON_parse text] is what [JSON.parse] makes of the text: the value,
    when its numbers are exact, or the [SyntaxError] of a text that is not
    JSON.  A text with a fraction, an exponent or a larger integer is
    outside: the engine reads it, and [JSON_parse] rejects it or keeps
    digits the engine rounds.  The theorems that speak of what stored
    texts are read as take this as a hypothesis on the texts. *)
Definition readsExactly (text : string) : bool :=
  match JSON_parse text with
  | Ok v => exactNumbers v
  | Throw _ => wholeNumbers false text
  end.

(** *** Conversions *)

(** [String(v)]: what a template literal or a property key makes of a
    value.  (An integer of twenty-two digits or more is written by
    JavaScript with an exponent; here with all its digits.) *)
Fixpoint toString (v : value) : string :=
  match v with
  | Undefined => "undefined"
  | Null => "null"
  | Bool true => "true"
  | Bool false => "false"
  | Num n => string_of_Z n
  | Str s => s
  | Arr l =>
      (fix elems (l : list value) : string :=
         match l with
         | [] => ""
         | x :: l' =>
             (match x with Undefined | Null => "" | _ => toString x end)
             +:+ (match l' with [] => "" | _ :: _ => "," +:+ elems l' end)
         end) l
  | Obj _ => "[object Object]"
  end.

(** A JavaScript number of the model: an integer, or [NaN] ([None]). *)
Definition number : Type := option Z.

(** [Number(s)] for a string: blank is [0], an optionally signed run of
    decimal digits is that integer, anything else is [NaN].  (Strings that
    JavaScript reads as a number that is not a decimal integer lie outside
    the integer model.) *)
Definition stringToNumber (s : string) : number :=
  match trim s with
  | EmptyString => Some 0
  | String c r as t =>
      let '(sign, body) :=
        if ascii_eqb c "-" then (-1, r)
        else if ascii_eqb c "+" then (1, r) else (1, t) in
      match span_digits body with
      | (Decimal.Nil, _) => None
      | (u, EmptyString) => Some (sign * Z.of_N (N.of_uint u))
      | (_, String _ _) => None
      end
  end.

Definition toNumber (v : value) : number :=
  match v with
  | Undefined => None
  | Null => Some 0
  | Bool b => Some (if b then 1 else 0)
  | Num n => Some n
  | Str s => stringToNumber s
  | Arr _ | Obj _ => stringToNumber (toString v)
  end.

(** [ToBoolean]. *)
Definition truthy (v : value) : bool :=
  match v with
  | Undefined | Null => false
  | Bool b => b
  | Num n => negb (n =? 0)
  | Str s => negb (String.eqb s "")
  | Arr _ | Obj _ => true
  end.

(** The relational operators on numbers: every comparison with [NaN] is
    false. *)
Definition num_lt (a b : number) : bool :=
  match a, b with Some x, Some y => x <? y | _, _ => false end.
Definition num_le (a b : number) : bool :=
  match a, b with Some x, Some y => x <=? y | _, _ => false end.
Definition num_gt (a b : number) : bool := num_lt b a.
Definition num_ge (a b : number) : bool := num_le b a.

Definition num_add (a b : number) : number :=
  match a, b with Some x, Some y => Some (x + y) | _, _ => None end.
Definition num_sub (a b : number) : number :=
  match a, b with Some x, Some y => Some (x - y) | _, _ => None end.

(** [Math.round(a / b)] for [b > 0], in exact arithmetic: halves go up. *)
Definition round_div (a b : Z) : Z := (2 * a + b) / (2 * b).

(** *** Properties *)

Definition lookup_prop (k : string) (o : list (string * value)) : value :=
  match find (fun kv => String.eqb k (fst kv)) o with
  | Some kv => snd kv
  | None => Undefined
  end.

(** [v.k] for the property names the contract reads (data fields and
    [length]; none of them is a method or a member of
    [Object.prototype]).  Reading a property of [undefined] or [null]
    throws. *)
Definition getProp (v : value) (k : string) : result value :=
  match v with
  | Undefined | Null => Throw TypeError
  | Obj o => Ok (lookup_prop k o)
  | Str s => Ok (if String.eqb k "length" then Num (utf16_length s) else Undefined)
  | Arr l => Ok (if String.eqb k "length" then Num (Z.of_nat (length l)) else Undefined)
  | Bool _ | Num _ => Ok Undefined
  end.

(** [v[0]]. *)
Definition getFirst (v : value) : result value :=
  match v with
  | Undefined | Null => Throw TypeError
  | Arr l => Ok (match l with x :: _ => x | [] => Undefined end)
  | Str s => Ok (match s with String c _ => Str (String c "") | EmptyString => Undefined end)
  | Obj o => Ok (lookup_prop "0" o)
  | Bool _ | Num _ => Ok Undefined
  end.

(** [v.k = x] in strict code, for a data field [k].  On an array the new
    property is not an element, so no later [JSON.stringify] shows it; on
    a primitive the assignment throws. *)
Definition setProp (v : value) (k : string) (x : value) : result value :=
  match v with
  | Obj o => Ok (Obj (obj_set k x o))
  | Arr l => Ok (Arr l)
  | Undefined | Null | Bool _ | Num _ | Str _ => Throw TypeError
  end.

(** [v.push(x)]: only an array has the method. *)
Definition push (v : value) (x : value) : result value :=
  match v with
  | Arr l => Ok (Arr (l ++ [x]))
  | _ => Throw TypeError
  end.

(** [v.includes('T')]: strings and arrays have the method. *)
Definition includes_T (v : value) : result bool :=
  match v with
  | Str s => Ok (str_includes "T" s)
  | Arr l => Ok (existsb (fun x => match x with Str s => String.eqb s "T" | _ => false end) l)
  | _ => Throw TypeError
  end.

(** *** Dates *)

Definition msPerDay : Z := 86400000.

(** [TimeClip]: a time value beyond 8.64e15 ms is an invalid date. *)
Definition timeClip (t : Z) : number :=
  if Z.abs t <=? 8640000000000000 then Some t else None.

(** Year, month (1 to 12) and day of the month of a day number counted
    from 1970-01-01, in the proleptic Gregorian calendar. *)
Definition civil_from_days (days : Z) : Z * Z * Z :=
  let z := days + 719468 in
  let era := z / 146097 in
  let doe := z - era * 146097 in
  let yoe := (doe - doe / 1460 + doe / 36524 - doe / 146096) / 365 in
  let doy := doe - (365 * yoe + yoe / 4 - yoe / 100) in
  let mp := (5 * doy + 2) / 153 in
  let d := doy - (153 * mp + 2) / 5 + 1 in
  let m := if mp <? 10 then mp + 3 else mp - 9 in
  let y := yoe + era * 400 in
  (if m <=? 2 then y + 1 else y, m, d).

Definition days_from_civil (y m d : Z) : Z :=
  let y := if m <=? 2 then y - 1 else y in
  let era := y / 400 in
  let yoe := y - era * 400 in
  let doy := (153 * (if m >? 2 then m - 3 else m + 9) + 2) / 5 + d - 1 in
  let doe := yoe * 365 + yoe / 4 - yoe / 100 + doy in
  era * 146097 + doe - 719468.

(** [n] in decimal, padded with zeros to [width] digits. *)
Fixpoint pad (width : nat) (n : Z) : string :=
  match width with
  | O => ""
  | S w => pad w (n / 10) +:+ String (ascii_of_N (48 + Z.to_N (n mod 10))) ""
  end.

(** [Date.prototype.toISOString] of a valid time value. *)
Definition toISOString (t : Z) : string :=
  let '(y, m, d) := civil_from_days (t / msPerDay) in
  let ms := t mod msPerDay in
  let year :=
    if (0 <=? y) && (y <=? 9999) then pad 4 y
    else (if y <? 0 then "-" else "+") +:+ pad 6 (Z.abs y) in
  year +:+ "-" +:+ pad 2 m +:+ "-" +:+ pad 2 d +:+ "T"
  +:+ pad 2 (ms / 3600000) +:+ ":" +:+ pad 2 (ms / 60000 mod 60) +:+ ":"
  +:+ pad 2 (ms / 1000 mod 60) +:+ "." +:+ pad 3 (ms mod 1000) +:+ "Z".

(** [s.substring(0, n)]. *)
Fixpoint take_string (n : nat) (s : string) : string :=
  match n, s with
  | S n', String c s' => String c (take_string n' s')
  | _, _ => ""
  end.

(** The digits of [s] from [pos], [len] of them, as a number. *)
Definition digits_at (pos len : nat) (s : string) : option Z :=
  let t := String.substring pos len s in
  match span_digits t with
  | (u, EmptyString) =>
      if (String.length t =? len)%nat then Some (Z.of_N (N.of_uint u)) else None
  | _ => None
  end.

Definition char_at (pos : nat) (s : string) (c : ascii) : bool :=
  match String.get pos s with
  | Some c' => ascii_eqb c c'
  | None => false
  end.

(** One [Date.parse], for the runs on concrete ledgers: the format
    [toISOString] writes, [YYYY-MM-DDTHH:mm:ss.sssZ] (with [24:00:00.000]
    for the midnight that ends the day), and the date alone,
    [YYYY-MM-DD], which is midnight UTC.  Every engine reads these
    strings the same way.  Other strings, of which an engine reads some,
    are [NaN] here; the runs use none, and the theorems are about any
    [Date.parse]. *)
Definition Date_parse_iso (s : string) : number :=
  if (String.length s =? 24)%nat && char_at 4 s "-" && char_at 7 s "-"
     && char_at 10 s "T" && char_at 13 s ":" && char_at 16 s ":"
     && char_at 19 s "." && char_at 23 s "Z"
  then
    match digits_at 0 4 s, digits_at 5 2 s, digits_at 8 2 s,
          digits_at 11 2 s, digits_at 14 2 s, digits_at 17 2 s,
          digits_at 20 3 s with
    | Some y, Some m, Some d, Some hh, Some mm, Some ss, Some ms =>
        if (1 <=? m) && (m <=? 12) && (1 <=? d) && (d <=? 31)
           && ((hh <=? 23) && (mm <=? 59) && (ss <=? 59)
               || (hh =? 24) && (mm =? 0) && (ss =? 0) && (ms =? 0))
        then Some (days_from_civil y m d * msPerDay
                   + hh * 3600000 + mm * 60000 + ss * 1000 + ms)
        else None
    | _, _, _, _, _, _, _ => None
    end
  else if (String.length s =? 10)%nat && char_at 4 s "-" && char_at 7 s "-"
  then
    match digits_at 0 4 s, digits_at 5 2 s, digits_at 8 2 s with
    | Some y, Some m, Some d =>
        if (1 <=? m) && (m <=? 12) && (1 <=? d) && (d <=? 31)
        then Some (days_from_civil y m d * msPerDay)
        else None
    | _, _, _ => None
    end
  else None.

(** One [toLocaleDateString('en-US', { month: 'short' })]: the one of a
    peer whose time zone is UTC. *)
Definition toLocaleMonthShort_utc (t : number) : string :=
  match t with
  | None => "Invalid Date"
  | Some t =>
      let '(_, m, _) := civil_from_days (t / msPerDay) in
      nth (Z.to_nat (m - 1))
        ["Jan"; "Feb"; "Mar"; "Apr"; "May"; "Jun";
         "Jul"; "Aug"; "Sep"; "Oct"; "Nov"; "Dec"] ""
  end.

(** *** [Array.prototype.sort] with a comparator *)

(** A stable insertion sort.  The comparator may throw, and the sort then
    throws; a [NaN] from the comparator counts as [0].  For a comparator
    that orders the elements consistently every conforming (stable) sort
    returns this list. *)
Fixpoint insert_by {A} (cmp : A -> A -> result number) (x : A) (l : list A)
  : result (list A) :=
  match l with
  | [] => Ok [x]
  | y :: l' =>
      c ← cmp x y;
      if num_gt c (Some 0) then r ← insert_by cmp x l'; Ok (y :: r)
      else Ok (x :: y :: l')
  end.

Fixpoint sort_by {A} (cmp : A -> A -> result number) (l : list A)
  : result (list A) :=
  match l with
  | [] => Ok []
  | x :: l' => r ← sort_by cmp l'; insert_by cmp x r
  end.

(** *** [parseInt] *)

(** The values of the leading hexadecimal digits of [s]. *)
Fixpoint hex_digits (s : string) : list N :=
  match s with
  | String c s' =>
      match hexDigit c with
      | Some d => d :: hex_digits s'
      | None => []
      end
  | EmptyString => []
  end.

Definition hex_value (l : list N) : N := fold_left (fun a d => (a * 16 + d)%N) l 0%N.

(** [parseInt(s)], no radix given: white space at the start and one sign
    are skipped; [0x] or [0X] announces hexadecimal digits; the digits up
    to the first character that is none are read, and no digit at all
    gives [NaN].  The integer is exact here; a JavaScript number holds it
    exactly up to 2^53. *)
Definition parseInt (s : string) : number :=
  let s := trimStart s in
  let '(sign, s) :=
    match s with
    | String c r =>
        if ascii_eqb c "-" then (-1, r)
        else if ascii_eqb c "+" then (1, r) else (1, s)
    | EmptyString => (1, s)
    end in
  let hex :=
    match s with
    | String c (String x r) =>
        if ascii_eqb c "0" && (ascii_eqb x "x" || ascii_eqb x "X") then Some r else None
    | _ => None
    end in
  match hex with
  | Some r =>
      match hex_digits r with
      | [] => None
      | l => Some (sign * Z.of_N (hex_value l))
      end
  | None =>
      match span_digits s with
      | (Decimal.Nil, _) => None
      | (u, _) => Some (sign * Z.of_N (N.of_uint u))
      end
  end.

(** *** Iteration *)

Definition isContinuation (c : ascii) : bool :=
  let n := nat_of_ascii c in (128 <=? n)%nat && (n <? 192)%nat.

(** The code points of a string: in UTF-8 every byte that is not a
    continuation byte [10xxxxxx] starts one. *)
Fixpoint codePoints (s : string) : list string :=
  match s with
  | EmptyString => []
  | String c s' =>
      match codePoints s' with
      | String d x :: rest =>
          if isContinuation d then String c (String d x) :: rest
          else String c "" :: String d x :: rest
      | rest => String c "" :: rest
      end
  end.

(** The values [for (const x of v)] goes through: the elements of an
    array, the code points of a string; nothing else the contract meets
    is iterable. *)
Definition iterate (v : value) : result (list value) :=
  match v with
  | Arr l => Ok l
  | Str s => Ok (map Str (codePoints s))
  | _ => Throw TypeError
  end.

(** The names of the members of [Object.prototype], which every object
    written as a literal inherits: [o[k]] finds the inherited member when
    [k] is one of them and [o] has no property [k] of its own. *)
Definition prototypeNames : list string :=
  ["constructor"; "hasOwnProperty"; "isPrototypeOf"; "propertyIsEnumerable";
   "toLocaleString"; "toString"; "valueOf"; "__proto__"; "__defineGetter__";
   "__defineSetter__"; "__lookupGetter__"; "__lookupSetter__"].

End Js.

(* ===================================================================== *)
(** ** The ledger stub and the transaction's surroundings                 *)
(* ===================================================================== *)

Module Stub.
Import Js.

(** What a transaction can read or change.  [ledger] is the world state;
    [writes] records the [putState] calls in order; [clock] holds the
    readings the next calls of [Date.now()] and [new Date()] will get,
    [random] the results of the next
    [Math.random().toString(36).substr(2, 9)], and [faults] says for each
    coming [putState] whether the ledger accepts it ([None]) or rejects
    it with an exception. *)
Record World : Type := mkWorld {
  ledger : gmap string string;
  writes : list (string * string);
  clock : list Z;
  random : list string;
  faults : list (option exn)
}.

(** A computation inside a transaction: it returns or throws, and leaves
    a world. *)
Definition M (A : Type) : Type := World -> result A * World.

#[export] Instance M_ret : MRet M := fun A a w => (Ok a, w).
#[export] Instance M_bind : MBind M := fun A B k m w =>
  match m w with
  | (Ok a, w') => k a w'
  | (Throw e, w') => (Throw e, w')
  end.

Definition throw {A} (e : exn) : M A := fun w => (Throw e, w).

Definition lift {A} (r : result A) : M A := fun w => (r, w).

(** [try { m } catch (error) { h error }]. *)
Definition try_catch {A} (m : M A) (h : exn -> M A) : M A := fun w =>
  match m w with
  | (Throw e, w') => h e w'
  | r => r
  end.

(** [ctx.stub.getState(key)]: the bytes at [key], empty when there are
    none. *)
Definition getState (key : string) : M string := fun w =>
  (Ok (default "" (ledger w !! key)), w).

(** [ctx.stub.putState(key, value)]. *)
Definition putState (key value : string) : M unit := fun w =>
  match faults w with
  | Some e :: fs =>
      (Throw e, mkWorld (ledger w) (writes w) (clock w) (random w) fs)
  | _ =>
      (Ok tt, mkWorld (<[key := value]> (ledger w)) (writes w ++ [(key, value)])
                (clock w) (random w) (tail (faults w)))
  end.

(** The stub's keys are strings.  What the shim does with another value
    is not modelled beyond its failing. *)
Definition asKey (v : value) : M string :=
  match v with
  | Str s => mret s
  | _ => throw TypeError
  end.

Definition key_le (a b : string * string) : Prop := String.le (fst a) (fst b).

#[export] Instance key_le_dec : RelDecision key_le.
Proof. intros a b. unfold key_le. apply _. Defined.

(** The entries of the ledger in key order. *)
Definition entries (m : gmap string string) : list (string * string) :=
  merge_sort key_le (map_to_list m).

(** [ctx.stub.getStateByRange(startKey, endKey)], drained: the entries
    with [startKey <= key < endKey]. *)
Definition getStateByRange (startKey endKey : string) : M (list (string * string)) :=
  fun w =>
    (Ok (List.filter (fun kv => String.leb startKey (fst kv) && String.ltb (fst kv) endKey)
           (entries (ledger w))), w).

(** The value at a dotted path of a document. *)
Fixpoint split_path (cur : string) (s : string) : list string :=
  match s with
  | EmptyString => [String.rev cur]
  | String c s' =>
      if ascii_eqb c "." then String.rev cur :: split_path "" s'
      else split_path (String c cur) s'
  end.

Fixpoint at_path (path : list string) (doc : value) : option value :=
  match path with
  | [] => Some doc
  | k :: path' =>
      match doc with
      | Obj o =>
          match find (fun kv => String.eqb k (fst kv)) o with
          | Some kv => at_path path' (snd kv)
          | None => None
          end
      | _ => None
      end
  end.

(** One condition of a selector: [{"$exists": b}], or a string the field
    must equal. *)
Definition holds (cond : value) (field : option value) : option bool :=
  match cond with
  | Obj [(op, Bool b)] =>
      if String.eqb op "$exists" then Some (Bool.eqb b (bool_decide (is_Some field)))
      else None
  | Str s =>
      Some (match field with Some (Str s') => String.eqb s s' | _ => false end)
  | _ => None
  end.

(** The selector of a query string, when the model reads it: a
    conjunction of conditions on fields. *)
Definition selector_of (queryString : string) : option (list (string * value)) :=
  match JSON_parse queryString with
  | Ok (Obj q) =>
      match lookup_prop "selector" q with
      | Obj conds =>
          if forallb (fun c => bool_decide (is_Some (holds (snd c) None))) conds
          then Some conds else None
      | _ => None
      end
  | _ => None
  end.

Definition selects (conds : list (string * value)) (doc : value) : bool :=
  forallb (fun c =>
             match holds (snd c) (at_path (split_path "" (fst c)) doc) with
             | Some b => b
             | None => false
             end) conds.

(** The stored values that are documents of the state database: the JSON
    objects. *)
Definition document (bytes : string) : option value :=
  match JSON_parse bytes with
  | Ok (Obj o) => Some (Obj o)
  | _ => None
  end.

(** [ctx.stub.getQueryResult(queryString)], drained: the documents the
    selector selects, in key order.  A query the model does not read is
    rejected. *)
Definition getQueryResult (queryString : string) : M (list (string * string)) :=
  fun w =>
    match selector_of queryString with
    | Some conds =>
        (Ok (List.filter (fun kv => match document (snd kv) with
                                    | Some doc => selects conds doc
                                    | None => false
                                    end)
               (entries (ledger w))), w)
    | None => (Throw (Error "invalid query"), w)
    end.

(** [Date.now()]. *)
Definition Date_now : M Z := fun w =>
  (Ok (hd 0 (clock w)),
   mkWorld (ledger w) (writes w) (tail (clock w)) (random w) (faults w)).

(** [new Date().toISOString()]. *)
Definition Date_new_toISOString : M string := fun w =>
  (Ok (toISOString (hd 0 (clock w))),
   mkWorld (ledger w) (writes w) (tail (clock w)) (random w) (faults w)).

(** [Math.random().toString(36).substr(2, 9)]. *)
Definition Math_random_id : M string := fun w =>
  (Ok (hd "" (random w)),
   mkWorld (ledger w) (writes w) (clock w) (tail (random w)) (faults w)).

End Stub.

(* ===================================================================== *)
(** ** The contract                                                       *)
(* ===================================================================== *)

Module Contract.
Import Js Stub.

(** Modelled from the spec: the class [ProductLocationEntry]
    ([models/product-location-entry.ts] is not among the sources).  The
    spec gives an entry the two fields [location] and [arrivalDate]; the
    contract and its tests build one from an object literal, whose
    properties the new entry takes in the literal's order. *)
Definition ProductLocationEntry (obj : list (string * value)) : value := Obj obj.

(** The text [s] between double quotes. *)
Definition q (s : string) : string := String dquote (s +:+ String dquote "").

Record Trend : Type := mkTrend {
  month : string;
  products : Z;
  shipments : Z
}.

(** [AnalyticsData].  A count is an integer; a mean can be [NaN];
    [qualityScore] has one decimal. *)
Record AnalyticsData : Type := mkAnalyticsData {
  totalProducts : Z;
  activeShipments : Z;
  completedDeliveries : Z;
  averageDeliveryTime : number;
  onTimeDeliveryRate : Z;
  qualityScore : option Q;
  categoryStats : gmap string Z;
  locationStats : gmap string Z;
  monthlyTrends : list Trend
}.

(** The running totals of the loop over the products in
    [getAnalyticsData]. *)
Record Tally : Type := mkTally {
  t_categoryStats : gmap string Z;
  t_locationStats : gmap string Z;
  t_totalDeliveryTime : number;
  t_deliveryCount : Z;
  t_onTimeDeliveries : Z;
  t_monthlyData : gmap string (Z * Z)
}.

(** The value of [totalQualityScore]: [+=] keeps a number while it adds
    numbers and turns to text once it meets a string. *)
Inductive prim : Type :=
  | PNum (n : number)
  | PStr (s : string).

Definition prim_toString (p : prim) : string :=
  match p with
  | PNum (Some n) => string_of_Z n
  | PNum None => "NaN"
  | PStr s => s
  end.

Definition toPrimitive (v : value) : prim :=
  match v with
  | Str s => PStr s
  | Arr _ | Obj _ => PStr (toString v)
  | _ => PNum (toNumber v)
  end.

(** [a + v]. *)
Definition js_plus (a : prim) (v : value) : prim :=
  match a, toPrimitive v with
  | PNum x, PNum y => PNum (num_add x y)
  | _, p => PStr (prim_toString a +:+ prim_toString p)
  end.

Definition prim_toNumber (p : prim) : number :=
  match p with
  | PNum n => n
  | PStr s => stringToNumber s
  end.

Section Engine.

(** The engine's [Date.parse]: the time value of a date string, or [NaN]. *)
Variable Date_parse : string -> number.

(** The engine's [toLocaleDateString('en-US', { month: 'short' })] of a
    date given by its time value; it depends on the peer's time zone. *)
Variable toLocaleMonthShort : number -> string.

(** [new Date(v).getTime()]. *)
Definition newDate (v : value) : number :=
  match v with
  | Undefined => None
  | Null => timeClip 0
  | Bool b => timeClip (if b then 1 else 0)
  | Num n => timeClip n
  | Str s => t ← Date_parse s; timeClip t
  | Arr _ | Obj _ => t ← Date_parse (toString v); timeClip t
  end.

(** [new Date(v).toISOString()]: an invalid date throws. *)
Definition newDate_toISOString (v : value) : result string :=
  match newDate v with
  | Some t => Ok (toISOString t)
  | None => Throw RangeError
  end.

(* ------------------------------------------------------------------- *)
(** *** Private helper methods                                           *)
(* ------------------------------------------------------------------- *)

Definition requireField (value : value) (fieldName : string) : result unit :=
  match value with
  | Str s =>
      if String.eqb (trim s) "" then
        Throw (Error ("The '" +:+ fieldName +:+ "' field is required."))
      else Ok tt
  | Null | Undefined =>
      Throw (Error ("The '" +:+ fieldName +:+ "' field is required."))
  | _ => Ok tt
  end.

Definition isValidDate (dateString : value) : result bool :=
  match newDate dateString with
  | None => Ok false
  | Some _ => includes_T dateString
  end.

Definition validateProductData (product : value) : result unit :=
  id ← getProp product "id"; requireField id "id";;
  name ← getProp product "name"; requireField name "name";;
  barcode ← getProp product "barcode"; requireField barcode "barcode";;
  placeOfOrigin ← getProp product "placeOfOrigin";
  requireField placeOfOrigin "placeOfOrigin";;
  productionDate ← getProp product "productionDate";
  requireField productionDate "productionDate";;
  expirationDate ← getProp product "expirationDate";
  requireField expirationDate "expirationDate";;
  unitQuantity ← getProp product "unitQuantity";
  requireField unitQuantity "unitQuantity";;
  unitQuantityType ← getProp product "unitQuantityType";
  requireField unitQuantityType "unitQuantityType";;
  unitPrice ← getProp product "unitPrice"; requireField unitPrice "unitPrice";;
  category ← getProp product "category"; requireField category "category";;
  locationData ← getProp product "locationData";
  current ← getProp locationData "current";
  location ← getProp current "location";
  requireField location "locationData.current.location";;
  arrivalDate ← getProp current "arrivalDate";
  requireField arrivalDate "locationData.current.arrivalDate";;
  (* Validate dates *)
  ok ← isValidDate productionDate;
  (if negb ok then Throw (Error "Invalid production date format. Use ISO 8601 format.")
   else Ok tt);;
  ok ← isValidDate expirationDate;
  (if negb ok then Throw (Error "Invalid expiration date format. Use ISO 8601 format.")
   else Ok tt);;
  ok ← isValidDate arrivalDate;
  (if negb ok then Throw (Error "Invalid arrival date format. Use ISO 8601 format.")
   else Ok tt);;
  (* Validate business logic *)
  (if num_le (newDate expirationDate) (newDate productionDate) then
     Throw (Error "Expiration date must be after production date.")
   else Ok tt);;
  (* Validate quantities *)
  (if num_le (toNumber unitQuantity) (Some 0) then
     Throw (Error "Unit quantity must be positive.")
   else Ok tt);;
  batchQuantity ← getProp product "batchQuantity";
  (if truthy batchQuantity && num_le (toNumber batchQuantity) (Some 0) then
     Throw (Error "Batch quantity must be positive if specified.")
   else Ok tt);;
  (* Validate string lengths *)
  len ← getProp name "length";
  (if num_gt (toNumber len) (Some 100) then
     Throw (Error "Product name too long (max 100 characters).")
   else Ok tt);;
  len ← getProp placeOfOrigin "length";
  (if num_gt (toNumber len) (Some 200) then
     Throw (Error "Place of origin too long (max 200 characters).")
   else Ok tt).

Definition validateQualityRecord (qualityRecord : value) : result unit :=
  inspector ← getProp qualityRecord "inspector"; requireField inspector "inspector";;
  score ← getProp qualityRecord "score"; requireField score "score";;
  notes ← getProp qualityRecord "notes"; requireField notes "notes";;
  timestamp ← getProp qualityRecord "timestamp"; requireField timestamp "timestamp";;
  (* Validate score range *)
  (if num_lt (toNumber score) (Some 0) || num_gt (toNumber score) (Some 100) then
     Throw (Error "Quality score must be between 0 and 100.")
   else Ok tt);;
  (* Validate timestamp format *)
  ok ← isValidDate timestamp;
  (if negb ok then Throw (Error "Invalid timestamp format. Use ISO 8601 format.")
   else Ok tt).

Definition createNotification (notificationData : value) : M unit :=
  try_catch
    (let buffer := JSON_stringify notificationData in
     id ← lift (getProp notificationData "id");
     key ← asKey id;
     putState key buffer)
    (fun error =>
       (* Don't fail the main transaction if notification creation fails *)
       mret tt).

(** The loop over a results iterator, shared by [executeQuery],
    [getAllQualityRecords] and [getQualityRecords]: an entry that does not
    parse is skipped. *)
Fixpoint parseAll (results : list (string * string)) : list value :=
  match results with
  | [] => []
  | (_, strValue) :: rest =>
      match JSON_parse strValue with
      | Ok record => record :: parseAll rest
      | Throw _ => parseAll rest
      end
  end.

Definition executeQuery (queryString : string) : M (list value) :=
  results ← getQueryResult queryString;
  mret (parseAll results).

Definition getAllQualityRecords : M (list value) :=
  let queryString :=
    "{" +:+ q "selector" +:+ ":{" +:+ q "inspector" +:+ ":{" +:+ q "$exists" +:+ ":true}}}" in
  results ← getQueryResult queryString;
  mret (parseAll results).

Definition readProduct (productId : string) : M value :=
  data ← getState productId;
  if String.eqb data "" then
    throw (Error ("The product " +:+ productId +:+ " does not exist."))
  else lift (JSON_parse data).

(* ------------------------------------------------------------------- *)
(** *** Product management transactions                                  *)
(* ------------------------------------------------------------------- *)

Definition productExists (productId : string) : M bool :=
  data ← getState productId;
  mret (negb (String.eqb data "")).

(** The notification every mutation writes after its own record. *)
Definition notification (stamp : Z) (rnd : string) (productId : value)
    (type message timestamp : string) (location : value) (severity : string)
  : value :=
  Obj [("id", Str ("NOTIF_" +:+ string_of_Z stamp +:+ "_" +:+ rnd));
       ("productId", productId);
       ("type", Str type);
       ("message", Str message);
       ("timestamp", Str timestamp);
       ("location", location);
       ("severity", Str severity);
       ("acknowledged", Bool false)].

Definition createProduct (productJson : string) : M unit :=
  product ← lift (JSON_parse productJson);
  (* Enhanced validation *)
  lift (validateProductData product);;
  id ← lift (getProp product "id");
  key ← asKey id;
  exists_ ← productExists key;
  if exists_ : bool then
    throw (Error ("The product " +:+ toString id +:+ " already exists."))
  else
    let buffer := JSON_stringify product in
    putState key buffer;;
    (* Create notification for product creation *)
    stamp ← Date_now;
    rnd ← Math_random_id;
    name ← lift (getProp product "name");
    placeOfOrigin ← lift (getProp product "placeOfOrigin");
    timestamp ← Date_new_toISOString;
    createNotification
      (notification stamp rnd id "created"
         ("Product " +:+ toString name +:+ " created at " +:+ toString placeOfOrigin)
         timestamp placeOfOrigin "info").

Definition shipProductTo (productId newLocation arrivalDate : string) : M unit :=
  exists_ ← productExists productId;
  if negb exists_ then
    throw (Error ("The product " +:+ productId +:+ " does not exist."))
  else
    lift (requireField (Str newLocation) "newLocation");;
    lift (requireField (Str arrivalDate) "arrivalDate");;
    (* Validate date format *)
    ok ← lift (isValidDate (Str arrivalDate));
    if negb ok then
      throw (Error "Invalid arrival date format. Use ISO 8601 format.")
    else
      product ← readProduct productId;
      locationData ← lift (getProp product "locationData");
      previous ← lift (getProp locationData "previous");
      current ← lift (getProp locationData "current");
      oldArrivalDate ← lift (getProp current "arrivalDate");
      oldLocation ← lift (getProp current "location");
      previous ← lift (push previous
                         (ProductLocationEntry
                            [("arrivalDate", oldArrivalDate); ("location", oldLocation)]));
      current ← lift (setProp current "arrivalDate" (Str arrivalDate));
      current ← lift (setProp current "location" (Str newLocation));
      locationData ← lift (setProp locationData "previous" previous);
      locationData ← lift (setProp locationData "current" current);
      product ← lift (setProp product "locationData" locationData);
      let buffer := JSON_stringify product in
      putState productId buffer;;
      (* Create notification for shipment *)
      stamp ← Date_now;
      rnd ← Math_random_id;
      name ← lift (getProp product "name");
      timestamp ← Date_new_toISOString;
      createNotification
        (notification stamp rnd (Str productId) "shipped"
           ("Product " +:+ toString name +:+ " shipped to " +:+ newLocation)
           timestamp (Str newLocation) "info").

Definition getProduct (productId : string) : M value :=
  exists_ ← productExists productId;
  if negb exists_ then
    throw (Error ("The product " +:+ productId +:+ " does not exist."))
  else readProduct productId.

Definition queryAllProducts : M (list value) :=
  let queryString :=
    "{" +:+ q "selector" +:+ ":{" +:+ q "id" +:+ ":{" +:+ q "$exists" +:+ ":true}}}" in
  executeQuery queryString.

Definition queryProductsByCategory (category : string) : M (list value) :=
  let queryString :=
    "{" +:+ q "selector" +:+ ":{" +:+ q "category" +:+ ":" +:+ q category +:+ "}}" in
  executeQuery queryString.

Definition queryProductsByLocation (location : string) : M (list value) :=
  let queryString :=
    "{" +:+ q "selector" +:+ ":{" +:+ q "locationData.current.location" +:+ ":"
    +:+ q location +:+ "}}" in
  executeQuery queryString.

(* ------------------------------------------------------------------- *)
(** *** Quality assurance transactions                                   *)
(* ------------------------------------------------------------------- *)

Definition addQualityRecord (productId qualityData : string) : M unit :=
  exists_ ← productExists productId;
  if negb exists_ then
    throw (Error ("The product " +:+ productId +:+ " does not exist."))
  else
    qualityRecord ← lift (JSON_parse qualityData);
    lift (validateQualityRecord qualityRecord);;
    stamp ← Date_now;
    let qualityKey := "QUALITY_" +:+ productId +:+ "_" +:+ string_of_Z stamp in
    let buffer := JSON_stringify qualityRecord in
    putState qualityKey buffer;;
    (* Create notification for quality check *)
    score ← lift (getProp qualityRecord "score");
    let severity :=
      if num_ge (toNumber score) (Some 80) then "info"
      else if num_ge (toNumber score) (Some 60) then "warning" else "error" in
    stamp ← Date_now;
    rnd ← Math_random_id;
    timestamp ← Date_new_toISOString;
    location ← lift (getProp qualityRecord "location");
    createNotification
      (notification stamp rnd (Str productId) "quality_check"
         ("Quality inspection completed for " +:+ productId +:+ ". Score: "
          +:+ toString score +:+ "/100")
         timestamp location severity).

(** The comparator of [getQualityRecords]:
    [new Date(b.timestamp).getTime() - new Date(a.timestamp).getTime()]. *)
Definition byTimestampDesc (a b : value) : result number :=
  tb ← getProp b "timestamp";
  ta ← getProp a "timestamp";
  Ok (num_sub (newDate tb) (newDate ta)).

(** The last key of the range is the first followed by U+FFFF, in UTF-8
    the bytes EF BF BF. *)
Definition uFFFF : string := String (chr 239) (String (chr 191) (String (chr 191) "")).

Definition getQualityRecords (productId : string) : M (list value) :=
  let startKey := "QUALITY_" +:+ productId +:+ "_" in
  let endKey := "QUALITY_" +:+ productId +:+ "_" +:+ uFFFF in
  results ← getStateByRange startKey endKey;
  let qualityRecords := parseAll results in
  lift (sort_by byTimestampDesc qualityRecords).

(* ------------------------------------------------------------------- *)
(** *** Analytics transactions                                           *)
(* ------------------------------------------------------------------- *)

(** [stats[key] = (stats[key] || 0) + 1], for a key that is not a member
    of [Object.prototype]. *)
Definition bump (key : string) (stats : gmap string Z) : gmap string Z :=
  <[key := default 0 (stats !! key) + 1]> stats.

(** The body of the loop [for (const product of products)]. *)
Definition tallyProduct (product : value) (t : Tally) : result Tally :=
  (* Category statistics *)
  category ← getProp product "category";
  let categoryStats := bump (toString category) (t_categoryStats t) in
  (* Location statistics *)
  locationData ← getProp product "locationData";
  current ← getProp locationData "current";
  currentLocation ← getProp current "location";
  let locationStats := bump (toString currentLocation) (t_locationStats t) in
  (* Monthly trends *)
  productionDate ← getProp product "productionDate";
  iso ← newDate_toISOString productionDate;
  let productionMonth := take_string 7 iso in
  let monthlyData :=
    match t_monthlyData t !! productionMonth with
    | Some _ => t_monthlyData t
    | None => <[productionMonth := (0, 0)]> (t_monthlyData t)
    end in
  let monthlyData :=
    match monthlyData !! productionMonth with
    | Some (p, s) => <[productionMonth := (p + 1, s)]> monthlyData
    | None => monthlyData
    end in
  (* Calculate delivery metrics if product has moved *)
  previous ← getProp locationData "previous";
  len ← getProp previous "length";
  if num_gt (toNumber len) (Some 0) then
    firstLocation ← getFirst previous;
    currentArrival ← getProp current "arrivalDate";
    firstArrival ← getProp firstLocation "arrivalDate";
    let deliveryTime := num_sub (newDate currentArrival) (newDate firstArrival) in
    let totalDeliveryTime := num_add (t_totalDeliveryTime t) deliveryTime in
    let deliveryCount := t_deliveryCount t + 1 in
    (* Count shipments for monthly trends *)
    iso ← newDate_toISOString currentArrival;
    let shipmentMonth := take_string 7 iso in
    let monthlyData :=
      match monthlyData !! shipmentMonth with
      | Some (p, s) => <[shipmentMonth := (p, s + 1)]> monthlyData
      | None => monthlyData
      end in
    (* Assume on-time if delivered within expected timeframe:
       deliveryTime / (1000 * 60 * 60 * 24) <= 7 *)
    let onTimeDeliveries :=
      if num_le deliveryTime (Some (7 * msPerDay)) then t_onTimeDeliveries t + 1
      else t_onTimeDeliveries t in
    Ok (mkTally categoryStats locationStats totalDeliveryTime deliveryCount
          onTimeDeliveries monthlyData)
  else
    Ok (mkTally categoryStats locationStats (t_totalDeliveryTime t)
          (t_deliveryCount t) (t_onTimeDeliveries t) monthlyData).

Fixpoint tallyProducts (products : list value) (t : Tally) : result Tally :=
  match products with
  | [] => Ok t
  | product :: rest => t' ← tallyProduct product t; tallyProducts rest t'
  end.

(** The loop [for (const record of allQualityRecords)] inside its [try]:
    a throw ends the loop and keeps the sums made so far. *)
Fixpoint tallyQuality (records : list value) (total : prim) (count : Z) : prim * Z :=
  match records with
  | [] => (total, count)
  | record :: rest =>
      match getProp record "score" with
      | Ok score => tallyQuality rest (js_plus total score) (count + 1)
      | Throw _ => (total, count)
      end
  end.

(** [p.locationData.previous.length], as the two filters of the result
    read it. *)
Definition previousLength (p : value) : result number :=
  locationData ← getProp p "locationData";
  previous ← getProp locationData "previous";
  len ← getProp previous "length";
  Ok (toNumber len).

Fixpoint countWhere (f : number -> bool) (products : list value) : result Z :=
  match products with
  | [] => Ok 0
  | p :: rest =>
      len ← previousLength p;
      n ← countWhere f rest;
      Ok (if f len then n + 1 else n)
  end.

(** [a.localeCompare(b)] between two month keys.  A key is made of
    digits and hyphens, with the sign of the year in front when the year
    has more than four digits; the collation puts the hyphen before the
    plus sign and both before the digits, and compares two such keys
    character by character.  The code page has the plus sign first:
    [collationKey] exchanges the two. *)
Fixpoint collationKey (s : string) : string :=
  match s with
  | EmptyString => EmptyString
  | String c s' =>
      String (if ascii_eqb c "-" then "+"%char
              else if ascii_eqb c "+" then "-"%char else c)
        (collationKey s')
  end.

Definition month_le (a b : string * (Z * Z)) : Prop :=
  String.le (collationKey (fst a)) (collationKey (fst b)).

#[export] Instance month_le_dec : RelDecision month_le.
Proof. intros a b. unfold month_le. apply _. Defined.

(** [Object.entries(monthlyData).sort(([a], [b]) => a.localeCompare(b))
    .slice(-6)]. *)
Definition lastSixMonths (monthlyData : gmap string (Z * Z)) : list (string * (Z * Z)) :=
  let sorted := merge_sort month_le (map_to_list monthlyData) in
  drop (length sorted - 6) sorted.

Definition getAnalyticsData : M AnalyticsData :=
  products ← queryAllProducts;
  (* Calculate analytics *)
  let totalProducts := Z.of_nat (length products) in
  t ← lift (tallyProducts products (mkTally ∅ ∅ (Some 0) 0 0 ∅));
  (* Get quality records for quality score calculation *)
  '(totalQualityScore, qualityCount) ←
    try_catch
      (allQualityRecords ← getAllQualityRecords;
       mret (tallyQuality allQualityRecords (PNum (Some 0)) 0))
      (fun error => mret (PNum (Some 0), 0));
  let deliveryCount := t_deliveryCount t in
  let averageDeliveryTime :=
    if deliveryCount >? 0 then
      match t_totalDeliveryTime t with
      | Some total => Some (round_div total (deliveryCount * msPerDay))
      | None => None
      end
    else Some 0 in
  let onTimeDeliveryRate :=
    if deliveryCount >? 0 then round_div (t_onTimeDeliveries t * 100) deliveryCount
    else 100 in
  let qualityScore :=
    if qualityCount >? 0 then
      match prim_toNumber totalQualityScore with
      | Some total => Some (Qmake (round_div (total * 10) qualityCount) 10)
      | None => None
      end
    else Some (Qmake 95 1) in
  (* Convert monthly data to array *)
  let monthlyTrends :=
    map (fun '(month, (products, shipments)) =>
           mkTrend (toLocaleMonthShort (newDate (Str (month +:+ "-01"))))
             products shipments)
      (lastSixMonths (t_monthlyData t)) in
  activeShipments ←
    lift (countWhere (fun len => num_gt len (Some 0) && num_lt len (Some 3)) products);
  completedDeliveries ←
    lift (countWhere (fun len => num_ge len (Some 2)) products);
  mret (mkAnalyticsData totalProducts activeShipments completedDeliveries
          averageDeliveryTime onTimeDeliveryRate qualityScore
          (t_categoryStats t) (t_locationStats t) monthlyTrends).

End Engine.

(* ------------------------------------------------------------------- *)
(** *** Product with its components                                      *)
(* ------------------------------------------------------------------- *)

Section History.

(** [new ProductWithHistory(product)].  The class
    ([models/product-with-history.ts]) is not among the sources: what its
    constructor makes of the product, the properties of the new object or
    an exception, is left open. *)
Variable newProductWithHistory : value -> result (list (string * value)).

(** The loop [for (const childProductId of product.componentProductIds)]:
    a component that cannot be read is skipped. *)
Fixpoint readComponents (ids : list value) (productWithHistory : value) : M value :=
  match ids with
  | [] => mret productWithHistory
  | childProductId :: rest =>
      productWithHistory ←
        try_catch
          (key ← asKey childProductId;
           childProduct ← readProduct key;
           componentProducts ← lift (getProp productWithHistory "componentProducts");
           componentProducts ← lift (push componentProducts childProduct);
           lift (setProp productWithHistory "componentProducts" componentProducts))
          (fun error => mret productWithHistory);
      readComponents rest productWithHistory
  end.

Definition getProductWithHistory (productId : string) : M value :=
  exists_ ← productExists productId;
  if negb exists_ then
    throw (Error ("The product " +:+ productId +:+ " does not exist."))
  else
    product ← readProduct productId;
    fields ← lift (newProductWithHistory product);
    productWithHistory ← lift (setProp (Obj fields) "componentProducts" (Arr []));
    componentProductIds ← lift (getProp product "componentProductIds");
    ids ← lift (iterate componentProductIds);
    readComponents ids productWithHistory.

End History.

(* ------------------------------------------------------------------- *)
(** *** Notification transactions                                        *)
(* ------------------------------------------------------------------- *)

(** The query of [getNotifications]: the limit is [parseInt(limit)], or
    50 when [limit] is missing or empty. *)
Definition notificationsQuery (limit : value) : string :=
  let queryLimit := if truthy limit then parseInt (toString limit) else Some 50 in
  "{" +:+ q "selector" +:+ ":{" +:+ q "type" +:+ ":{" +:+ q "$exists" +:+ ":true}},"
  +:+ q "sort" +:+ ":[{" +:+ q "timestamp" +:+ ":" +:+ q "desc" +:+ "}],"
  +:+ q "limit" +:+ ":" +:+ prim_toString (PNum queryLimit) +:+ "}".

Section Notifications.

(** [ctx.stub.getQueryResult] for a query with [sort] and [limit],
    drained.  What the state database makes of the two is left open. *)
Variable getSortedQueryResult : string -> M (list (string * string)).

Definition getNotifications (limit : value) : M (list value) :=
  results ← getSortedQueryResult (notificationsQuery limit);
  mret (parseAll results).

End Notifications.

Definition acknowledgeNotification (notificationId : string) : M unit :=
  data ← getState notificationId;
  if String.eqb data "" then
    throw (Error ("Notification " +:+ notificationId +:+ " does not exist."))
  else
    notification ← lift (JSON_parse data);
    notification ← lift (setProp notification "acknowledged" (Bool true));
    let buffer := JSON_stringify notification in
    putState notificationId buffer.

End Contract.

(* ===================================================================== *)
(** ** The gateway                                                        *)
(* ===================================================================== *)

(** The parts of the web application that stand between a user and the
    contract: the circuit breaker of [web-app/server/fabric/network-manager.js],
    the roles and permissions and the [login] of the server's
    authentication middleware, and the [hasPermission] of the client's
    [AuthContext.js]. *)

Module Gateway.
Import Js.

(** *** [class CircuitBreaker] of [fabric/network-manager.js] *)

Inductive BreakerState : Type := CLOSED | OPEN | HALF_OPEN.

Record CircuitBreaker : Type := mkCircuitBreaker {
  failureThreshold : Z;
  timeout : Z;
  failureCount : Z;
  lastFailureTime : option Z;
  state : BreakerState
}.

(** [new CircuitBreaker(threshold, timeout)]; the defaults are 5 and
    60000. *)
Definition newCircuitBreaker (threshold timeout : Z) : CircuitBreaker :=
  mkCircuitBreaker threshold timeout 0 None CLOSED.

Definition onSuccess (cb : CircuitBreaker) : CircuitBreaker :=
  mkCircuitBreaker (failureThreshold cb) (timeout cb) 0 (lastFailureTime cb) CLOSED.

(** [onFailure()]; [now] is what [Date.now()] reads. *)
Definition onFailure (now : Z) (cb : CircuitBreaker) : CircuitBreaker :=
  let failureCount := failureCount cb + 1 in
  mkCircuitBreaker (failureThreshold cb) (timeout cb) failureCount (Some now)
    (if failureThreshold cb <=? failureCount then OPEN else state cb).

(** [execute(operation)].  [operation] stands for the outcome of the
    awaited call; [clock] holds the readings the coming calls of
    [Date.now()] get, as in the contract's world.  In
    [Date.now() - this.lastFailureTime] a [null] counts as 0. *)
Definition execute {A} (operation : result A) (cb : CircuitBreaker) (clock : list Z)
  : result A * CircuitBreaker * list Z :=
  let run (cb : CircuitBreaker) (clock : list Z) :=
    match operation with
    | Ok r => (Ok r, onSuccess cb, clock)
    | Throw error => (Throw error, onFailure (hd 0 clock) cb, tail clock)
    end in
  match state cb with
  | OPEN =>
      if timeout cb <? hd 0 clock - default 0 (lastFailureTime cb) then
        run (mkCircuitBreaker (failureThreshold cb) (timeout cb) (failureCount cb)
               (lastFailureTime cb) HALF_OPEN) (tail clock)
      else
        (Throw (Error "Circuit breaker is OPEN - network temporarily unavailable"),
         cb, tail clock)
  | _ => run cb clock
  end.

(** *** Roles and permissions (the authentication part of
    [server/middleware/security.js], and [client/src/context/AuthContext.js]) *)

(** [const ROLE_PERMISSIONS], and the [rolePermissions] of the client's
    [hasPermission]: the two literals are the same. *)
Definition ROLE_PERMISSIONS : list (string * list string) :=
  [("admin", ["create"; "read"; "update"; "delete"; "ship"; "quality"]);
   ("manager", ["create"; "read"; "update"; "ship"; "quality"]);
   ("employee", ["read"; "ship"]);
   ("client", ["read"])].

Definition rolePermissions : list (string * list string) :=
  [("admin", ["create"; "read"; "update"; "delete"; "ship"; "quality"]);
   ("manager", ["create"; "read"; "update"; "ship"; "quality"]);
   ("employee", ["read"; "ship"]);
   ("client", ["read"])].

(** [(table[role] || []).includes(permission)].  A role the table does
    not name gives the empty list, unless it is the name of a member of
    [Object.prototype]: the table inherits that member, which has no
    [includes], and the call throws. *)
Definition includesPermission (table : list (string * list string))
    (role permission : string) : result bool :=
  match find (fun entry => String.eqb role (fst entry)) table with
  | Some entry => Ok (existsb (String.eqb permission) (snd entry))
  | None =>
      if existsb (String.eqb role) prototypeNames then Throw TypeError
      else Ok false
  end.

(** What a middleware does with a request: it passes it on, or answers
    it with a status and a JSON body. *)
Inductive Handled : Type :=
  | Next
  | Respond (status : Z) (body : value).

(** [req.user], the payload of a verified token. *)
Record TokenUser : Type := mkTokenUser {
  userId : string;
  role : string
}.

(** [requirePermission(permission)], applied to a request. *)
Definition requirePermission (permission : string) (user : option TokenUser)
  : result Handled :=
  match user with
  | None => Ok (Respond 401 (Obj [("error", Str "Authentication required")]))
  | Some user =>
      let userRole := role user in
      allowed ← includesPermission ROLE_PERMISSIONS userRole permission;
      if negb allowed then
        Ok (Respond 403
              (Obj [("error", Str ("Insufficient permissions. Required: " +:+ permission
                                   +:+ ", User role: " +:+ userRole))]))
      else Ok Next
  end.

(** The client's [hasPermission(permission)]; [user] is the role of the
    user who is logged in, if one is. *)
Definition hasPermission (user : option string) (permission : string) : result bool :=
  match user with
  | None => Ok false
  | Some role => includesPermission rolePermissions role permission
  end.

(** *** Logging in (the authentication part of
    [server/middleware/security.js]) *)

(** An entry of [SECURE_USERS]; [null] is [None]. *)
Record User : Type := mkUser {
  passwordHash : string;
  userRole : string;
  lastLogin : option string;
  failedAttempts : Z;
  lockedUntil : option Z
}.

Definition SECURE_USERS : gmap string User :=
  {[ "admin" :=
       mkUser "$2b$12$LQv3c1yqBWVHxkd0LHAkCOYz6TtxMQJqhN8/LewdBPj/RK.s5uO8O" "admin"
         None 0 None;
     "manager" :=
       mkUser "$2b$12$92IXUNpkjO0rOQ5byMi.Ye4oKoEa3Ro9llC/.og/at2.uheWG/igi" "manager"
         None 0 None;
     "employee" :=
       mkUser "$2b$12$gp45Oub0H2knh2vSAy7hDONXjzMHs1qZpBuirfLllFgaKeqWrKIWy" "employee"
         None 0 None;
     "client" :=
       mkUser "$2b$12$4y9retKoiS8dwZeQwE5uFOKKQH5TQjqNkVU5nJ8jJOOvQH5TQjqNk" "client"
         None 0 None ]}.

Definition MAX_FAILED_ATTEMPTS : Z := 5.
Definition LOCKOUT_DURATION : Z := 15 * 60 * 1000.

(** What the server keeps between two requests, and what it reads from
    outside: the users, the readings the coming calls of [Date.now()] and
    [new Date()] get, and the results of the coming
    [crypto.randomBytes(n).toString('hex')]. *)
Record Server : Type := mkServer {
  users : gmap string User;
  clock : list Z;
  randomHex : list string
}.

(** [Math.ceil(a / b)] for [b > 0]. *)
Definition ceil_div (a b : Z) : Z := - ((- a) / b).

Section Login.

(** [bcrypt.compare(password, hash)], awaited: its answer, or the
    exception it rejects with. *)
Variable bcrypt_compare : string -> string -> result bool.

(** [jwt.sign(payload, JWT_SECRET, { algorithm: 'HS256' })]. *)
Variable jwt_sign : value -> result string.

(** [generateToken(userId, role, sessionId)]. *)
Definition generateToken (userId role sessionId : string) (s : Server)
  : result string * Server :=
  let '(sessionId, s) :=
    if String.eqb sessionId "" then
      (hd "" (randomHex s), mkServer (users s) (clock s) (tail (randomHex s)))
    else (sessionId, s) in
  let iat := hd 0 (clock s) / 1000 in
  let exp := hd 0 (tail (clock s)) / 1000 + 24 * 60 * 60 in
  let payload :=
    Obj [("userId", Str userId); ("role", Str role); ("sessionId", Str sessionId);
         ("iat", Num iat); ("exp", Num exp)] in
  (jwt_sign payload, mkServer (users s) (tail (tail (clock s))) (randomHex s)).

(** [login], for a request whose body holds the strings [username] and
    [password].  [Throw] stands for the rejection of the handler's
    promise.  For a [username] that is the name of a member of
    [Object.prototype], [SECURE_USERS[username]] is that member and no
    account: what the handler answers then is not what is written here
    for a name without account (it goes on to [bcrypt.compare] with no
    hash); the accounts are as here, untouched. *)
Definition login (username password : string) (s : Server) : result Handled * Server :=
  (* Input validation *)
  if String.eqb username "" || String.eqb password "" then
    (Ok (Respond 400 (Obj [("error", Str "Username and password are required")])), s)
  else if (50 <? utf16_length username) || (100 <? utf16_length password) then
    (Ok (Respond 400 (Obj [("error", Str "Invalid input length")])), s)
  else
    match users s !! username with
    | None =>
        (* Simulate password check to prevent timing attacks *)
        match bcrypt_compare password "$2b$12$dummy.hash.to.prevent.timing.attacks" with
        | Ok _ => (Ok (Respond 401 (Obj [("error", Str "Invalid credentials")])), s)
        | Throw e => (Throw e, s)
        end
    | Some user =>
        (* Check if account is locked *)
        let locked :=
          match lockedUntil user with
          | Some t => if t =? 0 then None else Some t
          | None => None
          end in
        let check :=
          match locked with
          | Some t =>
              (t >? hd 0 (clock s), mkServer (users s) (tail (clock s)) (randomHex s))
          | None => (false, s)
          end in
        let '(isLocked, s) := check in
        if isLocked then
          let remainingTime :=
            ceil_div (default 0 (lockedUntil user) - hd 0 (clock s)) 60000 in
          (Ok (Respond 423
                 (Obj [("error", Str ("Account locked. Try again in "
                                      +:+ string_of_Z remainingTime +:+ " minutes."))])),
           mkServer (users s) (tail (clock s)) (randomHex s))
        else
          (* Verify password *)
          match bcrypt_compare password (passwordHash user) with
          | Throw _ =>
              (Ok (Respond 500 (Obj [("error", Str "Authentication service unavailable")])),
               s)
          | Ok false =>
              (* Increment failed attempts *)
              let failedAttempts := failedAttempts user + 1 in
              if MAX_FAILED_ATTEMPTS <=? failedAttempts then
                let user :=
                  mkUser (passwordHash user) (userRole user) (lastLogin user)
                    failedAttempts (Some (hd 0 (clock s) + LOCKOUT_DURATION)) in
                (Ok (Respond 423
                       (Obj [("error",
                              Str "Account locked due to too many failed attempts. Try again later.")])),
                 mkServer (<[username := user]> (users s)) (tail (clock s)) (randomHex s))
              else
                let user :=
                  mkUser (passwordHash user) (userRole user) (lastLogin user)
                    failedAttempts (lockedUntil user) in
                (Ok (Respond 401
                       (Obj [("error", Str "Invalid credentials");
                             ("attemptsRemaining", Num (MAX_FAILED_ATTEMPTS - failedAttempts))])),
                 mkServer (<[username := user]> (users s)) (clock s) (randomHex s))
          | Ok true =>
              (* Reset failed attempts on successful login *)
              let now := toISOString (hd 0 (clock s)) in
              let user := mkUser (passwordHash user) (userRole user) (Some now) 0 None in
              let s := mkServer (<[username := user]> (users s)) (tail (clock s))
                         (randomHex s) in
              (* Generate secure session *)
              let sessionId := hd "" (randomHex s) in
              let s := mkServer (users s) (clock s) (tail (randomHex s)) in
              match generateToken username (userRole user) sessionId s with
              | (Ok token, s) =>
                  (Ok (Respond 200
                         (Obj [("token", Str token);
                               ("user", Obj [("username", Str username);
                                             ("role", Str (userRole user));
                                             ("lastLogin", Str now)]);
                               ("expiresIn", Str "24h")])),
                   s)
              | (Throw _, s) =>
                  (Ok (Respond 500
                         (Obj [("error", Str "Authentication service unavailable")])),
                   s)
              end
          end
    end.

End Login.

End Gateway.

(* ===================================================================== *)
(** * Facts                                                               *)
(* ===================================================================== *)

(** ** [JSON.parse] after [JSON.stringify]                                *)

Module JsFacts.
Import Js.

(** Induction on values that reaches inside arrays and objects. *)
Lemma value_ind' (P : value -> Prop) :
  P Undefined -> P Null -> (forall b, P (Bool b)) -> (forall n, P (Num n)) ->
  (forall s, P (Str s)) ->
  (forall l, Forall P l -> P (Arr l)) ->
  (forall o, Forall (fun kv => P kv.2) o -> P (Obj o)) ->
  forall v, P v.
Proof.
  intros HU HN HB HZ HS HA HO.
  fix IH 1. intros [| |b|n|s|l|o].
  - exact HU.
  - exact HN.
  - apply HB.
  - apply HZ.
  - apply HS.
  - apply HA. induction l as [|x l IHl]; constructor; [apply IH | exact IHl].
  - apply HO. induction o as [|[k x] o IHo]; constructor; [apply IH | exact IHo].
Qed.

Fixpoint stringify_elems (l : list value) : string :=
  match l with
  | [] => ""
  | [x] => stringify x
  | x :: l' => stringify x +:+ "," +:+ stringify_elems l'
  end.

Fixpoint stringify_members (first : bool) (o : list (string * value)) : string :=
  match o with
  | [] => ""
  | (k, Undefined) :: o' => stringify_members first o'
  | (k, x) :: o' =>
      (if first then "" else ",") +:+ quote k +:+ ":" +:+ stringify x
      +:+ stringify_members false o'
  end.

Lemma stringify_Arr l : stringify (Arr l) = "[" +:+ stringify_elems l +:+ "]".
Proof. reflexivity. Qed.

Lemma stringify_Obj o : stringify (Obj o) = "{" +:+ stringify_members true o +:+ "}".
Proof. reflexivity. Qed.

Lemma app_cons c (s t : string) : String c s +:+ t = String c (s +:+ t).
Proof. reflexivity. Qed.

Lemma app_nil (t : string) : "" +:+ t = t.
Proof. reflexivity. Qed.

Lemma app_assoc_s (a b c : string) : (a +:+ b) +:+ c = a +:+ (b +:+ c).
Proof. induction a as [|x a IH]; [reflexivity|]. rewrite !app_cons, IH. reflexivity. Qed.

Lemma parse_chars_escape_char c tail s rest :
  parse_chars tail = Some (s, rest) ->
  parse_chars (escape_char c +:+ tail) = Some (String c s, rest).
Proof.
  intros H.
  destruct c as [[] [] [] [] [] [] [] []];
    match goal with
    | |- context [escape_char ?c] =>
        let e := eval vm_compute in (escape_char c) in
        change (escape_char c) with e
    end;
    rewrite ?app_cons, ?app_nil; cbn; rewrite H; reflexivity.
Qed.

Lemma parse_chars_escape s rest :
  parse_chars (escape s +:+ String dquote rest) = Some (s, rest).
Proof.
  induction s as [|c s IH]; [reflexivity|].
  cbn [escape]. rewrite app_assoc_s. apply parse_chars_escape_char, IH.
Qed.

Lemma span_digits_nondigit rest :
  continuesNumber rest = false -> span_digits rest = (Decimal.Nil, rest).
Proof.
  destruct rest as [|c r]; [reflexivity|].
  destruct c as [[] [] [] [] [] [] [] []]; cbn; intros H;
    first [discriminate H | reflexivity].
Qed.

Lemma span_digits_print u rest :
  continuesNumber rest = false ->
  span_digits (NilEmpty.string_of_uint u +:+ rest) = (u, rest).
Proof.
  intros H. induction u; cbn [NilEmpty.string_of_uint];
    rewrite ?app_cons, ?app_nil;
    [ by apply span_digits_nondigit | cbn [span_digits]; rewrite IHu; reflexivity .. ].
Qed.

Lemma wellFormedInt_pos p : wellFormedInt (Pos.to_uint p) = true.
Proof.
  pose proof (DecimalPos.Unsigned.to_uint_nonnil p) as Hn.
  pose proof (DecimalPos.Unsigned.to_of (Pos.to_uint p)) as Hu.
  rewrite DecimalPos.Unsigned.of_to in Hu. cbn in Hu.
  destruct (Pos.to_uint p) as [|u| | | | | | | | |] eqn:E; try reflexivity; [done|].
  rewrite unorm_D0 in Hu.
  destruct u; try reflexivity.
  all: exfalso; unfold Decimal.unorm in Hu;
    match type of Hu with
    | context [Decimal.nzhead ?d] =>
        pose proof (nzhead_nonzero d) as Hz; destruct (Decimal.nzhead d) eqn:E2
    end; try discriminate Hu; injection Hu as Hu; subst; first [by eapply Hz | idtac].
Qed.

Lemma parse_number_uint u rest :
  wellFormedInt u = true -> continuesNumber rest = false ->
  parse_number (NilEmpty.string_of_uint u +:+ rest)
  = Some (Z.of_N (N.of_uint u), rest)
  /\ parse_number (String "-" (NilEmpty.string_of_uint u +:+ rest))
    = Some (- Z.of_N (N.of_uint u), rest).
Proof.
  intros Hu H. unfold parse_number. split.
  - assert (Hh : match NilEmpty.string_of_uint u +:+ rest with
                 | String c s' =>
                     if ascii_eqb c "-" then (true, s')
                     else (false, NilEmpty.string_of_uint u +:+ rest)
                 | EmptyString => (false, NilEmpty.string_of_uint u +:+ rest)
                 end = (false, NilEmpty.string_of_uint u +:+ rest)).
    { destruct u; try discriminate Hu; reflexivity. }
    rewrite Hh, (span_digits_print _ _ H), Hu, H. reflexivity.
  - cbn [ascii_eqb Ascii.eqb Bool.eqb].
    rewrite (span_digits_print _ _ H), Hu, H. reflexivity.
Qed.

Lemma parse_number_print z rest :
  continuesNumber rest = false ->
  parse_number (string_of_Z z +:+ rest) = Some (z, rest).
Proof.
  intros H. unfold string_of_Z.
  assert (Hs : forall p, NilZero.string_of_uint (Pos.to_uint p)
                 = NilEmpty.string_of_uint (Pos.to_uint p)).
  { intros p. pose proof (DecimalPos.Unsigned.to_uint_nonnil p). by destruct (Pos.to_uint p). }
  assert (Hv : forall p, N.of_uint (Pos.to_uint p) = Npos p).
  { intros p. apply DecimalPos.Unsigned.of_to. }
  destruct z as [|p|p]; cbn [Z.to_int NilZero.string_of_int].
  - apply (parse_number_uint (Decimal.D0 Decimal.Nil) rest eq_refl H).
  - rewrite Hs.
    destruct (parse_number_uint _ rest (wellFormedInt_pos p) H) as [-> _].
    by rewrite Hv.
  - rewrite Hs, app_cons.
    destruct (parse_number_uint _ rest (wellFormedInt_pos p) H) as [_ ->].
    by rewrite Hv.
Qed.

Fixpoint vsize (v : value) : nat :=
  match v with
  | Arr l => S ((fix go (l : list value) : nat :=
                   match l with [] => O | x :: l' => S (vsize x + go l') end) l)
  | Obj o => S ((fix go (o : list (string * value)) : nat :=
                   match o with [] => O | (_, x) :: o' => S (vsize x + go o') end) o)
  | _ => 1%nat
  end.

Fixpoint elems_size (l : list value) : nat :=
  match l with [] => O | x :: l' => S (vsize x + elems_size l') end.

Fixpoint members_size (o : list (string * value)) : nat :=
  match o with [] => O | (_, x) :: o' => S (vsize x + members_size o') end.

Lemma vsize_Arr l : vsize (Arr l) = S (elems_size l).
Proof. reflexivity. Qed.
Lemma vsize_Obj o : vsize (Obj o) = S (members_size o).
Proof. reflexivity. Qed.

Definition startsNumber (c : ascii) : bool := ascii_eqb c "-" || isDigit c.

Lemma startsValue_facts c :
  startsValue c = true ->
  isJsonSpace c = false /\ ascii_eqb c "]" = false /\ ascii_eqb c "}" = false.
Proof.
  destruct c as [[] [] [] [] [] [] [] []]; cbn; intros H;
    first [discriminate H | repeat split].
Qed.

Lemma startsNumber_facts c :
  startsNumber c = true ->
  isJsonSpace c = false /\ ascii_eqb c "{" = false /\ ascii_eqb c "[" = false
  /\ ascii_eqb c dquote = false /\ ascii_eqb c "t" = false
  /\ ascii_eqb c "f" = false /\ ascii_eqb c "n" = false /\ startsValue c = true.
Proof.
  destruct c as [[] [] [] [] [] [] [] []]; cbn; intros H;
    first [discriminate H | repeat split].
Qed.

Lemma string_of_Z_head z :
  exists c s, string_of_Z z = String c s /\ startsNumber c = true.
Proof.
  unfold string_of_Z. destruct z as [|p|p]; cbn [Z.to_int NilZero.string_of_int].
  - by exists "0"%char, "".
  - pose proof (DecimalPos.Unsigned.to_uint_nonnil p).
    destruct (Pos.to_uint p); [done|..]; cbn; eauto.
  - eexists _, _. split; [reflexivity|reflexivity].
Qed.

Lemma stringify_head v :
  exists c s, stringify v = String c s /\ startsValue c = true.
Proof.
  destruct v as [| |[]|n|s|l|o]; try (eexists _, _; split; reflexivity).
  destruct (string_of_Z_head n) as (c & s & E & Hc).
  exists c, s. split; [exact E|]. by apply startsNumber_facts.
Qed.

Lemma skip_ws_value v rest : skip_ws (stringify v +:+ rest) = stringify v +:+ rest.
Proof.
  destruct (stringify_head v) as (c & s & -> & Hc).
  apply startsValue_facts in Hc as (Hs & _). rewrite app_cons. cbn. by rewrite Hs.
Qed.

Lemma parse_value_Num f z rest :
  continuesNumber rest = false ->
  parse_value (S f) (string_of_Z z +:+ rest) = Some (Num z, rest).
Proof.
  intros H. pose proof (parse_number_print z rest H) as Hp.
  destruct (string_of_Z_head z) as (c & s & E & Hc). rewrite E in *.
  apply startsNumber_facts in Hc as (H1 & H2 & H3 & H4 & H5 & H6 & H7 & _).
  rewrite app_cons in *. cbn [parse_value skip_ws].
  rewrite H1, H2, H3, H4, H5, H6, H7, Hp. reflexivity.
Qed.

Definition roundtrips (v : value) : Prop :=
  isJson v = true ->
  forall fuel rest, (vsize v <= fuel)%nat -> continuesNumber rest = false ->
  parse_value fuel (stringify v +:+ rest) = Some (v, rest).

Lemma parse_elems_stringify l :
  l <> [] -> Forall roundtrips l -> forallb isJson l = true ->
  forall acc fuel rest, (elems_size l <= fuel)%nat ->
  parse_elems fuel acc (stringify_elems l +:+ String "]" rest)
  = Some (Arr (acc ++ l), rest).
Proof.
  intros Hne Hall. induction Hall as [|x l Hx Hall IH]; [done|].
  intros Hwf acc fuel rest Hf. cbn [forallb] in Hwf.
  apply andb_prop in Hwf as [Hwx Hwl].
  destruct fuel as [|f]; [cbn in Hf; lia|]. cbn [elems_size] in Hf.
  destruct l as [|y l'].
  - cbn [stringify_elems parse_elems].
    rewrite (Hx Hwx f (String "]" rest)); [|lia|reflexivity].
    reflexivity.
  - change (stringify_elems (x :: y :: l'))
      with (stringify x +:+ "," +:+ stringify_elems (y :: l')).
    rewrite !app_assoc_s. cbn [parse_elems].
    rewrite (Hx Hwx f); [|lia|reflexivity].
    change ("," +:+ stringify_elems (y :: l') +:+ String "]" rest)
      with (String "," (stringify_elems (y :: l') +:+ String "]" rest)).
    change (skip_ws (String "," ?s)) with (String "," s).
    change (ascii_eqb "," ",") with true. cbv iota.
    rewrite IH; [|done|done|lia]. by rewrite <- app_assoc.
Qed.

Lemma stringify_members_cons first k x o :
  isJson x = true ->
  stringify_members first ((k, x) :: o)
  = (if first then "" else ",") +:+ quote k +:+ ":" +:+ stringify x
    +:+ stringify_members false o.
Proof. by destruct x. Qed.

Lemma parse_members_step f acc k x rem :
  roundtrips x -> isJson x = true -> (vsize x <= f)%nat ->
  continuesNumber rem = false ->
  parse_members (S f) acc (quote k +:+ ":" +:+ stringify x +:+ rem)
  = match skip_ws rem with
    | String c r4 =>
        if ascii_eqb c "," then parse_members f (obj_set k x acc) r4
        else if ascii_eqb c "}" then Some (Obj (obj_set k x acc), r4)
        else None
    | EmptyString => None
    end.
Proof.
  intros Hx Hw Hf Hrem. unfold quote. rewrite app_cons, app_assoc_s, app_cons, app_nil.
  cbn [parse_members].
  change (skip_ws (String dquote ?s)) with (String dquote s).
  change (negb (ascii_eqb dquote dquote)) with false. cbv iota.
  rewrite parse_chars_escape.
  change (":" +:+ ?s) with (String ":" s).
  change (skip_ws (String ":" ?s)) with (String ":" s).
  change (negb (ascii_eqb ":" ":")) with false. cbv iota.
  by rewrite (Hx Hw f rem Hf Hrem).
Qed.

Definition set_all (acc o : list (string * value)) : list (string * value) :=
  fold_left (fun a kv => obj_set kv.1 kv.2 a) o acc.

Lemma parse_members_stringify o :
  Forall (fun kv => roundtrips kv.2) o ->
  forallb (fun kv => isJson kv.2) o = true ->
  forall k x acc fuel rest,
  roundtrips x -> isJson x = true ->
  (S (vsize x + members_size o) <= fuel)%nat ->
  parse_members fuel acc
    (quote k +:+ ":" +:+ stringify x +:+ stringify_members false o +:+ String "}" rest)
  = Some (Obj (set_all acc ((k, x) :: o)), rest).
Proof.
  intros Hall. induction Hall as [|[k' x'] o Hx' Hall IH];
    intros Hwf k x acc fuel rest Hx Hw Hf; (destruct fuel as [|f]; [lia|]).
  - cbn [stringify_members]. rewrite app_nil.
    etrans; [apply (parse_members_step f acc k x _ Hx Hw); [cbn in Hf; lia|done]|].
    reflexivity.
  - cbn [forallb] in Hwf. apply andb_prop in Hwf as [Hwx Hwl]. cbn in Hwx.
    rewrite (stringify_members_cons false k' x' o Hwx). cbv iota.
    cbn [members_size] in Hf. rewrite !app_assoc_s.
    etrans; [apply (parse_members_step f acc k x _ Hx Hw); [lia|done]|].
    change ("," +:+ ?s) with (String "," s).
    change (skip_ws (String "," ?s)) with (String "," s).
    change (ascii_eqb "," ",") with true. cbv iota.
    rewrite (IH Hwl k' x' (obj_set k x acc) f rest Hx' Hwx); [|lia]. reflexivity.
Qed.

Lemma obj_set_fresh k x acc :
  existsb (String.eqb k) (map fst acc) = false -> obj_set k x acc = (acc ++ [(k, x)])%list.
Proof.
  induction acc as [|[k' x'] acc IH]; [done|]. cbn. intros H.
  apply orb_false_elim in H as [H1 H2]. rewrite H1. by rewrite IH.
Qed.

Lemma existsb_app_false {A} (f : A -> bool) l1 l2 :
  existsb f (l1 ++ l2)%list = false <-> existsb f l1 = false /\ existsb f l2 = false.
Proof. rewrite existsb_app. apply orb_false_iff. Qed.

Lemma set_all_distinct o acc :
  distinct (map fst (acc ++ o)%list) = true -> set_all acc o = (acc ++ o)%list.
Proof.
  revert acc. induction o as [|[k x] o IH]; intros acc H.
  - by rewrite app_nil_r.
  - cbn [set_all fold_left]. cbn [fst snd].
    assert (Hk : existsb (String.eqb k) (map fst acc) = false).
    { clear IH. induction acc as [|[k' x'] acc IHa]; [done|].
      cbn in H. apply andb_prop in H as [H1 H2]. cbn.
      apply negb_true_iff in H1. rewrite map_app in H1.
      apply existsb_app_false in H1 as [H1a H1b]. cbn in H1b.
      apply orb_false_elim in H1b as [H1b _].
      rewrite String.eqb_sym, H1b. cbn. by apply IHa. }
    rewrite (obj_set_fresh _ _ _ Hk).
    change (fold_left _ o ?a) with (set_all a o).
    rewrite IH; rewrite <- app_assoc; [done|]. exact H.
Qed.

Lemma stringify_Arr_app l rest :
  stringify (Arr l) +:+ rest = String "[" (stringify_elems l +:+ String "]" rest).
Proof. by rewrite stringify_Arr, !app_assoc_s, !app_cons, !app_nil. Qed.

Lemma stringify_Obj_app k x o rest :
  isJson x = true ->
  stringify (Obj ((k, x) :: o)) +:+ rest
  = String "{" (quote k +:+ ":" +:+ stringify x +:+ stringify_members false o
                +:+ String "}" rest).
Proof.
  intros Hx. rewrite stringify_Obj, (stringify_members_cons true k x o Hx).
  by rewrite !app_assoc_s, !app_cons, !app_nil.
Qed.

Lemma parse_value_stringify v : roundtrips v.
Proof.
  induction v as [| |b|n|s|l IH|o IH] using value_ind';
    intros Hw fuel rest Hf Hrest; (destruct fuel as [|f]; [cbn in Hf; lia|]).
  - discriminate Hw.
  - reflexivity.
  - by destruct b.
  - by apply parse_value_Num.
  - cbn [stringify]. unfold quote. rewrite app_cons, app_assoc_s, app_cons, app_nil.
    cbn [parse_value].
    change (skip_ws (String dquote ?s)) with (String dquote s).
    change (ascii_eqb dquote "{") with false. change (ascii_eqb dquote "[") with false.
    change (ascii_eqb dquote dquote) with true. cbv iota.
    by rewrite parse_chars_escape.
  - rewrite vsize_Arr in Hf. cbn [isJson] in Hw.
    destruct l as [|x l]; [reflexivity|].
    rewrite stringify_Arr_app.
    assert (Hh : exists c s, stringify_elems (x :: l) = String c s /\ startsValue c = true).
    { destruct (stringify_head x) as (c & s & E & Hc).
      destruct l; cbn [stringify_elems]; rewrite E; eauto. }
    destruct Hh as (c & s & E & Hc).
    pose proof (parse_elems_stringify (x :: l) ltac:(done) IH Hw [] f rest ltac:(lia)) as Hp.
    rewrite E, app_cons in *. apply startsValue_facts in Hc as (H1 & H2 & _).
    cbn [parse_value].
    change (skip_ws (String "[" ?s)) with (String "[" s).
    change (ascii_eqb "[" "{") with false. change (ascii_eqb "[" "[") with true.
    cbv iota. cbn [skip_ws]. rewrite H1, H2. exact Hp.
  - rewrite vsize_Obj in Hf. cbn [isJson] in Hw.
    apply andb_prop in Hw as [Hd Hw].
    destruct o as [|[k x] o]; [reflexivity|].
    inversion IH as [|? ? Hx Ho]; subst. cbn [forallb] in Hw.
    apply andb_prop in Hw as [Hwx Hwo]. cbn in Hwx, Hx.
    rewrite (stringify_Obj_app k x o rest Hwx).
    pose proof (parse_members_stringify o Ho Hwo k x [] f rest Hx Hwx
                  ltac:(cbn [members_size] in Hf; lia)) as Hp.
    rewrite (set_all_distinct _ [] Hd) in Hp.
    unfold quote in *. rewrite app_cons in *.
    cbn [parse_value].
    change (skip_ws (String "{" ?s)) with (String "{" s).
    change (ascii_eqb "{" "{") with true. cbv iota.
    change (skip_ws (String dquote ?s)) with (String dquote s).
    change (ascii_eqb dquote "}") with false. cbv iota. exact Hp.
Qed.

Lemma length_app_s (a b : string) :
  String.length (a +:+ b) = (String.length a + String.length b)%nat.
Proof. induction a as [|c a IH]; [done|]. rewrite app_cons. cbn. by rewrite IH. Qed.

Lemma stringify_nonempty v : (1 <= String.length (stringify v))%nat.
Proof. destruct (stringify_head v) as (c & s & -> & _). cbn. lia. Qed.

Lemma vsize_length v : isJson v = true -> (vsize v <= String.length (stringify v))%nat.
Proof.
  induction v as [| |b|n|s|l IH|o IH] using value_ind'; intros Hw;
    try (cbn [vsize]; apply stringify_nonempty).
  - rewrite vsize_Arr, stringify_Arr. cbn [isJson] in Hw.
    rewrite app_cons, app_nil. cbn [String.length]. rewrite length_app_s. cbn [String.length].
    enough (elems_size l <= S (String.length (stringify_elems l)))%nat by lia.
    induction IH as [|x l Hx Hall IHl]; [cbn; lia|].
    cbn [forallb] in Hw. apply andb_prop in Hw as [Hwx Hwl].
    specialize (Hx Hwx). specialize (IHl Hwl). cbn [elems_size].
    destruct l as [|y l'].
    + cbn [stringify_elems elems_size]. lia.
    + change (stringify_elems (x :: y :: l'))
        with (stringify x +:+ "," +:+ stringify_elems (y :: l')).
      rewrite !length_app_s. cbn [String.length]. lia.
  - rewrite vsize_Obj, stringify_Obj. cbn [isJson] in Hw.
    apply andb_prop in Hw as [_ Hw].
    rewrite app_cons, app_nil. cbn [String.length]. rewrite length_app_s. cbn [String.length].
    enough (forall first, members_size o <= String.length (stringify_members first o))%nat
      by (specialize (H true); lia).
    induction IH as [|[k x] o Hx Hall IHo]; intros first; [cbn; lia|].
    cbn [forallb] in Hw. apply andb_prop in Hw as [Hwx Hwo]. cbn in Hwx, Hx.
    specialize (Hx Hwx). specialize (IHo Hwo false).
    rewrite (stringify_members_cons first k x o Hwx). cbn [members_size].
    rewrite !length_app_s. unfold quote. cbn [String.length].
    rewrite length_app_s. cbn [String.length]. lia.
Qed.

(** [JSON.parse] inverts [JSON.stringify] on every value [JSON.parse] can
    return. *)
Lemma JSON_parse_stringify v :
  isJson v = true -> JSON_parse (JSON_stringify v) = Ok v.
Proof.
  intros Hw. unfold JSON_parse, JSON_stringify.
  pose proof (parse_value_stringify v Hw (S (String.length (stringify v))) ""
                ltac:(pose proof (vsize_length v Hw); lia) eq_refl) as Hp.
  assert (E : stringify v +:+ "" = stringify v).
  { generalize (stringify v). intros s. induction s as [|c s IH]; [done|].
    by rewrite app_cons, IH. }
  rewrite E in Hp. by rewrite Hp.
Qed.

Lemma obj_set_keys k x acc :
  map fst (obj_set k x acc)
  = if existsb (String.eqb k) (map fst acc) then map fst acc
    else (map fst acc ++ [k])%list.
Proof.
  induction acc as [|[k' x'] acc IH]; [done|]. cbn.
  destruct (String.eqb_spec k k') as [->|Hne]; cbn; [done|].
  rewrite IH. by destruct (existsb _ _).
Qed.

Lemma distinct_snoc ks k :
  distinct ks = true -> existsb (String.eqb k) ks = false ->
  distinct (ks ++ [k])%list = true.
Proof.
  induction ks as [|k' ks IH]; [done|]. cbn. intros H1 H2.
  apply andb_prop in H1 as [Ha Hb]. apply orb_false_elim in H2 as [Hc Hd].
  rewrite IH by done. rewrite existsb_app. cbn.
  apply negb_true_iff in Ha. rewrite Ha, String.eqb_sym, Hc. done.
Qed.

Lemma isJson_obj_set k x acc :
  isJson (Obj acc) = true -> isJson x = true -> isJson (Obj (obj_set k x acc)) = true.
Proof.
  cbn [isJson]. intros H Hx. apply andb_prop in H as [Hd Hf].
  apply andb_true_intro. split.
  - rewrite obj_set_keys. destruct (existsb _ _) eqn:E; [done|].
    by apply distinct_snoc.
  - clear Hd. induction acc as [|[k' x'] acc IH]; cbn.
    + by rewrite Hx.
    + cbn in Hf. apply andb_prop in Hf as [H1 H2].
      destruct (String.eqb k k'); cbn; [by rewrite Hx, H2|].
      by rewrite H1, IH.
Qed.

Ltac destruct_match_in H :=
  match type of H with
  | context [match ?t with _ => _ end] =>
      lazymatch t with
      | context [match _ with _ => _ end] => fail
      | _ => let E := fresh "E" in destruct t eqn:E
      end
  end.

Lemma parse_isJson fuel :
  (forall s v r, parse_value fuel s = Some (v, r) -> isJson v = true)
  /\ (forall acc s v r, forallb isJson acc = true ->
        parse_elems fuel acc s = Some (v, r) -> isJson v = true)
  /\ (forall acc s v r, isJson (Obj acc) = true ->
        parse_members fuel acc s = Some (v, r) -> isJson v = true).
Proof.
  induction fuel as [|f (IHv & IHe & IHm)]; [by repeat split|].
  repeat split.
  - intros s v r H. cbn [parse_value] in H.
    repeat (destruct_match_in H; try discriminate H); simplify_eq; try done;
      first [by eapply IHm; [|done] | by eapply IHe; [|done]].
  - intros acc s v r Hacc H. cbn [parse_elems] in H.
    repeat (destruct_match_in H; try discriminate H); simplify_eq.
    + eapply IHe; [|done]. rewrite forallb_app, Hacc. cbn. by erewrite IHv.
    + cbn [isJson]. rewrite forallb_app, Hacc. cbn. by erewrite IHv.
  - intros acc s v r Hacc H. cbn [parse_members] in H.
    repeat (destruct_match_in H; try discriminate H); simplify_eq.
    + eapply IHm; [|done]. apply isJson_obj_set; eauto.
    + apply isJson_obj_set; eauto.
Qed.

Lemma JSON_parse_isJson s v : JSON_parse s = Ok v -> isJson v = true.
Proof.
  unfold JSON_parse. intros H.
  destruct (parse_value _ s) as [[v' r]|] eqn:E; [|done].
  destruct (skip_ws r); [|done]. simplify_eq.
  by eapply (proj1 (parse_isJson _)).
Qed.

(** What [JSON_stringify] writes of a value whose numbers are exact is a
    text the model reads as the engine does: the texts the contract
    stores from such values stay among them. *)
Lemma JSON_stringify_readsExactly v :
  isJson v = true -> exactNumbers v = true -> readsExactly (JSON_stringify v) = true.
Proof.
  intros Hj He. unfold readsExactly. by rewrite (JSON_parse_stringify _ Hj).
Qed.

End JsFacts.

(** ** The contract's transactions                                        *)

Module ContractFacts.
Import Js Stub Contract JsFacts.

#[local] Arguments take_string : simpl never.
#[local] Arguments toISOString : simpl never.
#[local] Arguments string_of_Z : simpl never.

(** The world after an accepted [putState]. *)
Definition put (key value : string) (w : World) : World :=
  mkWorld (<[key := value]> (ledger w)) (writes w ++ [(key, value)])
    (clock w) (random w) (tail (faults w)).

(** The first coming [putState] is accepted. *)
Definition accepts (w : World) : Prop :=
  match faults w with
  | Some _ :: _ => False
  | _ => True
  end.

Lemma putState_accepts key value w :
  accepts w -> putState key value w = (Ok tt, put key value w).
Proof. unfold accepts, putState, put. by destruct (faults w) as [|[e|] fs]. Qed.

Lemma putState_rejects key value w e fs :
  faults w = Some e :: fs ->
  putState key value w
  = (Throw e, mkWorld (ledger w) (writes w) (clock w) (random w) fs).
Proof. unfold putState. by intros ->. Qed.

(** [createNotification] never throws, whatever the ledger answers. *)
Lemma createNotification_returns n w : fst (createNotification n w) = Ok tt.
Proof.
  unfold createNotification, try_catch, mbind, M_bind, lift, asKey, putState.
  destruct (getProp n "id") as [[| | | |key| |]|e]; cbn; try done.
  by destruct (faults w) as [|[e|] fs].
Qed.

(** The world after a reading of the clock, and after a draw of the
    random generator. *)
Definition tick (w : World) : World :=
  mkWorld (ledger w) (writes w) (tail (clock w)) (random w) (faults w).
Definition draw (w : World) : World :=
  mkWorld (ledger w) (writes w) (clock w) (tail (random w)) (faults w).

(** The id of the notification a mutation started in [w] writes. *)
Definition notificationId (w : World) : string :=
  "NOTIF_" +:+ string_of_Z (hd 0 (clock w)) +:+ "_" +:+ hd "" (random w).

(** The stored bytes at a key are a product's: the key exists. *)
Definition stored (w : World) (key : string) : bool :=
  negb (String.eqb (default "" (ledger w !! key)) "").

Ltac run :=
  cbv beta iota zeta delta
    [mbind M_bind mret M_ret lift throw productExists getState
     Date_now Math_random_id Date_new_toISOString asKey];
  cbn [ledger writes clock random faults fst snd negb].

Section Mutations.
Variable Date_parse : string -> number.

Local Abbreviation validateProductData := (Contract.validateProductData Date_parse).
Local Abbreviation createProduct := (Contract.createProduct Date_parse).
Local Abbreviation shipProductTo := (Contract.shipProductTo Date_parse).
Local Abbreviation addQualityRecord := (Contract.addQualityRecord Date_parse).
Local Abbreviation isValidDate := (Contract.isValidDate Date_parse).

(** The world [createNotification] leaves: the notification is stored
    unless the ledger rejects the write. *)
Definition notified (n : value) (key : string) (w : World) : World :=
  match faults w with
  | Some e :: fs => mkWorld (ledger w) (writes w) (clock w) (random w) fs
  | _ => put key (JSON_stringify n) w
  end.

Lemma createNotification_run stamp rnd pid ty msg ts loc sev w :
  let n := notification stamp rnd pid ty msg ts loc sev in
  createNotification n w
  = (Ok tt, notified n ("NOTIF_" +:+ string_of_Z stamp +:+ "_" +:+ rnd) w).
Proof.
  destruct w as [l ws c r f].
  unfold createNotification, try_catch, notified, put, putState. run.
  by destruct f as [|[e|] fs].
Qed.

(** [v.k] where it is known not to throw. *)
Definition field (v : value) (k : string) : value :=
  match getProp v k with
  | Ok x => x
  | Throw _ => Undefined
  end.




(** The notification [createProduct] writes for [product] in [w]. *)
Definition createdNotification (product : value) (w : World) : value :=
  notification (hd 0 (clock w)) (hd "" (random w)) (field product "id") "created"
    ("Product " +:+ toString (field product "name") +:+ " created at "
     +:+ toString (field product "placeOfOrigin"))
    (toISOString (hd 0 (tail (clock w)))) (field product "placeOfOrigin") "info".

Lemma createProduct_run productJson w o id :
  JSON_parse productJson = Ok (Obj o) ->
  validateProductData (Obj o) = Ok tt ->
  lookup_prop "id" o = Str id ->
  createProduct productJson w =
  if stored w id then
    (Throw (Error ("The product " +:+ id +:+ " already exists.")), w)
  else
    match faults w with
    | Some e :: fs =>
        (Throw e, mkWorld (ledger w) (writes w) (clock w) (random w) fs)
    | _ =>
        (Ok tt, notified (createdNotification (Obj o) w) (notificationId w)
                  (tick (draw (tick (put id (JSON_stringify (Obj o)) w)))))
    end.
Proof.
  intros Hp Hv Hid. destruct w as [l ws c r f].
  unfold Contract.createProduct, stored. run.
  rewrite Hp, Hv. cbn [getProp]. rewrite Hid. run.
  destruct (String.eqb _ "") eqn:E; cbn [negb]; [|done].
  unfold putState. cbn [faults]. destruct f as [|[e|] fs]; [| done |].
  all: cbn -[JSON_stringify toISOString string_of_Z notification].
  all: rewrite createNotification_run;
    unfold createdNotification, notificationId, tick, draw, put;
    unfold field; cbn [ledger writes clock random faults getProp]; rewrite Hid; done.
Qed.

(** Lines 72 to 77 of [shipProductTo]: the old [current] entry goes to the
    end of [previous], and [current] takes the new location and date. *)
Definition moveTo (product : value) (newLocation arrivalDate : string) : result value :=
  locationData ← getProp product "locationData";
  previous ← getProp locationData "previous";
  current ← getProp locationData "current";
  oldArrivalDate ← getProp current "arrivalDate";
  oldLocation ← getProp current "location";
  previous ← push previous
               (ProductLocationEntry
                  [("arrivalDate", oldArrivalDate); ("location", oldLocation)]);
  current ← setProp current "arrivalDate" (Str arrivalDate);
  current ← setProp current "location" (Str newLocation);
  locationData ← setProp locationData "previous" previous;
  locationData ← setProp locationData "current" current;
  setProp product "locationData" locationData.

Definition shippedNotification (product : value) (productId newLocation : string)
    (w : World) : value :=
  notification (hd 0 (clock w)) (hd "" (random w)) (Str productId) "shipped"
    ("Product " +:+ toString (field product "name") +:+ " shipped to " +:+ newLocation)
    (toISOString (hd 0 (tail (clock w)))) (Str newLocation) "info".

Lemma shipProductTo_run productId newLocation arrivalDate w product product' :
  stored w productId = true ->
  requireField (Str newLocation) "newLocation" = Ok tt ->
  requireField (Str arrivalDate) "arrivalDate" = Ok tt ->
  isValidDate (Str arrivalDate) = Ok true ->
  JSON_parse (default "" (ledger w !! productId)) = Ok product ->
  moveTo product newLocation arrivalDate = Ok product' ->
  shipProductTo productId newLocation arrivalDate w =
  match faults w with
  | Some e :: fs =>
      (Throw e, mkWorld (ledger w) (writes w) (clock w) (random w) fs)
  | _ =>
      let n := shippedNotification product' productId newLocation w in
      (Ok tt, notified n (notificationId w)
                (tick (draw (tick (put productId (JSON_stringify product') w)))))
  end.
Proof.
  intros Hs HL HT Hd Hp Hm. destruct w as [l ws c r f].
  unfold Contract.shipProductTo, readProduct, stored, moveTo in *. run.
  cbn [ledger] in Hs, Hp. rewrite Hs. run. rewrite HL, HT, Hd. run.
  apply negb_true_iff in Hs. rewrite Hs, Hp.
  destruct (getProp product "locationData") as [ld|]; [|done]. cbn in Hm |- *.
  destruct (getProp ld "previous") as [pr|]; [|done]. cbn in Hm |- *.
  destruct (getProp ld "current") as [cu|]; [|done]. cbn in Hm |- *.
  destruct (getProp cu "arrivalDate") as [oa|]; [|done]. cbn in Hm |- *.
  destruct (getProp cu "location") as [ol|]; [|done]. cbn in Hm |- *.
  destruct (push pr _) as [pr'|]; [|done]. cbn in Hm |- *.
  destruct (setProp cu "arrivalDate" _) as [cu1|]; [|done]. cbn in Hm |- *.
  destruct (setProp cu1 "location" _) as [cu2|]; [|done]. cbn in Hm |- *.
  destruct (setProp ld "previous" _) as [ld1|]; [|done]. cbn in Hm |- *.
  destruct (setProp ld1 "current" _) as [ld2|]; [|done]. cbn in Hm |- *.
  rewrite Hm. unfold putState. cbn [faults].
  assert (En : exists nm, getProp product' "name" = Ok nm).
  { destruct product; cbn in Hm; simplify_eq; cbn; eauto. }
  destruct En as [nm En].
  destruct f as [|[e|] fs]; [| done |].
  all: cbn -[JSON_stringify toISOString string_of_Z notification]; rewrite En.
  all: cbn -[JSON_stringify toISOString string_of_Z notification].
  all: rewrite createNotification_run;
    unfold shippedNotification, notificationId, tick, draw, put, field;
    cbn [ledger writes clock random faults]; try rewrite En; try done.
Qed.

(** The key [addQualityRecord] started in [w] writes the record under. *)
Definition qualityKey (productId : string) (w : World) : string :=
  "QUALITY_" +:+ productId +:+ "_" +:+ string_of_Z (hd 0 (clock w)).

Definition severityOf (score : value) : string :=
  if num_ge (toNumber score) (Some 80) then "info"
  else if num_ge (toNumber score) (Some 60) then "warning" else "error".

(** The notification [addQualityRecord] writes; [w] is the world after the
    record itself was written. *)
Definition qualityNotification (qualityRecord : value) (productId : string)
    (w : World) : value :=
  notification (hd 0 (clock w)) (hd "" (random w)) (Str productId) "quality_check"
    ("Quality inspection completed for " +:+ productId +:+ ". Score: "
     +:+ toString (field qualityRecord "score") +:+ "/100")
    (toISOString (hd 0 (tail (clock w)))) (field qualityRecord "location")
    (severityOf (field qualityRecord "score")).

Lemma addQualityRecord_run productId qualityData w o :
  stored w productId = true ->
  JSON_parse qualityData = Ok (Obj o) ->
  validateQualityRecord Date_parse (Obj o) = Ok tt ->
  addQualityRecord productId qualityData w =
  match faults w with
  | Some e :: fs =>
      (Throw e, mkWorld (ledger w) (writes w) (tail (clock w)) (random w) fs)
  | _ =>
      let w1 := put (qualityKey productId w) (JSON_stringify (Obj o)) (tick w) in
      (Ok tt, notified (qualityNotification (Obj o) productId w1) (notificationId w1)
                (tick (draw (tick w1))))
  end.
Proof.
  intros Hs Hp Hv. destruct w as [l ws c r f].
  unfold Contract.addQualityRecord, stored in *. run.
  cbn [ledger] in Hs. rewrite Hs. run. rewrite Hp, Hv. run.
  unfold putState. cbn [faults]. destruct f as [|[e|] fs]; [| done |].
  all: cbn -[JSON_stringify toISOString string_of_Z notification].
  all: rewrite createNotification_run;
    unfold qualityNotification, notificationId, qualityKey, tick, draw, put, severityOf, field;
    cbn [ledger writes clock random faults getProp]; done.
Qed.

(* ------------------------------------------------------------------- *)

(** C7. A failure of the notification write is caught and discarded: when
    the write of the product or quality record itself was accepted, the
    operation returns normally and that write stays in the ledger, also
    when the ledger rejects the notification with an exception.  Stated
    for the three mutations, each started in a world whose first
    [putState] is accepted and whose second one throws [e]. *)
Theorem notification_failure_is_discarded
    (w : World) (e : exn) (fs : list (option exn)) :
  faults w = None :: Some e :: fs ->
  (forall productJson o id,
     JSON_parse productJson = Ok (Obj o) ->
     validateProductData (Obj o) = Ok tt ->
     lookup_prop "id" o = Str id ->
     stored w id = false ->
     exists w',
       createProduct productJson w = (Ok tt, w')
       /\ ledger w' = <[id := JSON_stringify (Obj o)]> (ledger w)
       /\ writes w' = writes w ++ [(id, JSON_stringify (Obj o))])
  /\ (forall productId newLocation arrivalDate product product',
       stored w productId = true ->
       requireField (Str newLocation) "newLocation" = Ok tt ->
       requireField (Str arrivalDate) "arrivalDate" = Ok tt ->
       isValidDate (Str arrivalDate) = Ok true ->
       JSON_parse (default "" (ledger w !! productId)) = Ok product ->
       moveTo product newLocation arrivalDate = Ok product' ->
       exists w',
         shipProductTo productId newLocation arrivalDate w = (Ok tt, w')
         /\ ledger w' = <[productId := JSON_stringify product']> (ledger w)
         /\ writes w' = writes w ++ [(productId, JSON_stringify product')])
  /\ (forall productId qualityData o,
       stored w productId = true ->
       JSON_parse qualityData = Ok (Obj o) ->
       validateQualityRecord Date_parse (Obj o) = Ok tt ->
       exists w',
         addQualityRecord productId qualityData w = (Ok tt, w')
         /\ ledger w' = <[qualityKey productId w := JSON_stringify (Obj o)]> (ledger w)
         /\ writes w' = writes w ++ [(qualityKey productId w, JSON_stringify (Obj o))]).
Proof.
  intros Hf. repeat split.
  - intros productJson o id Hp Hv Hid Hs.
    rewrite (createProduct_run _ _ _ _ Hp Hv Hid), Hs, Hf.
    eexists. split; [reflexivity|].
    unfold notified, tick, draw, put. cbn. rewrite Hf. cbn. done.
  - intros productId newLocation arrivalDate product product' Hs HL HT Hd Hp Hm.
    rewrite (shipProductTo_run _ _ _ _ _ _ Hs HL HT Hd Hp Hm), Hf.
    eexists. split; [reflexivity|].
    unfold notified, tick, draw, put. cbn. rewrite Hf. cbn. done.
  - intros productId qualityData o Hs Hp Hv.
    rewrite (addQualityRecord_run _ _ _ _ Hs Hp Hv), Hf.
    eexists. split; [reflexivity|].
    unfold notified, tick, draw, put. cbn. rewrite Hf. cbn. done.
Qed.

Lemma stringify_not_empty v : String.eqb (JSON_stringify v) "" = false.
Proof.
  unfold JSON_stringify. destruct (stringify_head v) as (c & s & -> & _). done.
Qed.

Lemma stored_put_eq key bytes w :
  String.eqb bytes "" = false -> stored (put key bytes w) key = true.
Proof. intros H. unfold stored, put. cbn. by rewrite lookup_insert_eq; cbn; rewrite H. Qed.

Lemma getProduct_stored productId w product :
  ledger w !! productId = Some (JSON_stringify product) ->
  isJson product = true ->
  getProduct productId w = (Ok product, w).
Proof.
  intros Hl Hj. unfold getProduct, readProduct. run. rewrite Hl.
  cbn [default from_option id]. rewrite stringify_not_empty. run.
  rewrite Hl. cbn [default from_option id]. rewrite stringify_not_empty.
  by rewrite JSON_parse_stringify.
Qed.

Lemma ledger_notified_ne n nid w key :
  nid <> key -> ledger (notified n nid w) !! key = ledger w !! key.
Proof.
  intros Hne. unfold notified, put. destruct (faults w) as [|[e|] fs]; cbn; try done.
  all: by rewrite lookup_insert_ne.
Qed.

(** C3 as the code has it.  [createProduct] validates first and looks
    for the id afterwards: a payload that passes validation and whose id
    is stored fails with the already-exists error; a payload that fails
    validation fails with the validation error, whether or not its id is
    stored.  The failed call leaves the world as it was. *)
Theorem createProduct_existing_id (w : World) (productJson : string) (product : value) :
  JSON_parse productJson = Ok product ->
  (forall id,
     validateProductData product = Ok tt ->
     getProp product "id" = Ok (Str id) ->
     stored w id = true ->
     createProduct productJson w
     = (Throw (Error ("The product " +:+ id +:+ " already exists.")), w))
  /\ (forall e,
       validateProductData product = Throw e ->
       createProduct productJson w = (Throw e, w)).
Proof.
  intros Hp. split.
  - intros id Hv Hid Hs. destruct product as [| | | | | |o]; try done.
    cbn in Hid. injection Hid as Hid.
    by rewrite (createProduct_run _ _ _ _ Hp Hv Hid), Hs.
  - intros e Hv. unfold Contract.createProduct. run. by rewrite Hp, Hv.
Qed.






Ltac split_on_code :=
  repeat first
    [ progress run
    | match goal with
      | |- context [match ?x with _ => _ end] =>
          lazymatch x with
          | context [match _ with _ => _ end] => fail
          | _ => destruct x eqn:?
          end
      end ].


(** Everything [shipProductTo] decides before it writes: the checks of
    its arguments and the new record. *)
Definition shipPlan (w : World) (productId newLocation arrivalDate : string)
  : result value :=
  if negb (stored w productId) then
    Throw (Error ("The product " +:+ productId +:+ " does not exist."))
  else
    requireField (Str newLocation) "newLocation";;
    requireField (Str arrivalDate) "arrivalDate";;
    ok ← isValidDate (Str arrivalDate);
    if negb ok then Throw (Error "Invalid arrival date format. Use ISO 8601 format.")
    else
      product ← JSON_parse (default "" (ledger w !! productId));
      moveTo product newLocation arrivalDate.

Lemma shipProductTo_plan productId newLocation arrivalDate w :
  shipProductTo productId newLocation arrivalDate w =
  match shipPlan w productId newLocation arrivalDate with
  | Throw e => (Throw e, w)
  | Ok product' =>
      match faults w with
      | Some e :: fs =>
          (Throw e, mkWorld (ledger w) (writes w) (clock w) (random w) fs)
      | _ =>
          let n := shippedNotification product' productId newLocation w in
          (Ok tt, notified n (notificationId w)
                    (tick (draw (tick (put productId (JSON_stringify product') w)))))
      end
  end.
Proof.
  unfold shipPlan.
  destruct (stored w productId) eqn:Hs; cbn [negb].
  2: { unfold Contract.shipProductTo, stored in *. run. by rewrite Hs. }
  destruct (requireField (Str newLocation) "newLocation") as [[]|e] eqn:HL.
  2: { unfold Contract.shipProductTo, stored in *. run. rewrite Hs. run.
       by rewrite HL. }
  destruct (requireField (Str arrivalDate) "arrivalDate") as [[]|e] eqn:HT.
  2: { unfold Contract.shipProductTo, stored in *. run. rewrite Hs. run.
       rewrite HL. run. by rewrite HT. }
  destruct (isValidDate (Str arrivalDate)) as [[]|e] eqn:Hd.
  2,3: unfold Contract.shipProductTo, stored in *; run; rewrite Hs; run;
       rewrite HL; run; rewrite HT; run; by rewrite Hd.
  destruct (JSON_parse (default "" (ledger w !! productId))) as [product|e] eqn:Hp.
  2: { unfold Contract.shipProductTo, readProduct, stored in *. run. rewrite Hs. run.
       rewrite HL. run. rewrite HT. run. rewrite Hd. run.
       apply negb_true_iff in Hs. by rewrite Hs, Hp. }
  destruct (moveTo product newLocation arrivalDate) as [product'|e] eqn:Hm.
  { cbn [mbind result_bind negb]. rewrite Hm. by eapply shipProductTo_run. }
  cbn [mbind result_bind negb]. rewrite Hm.
  unfold Contract.shipProductTo, readProduct, stored, moveTo in *. run. rewrite Hs. run.
  rewrite HL. run. rewrite HT. run. rewrite Hd. run.
  apply negb_true_iff in Hs. rewrite Hs, Hp.
  repeat match type of Hm with
         | mbind _ ?x = _ =>
             destruct x; cbn [mbind result_bind] in Hm |- *;
             [|by simplify_eq]
         end.
  by rewrite Hm.
Qed.

(** Everything [createProduct] decides before it writes. *)
Definition createPlan (w : World) (productJson : string) : result (string * value) :=
  product ← JSON_parse productJson;
  validateProductData product;;
  id ← getProp product "id";
  match id with
  | Str key =>
      if stored w key then
        Throw (Error ("The product " +:+ key +:+ " already exists."))
      else Ok (key, product)
  | _ => Throw TypeError
  end.

Lemma createProduct_plan productJson w :
  createProduct productJson w =
  match createPlan w productJson with
  | Throw e => (Throw e, w)
  | Ok (key, product) =>
      match faults w with
      | Some e :: fs =>
          (Throw e, mkWorld (ledger w) (writes w) (clock w) (random w) fs)
      | _ =>
          (Ok tt, notified (createdNotification product w) (notificationId w)
                    (tick (draw (tick (put key (JSON_stringify product) w)))))
      end
  end.
Proof.
  unfold createPlan.
  destruct (JSON_parse productJson) as [product|e] eqn:Hp; cbn [mbind result_bind].
  2: { unfold Contract.createProduct. run. by rewrite Hp. }
  destruct (validateProductData product) as [[]|e] eqn:Hv; cbn [mbind result_bind].
  2: { unfold Contract.createProduct. run. by rewrite Hp, Hv. }
  destruct (getProp product "id") as [id|e] eqn:Hid; cbn [mbind result_bind].
  2: { unfold Contract.createProduct. run. by rewrite Hp, Hv, Hid. }
  destruct id as [| | | |key| |];
    try (unfold Contract.createProduct; run; by rewrite Hp, Hv, Hid).
  destruct product as [| | | | | |o]; try done. cbn in Hid. injection Hid as Hid.
  rewrite (createProduct_run _ _ _ _ Hp Hv Hid). by destruct (stored w key).
Qed.

Lemma validateQualityRecord_Obj q :
  validateQualityRecord Date_parse q = Ok tt -> exists o, q = Obj o.
Proof.
  unfold validateQualityRecord.
  destruct q as [| |b|n|s|l|o]; cbn; try done; eauto.
  all: by destruct (String.eqb _ _).
Qed.

(** Everything [addQualityRecord] decides before it writes. *)
Definition qualityPlan (w : World) (productId qualityData : string) : result value :=
  if negb (stored w productId) then
    Throw (Error ("The product " +:+ productId +:+ " does not exist."))
  else
    qualityRecord ← JSON_parse qualityData;
    validateQualityRecord Date_parse qualityRecord;;
    Ok qualityRecord.

Lemma addQualityRecord_plan productId qualityData w :
  addQualityRecord productId qualityData w =
  match qualityPlan w productId qualityData with
  | Throw e => (Throw e, w)
  | Ok qualityRecord =>
      match faults w with
      | Some e :: fs =>
          (Throw e, mkWorld (ledger w) (writes w) (tail (clock w)) (random w) fs)
      | _ =>
          let w1 := put (qualityKey productId w) (JSON_stringify qualityRecord) (tick w) in
          (Ok tt, notified (qualityNotification qualityRecord productId w1)
                    (notificationId w1) (tick (draw (tick w1))))
      end
  end.
Proof.
  unfold qualityPlan.
  destruct (stored w productId) eqn:Hs; cbn [negb].
  2: { unfold Contract.addQualityRecord, stored in *. run. by rewrite Hs. }
  destruct (JSON_parse qualityData) as [q|e] eqn:Hp; cbn [mbind result_bind].
  2: { unfold Contract.addQualityRecord, stored in *. run. rewrite Hs. run.
       by rewrite Hp. }
  destruct (validateQualityRecord Date_parse q) as [[]|e] eqn:Hv; cbn [mbind result_bind].
  2: { unfold Contract.addQualityRecord, stored in *. run. rewrite Hs. run.
       by rewrite Hp, Hv. }
  destruct (validateQualityRecord_Obj q Hv) as [o ->].
  by apply addQualityRecord_run.
Qed.








Lemma includes_T_cons c s :
  str_includes "T" (String c s) = ascii_eqb "T" c || str_includes "T" s.
Proof. cbn [str_includes startsWith]. by rewrite andb_true_r. Qed.

Lemma is_T c : ascii_eqb "T" c = true -> N_of_ascii c = 84%N.
Proof. intros H. apply Ascii.eqb_eq in H. by subst c. Qed.

Lemma isWhiteSpace_not_T c : isWhiteSpace c = true -> ascii_eqb "T" c = false.
Proof.
  intros H. destruct (ascii_eqb "T" c) eqn:E; [|done].
  apply Ascii.eqb_eq in E. by subst c.
Qed.

Lemma isWhiteSpace2_not_T c d :
  isWhiteSpace2 c d = true -> ascii_eqb "T" c = false /\ ascii_eqb "T" d = false.
Proof.
  unfold isWhiteSpace2. intros H. apply andb_prop in H as [Hc Hd].
  apply N.eqb_eq in Hc, Hd.
  split; [destruct (ascii_eqb "T" c) eqn:E | destruct (ascii_eqb "T" d) eqn:E];
    try done; apply is_T in E; congruence.
Qed.

Lemma isWhiteSpace3_not_T c d e :
  isWhiteSpace3 c d e = true ->
  ascii_eqb "T" c = false /\ ascii_eqb "T" d = false /\ ascii_eqb "T" e = false.
Proof.
  unfold isWhiteSpace3. intros H.
  repeat split;
    match goal with
    | |- ascii_eqb "T" ?x = false =>
        destruct (ascii_eqb "T" x) eqn:E; [|done]; apply is_T in E; rewrite E in H
    end; cbn in H.
  all: rewrite ?andb_false_r in H; cbn in H; try done.
  all: repeat match type of H with
         | context [(N_of_ascii ?x =? ?k)%N] =>
             destruct (N.eqb_spec (N_of_ascii x) k); cbn in H
         | context [(?k <=? N_of_ascii ?x)%N] =>
             destruct (N.leb_spec k (N_of_ascii x)); cbn in H
         | context [(N_of_ascii ?x <=? ?k)%N] =>
             destruct (N.leb_spec (N_of_ascii x) k); cbn in H
         end; try done.
Qed.

Lemma includes_T_trimStart_bounded n s :
  (String.length s <= n)%nat ->
  str_includes "T" s = true -> str_includes "T" (trimStart s) = true.
Proof.
  revert s. induction n as [|n IH]; intros s Hlen.
  { destruct s; [done|cbn in Hlen; lia]. }
  destruct s as [|c s1]; [done|]. cbn [String.length] in Hlen.
  cbn [trimStart]. destruct (isWhiteSpace c) eqn:Hw.
  { rewrite includes_T_cons, (isWhiteSpace_not_T _ Hw). cbn. apply IH. lia. }
  destruct s1 as [|d s2]; [done|]. cbn [String.length] in Hlen.
  destruct (isWhiteSpace2 c d) eqn:Hw2.
  { destruct (isWhiteSpace2_not_T _ _ Hw2) as [Hc Hd].
    rewrite !includes_T_cons, Hc, Hd. cbn. apply IH. lia. }
  destruct s2 as [|e s3]; [done|]. cbn [String.length] in Hlen.
  destruct (isWhiteSpace3 c d e) eqn:Hw3; [|done].
  destruct (isWhiteSpace3_not_T _ _ _ Hw3) as (Hc & Hd & He).
  rewrite !includes_T_cons, Hc, Hd, He. cbn. apply IH. lia.
Qed.

(** A string that includes a [T] is not blank. *)
Lemma includes_T_trim s : str_includes "T" s = true -> String.eqb (trim s) "" = false.
Proof.
  intros H. apply (includes_T_trimStart_bounded _ s (le_n _)) in H.
  unfold trim. destruct (trimStart s) as [|c t] eqn:E; [done|].
  cbn [trimEnd]. unfold isBlank.
  pose proof (includes_T_trimStart_bounded _ (String c t) (le_n _) H) as H'.
  by destruct (trimStart (String c t)).
Qed.

Lemma isValidDate_requireField s fieldName :
  isValidDate (Str s) = Ok true -> requireField (Str s) fieldName = Ok tt.
Proof.
  unfold Contract.isValidDate, requireField. destruct (newDate _ _); [|done].
  cbn. intros [= H]. by rewrite (includes_T_trim _ H).
Qed.

Lemma lookup_obj_set_eq k x o : lookup_prop k (obj_set k x o) = x.
Proof.
  unfold lookup_prop. induction o as [|[k' x'] o IH]; cbn.
  - by rewrite String.eqb_refl.
  - destruct (String.eqb_spec k k') as [->|Hne]; cbn.
    + by rewrite String.eqb_refl.
    + apply String.eqb_neq in Hne. by rewrite Hne.
Qed.

Lemma lookup_obj_set_ne k k' x o :
  k <> k' -> lookup_prop k (obj_set k' x o) = lookup_prop k o.
Proof.
  intros Hne. unfold lookup_prop. induction o as [|[k2 x2] o IH]; cbn.
  - apply String.eqb_neq in Hne. by rewrite Hne.
  - destruct (String.eqb_spec k' k2) as [->|Hne2]; cbn.
    + apply String.eqb_neq in Hne. by rewrite Hne.
    + destruct (String.eqb k k2); [done|]. apply IH.
Qed.

Lemma isJson_lookup k o :
  isJson (Obj o) = true -> lookup_prop k o <> Undefined ->
  isJson (lookup_prop k o) = true.
Proof.
  cbn [isJson]. intros H Hne. apply andb_prop in H as [_ H].
  unfold lookup_prop in *. induction o as [|[k' x'] o IH]; cbn in *; [done|].
  apply andb_prop in H as [H1 H2]. destruct (String.eqb k k'); cbn in *; [done|].
  by apply IH.
Qed.

Lemma isJson_lookup_Obj k o x :
  isJson (Obj o) = true -> lookup_prop k o = x -> x <> Undefined -> isJson x = true.
Proof. intros H <- Hne. by apply isJson_lookup. Qed.

(** The record [moveTo] builds from a well-formed product. *)
Lemma moveTo_product o ld prev cur newLocation arrivalDate :
  lookup_prop "locationData" o = Obj ld ->
  lookup_prop "previous" ld = Arr prev ->
  lookup_prop "current" ld = Obj cur ->
  moveTo (Obj o) newLocation arrivalDate
  = Ok (Obj (obj_set "locationData"
               (Obj (obj_set "current"
                       (Obj (obj_set "location" (Str newLocation)
                               (obj_set "arrivalDate" (Str arrivalDate) cur)))
                       (obj_set "previous"
                          (Arr (prev ++
                                [ProductLocationEntry
                                   [("arrivalDate", lookup_prop "arrivalDate" cur);
                                    ("location", lookup_prop "location" cur)]]))
                          ld)))
               o)).
Proof.
  intros Hld Hprev Hcur. unfold moveTo. cbn [getProp mbind result_bind].
  rewrite Hld. cbn [getProp mbind result_bind]. rewrite Hprev, Hcur. done.
Qed.

Lemma JSON_parse_stored w key v :
  JSON_parse (default "" (ledger w !! key)) = Ok v -> stored w key = true.
Proof. unfold stored. by destruct (default "" (ledger w !! key)). Qed.

(** C2 as the code has it.  For a stored product record (an object whose
    [locationData] holds a [previous] array and a [current] entry with
    both fields), a location that is not blank, a date [isValidDate]
    accepts, a ledger that accepts the write, and a product id other than
    the id of the notification the call generates: after [shipProductTo]
    the stored product has the new location and date in [current], its
    [previous] is the old one with one more element at the end, the entry
    made of the old [current]'s date and location, and nothing else in
    the record has changed. *)
Theorem shipProductTo_appends_history
    (w : World) (productId newLocation arrivalDate : string)
    (o ld cur : list (string * value)) (prev : list value) :
  JSON_parse (default "" (ledger w !! productId)) = Ok (Obj o) ->
  lookup_prop "locationData" o = Obj ld ->
  lookup_prop "previous" ld = Arr prev ->
  lookup_prop "current" ld = Obj cur ->
  lookup_prop "arrivalDate" cur <> Undefined ->
  lookup_prop "location" cur <> Undefined ->
  String.eqb (trim newLocation) "" = false ->
  isValidDate (Str arrivalDate) = Ok true ->
  accepts w ->
  notificationId w <> productId ->
  exists w' product',
    shipProductTo productId newLocation arrivalDate w = (Ok tt, w')
    /\ getProduct productId w' = (Ok product', w')
    /\ field (field (field product' "locationData") "current") "location"
       = Str newLocation
    /\ field (field (field product' "locationData") "current") "arrivalDate"
       = Str arrivalDate
    /\ (forall k, k <> "location" -> k <> "arrivalDate" ->
        field (field (field product' "locationData") "current") k = lookup_prop k cur)
    /\ field (field product' "locationData") "previous"
       = Arr (prev ++ [ProductLocationEntry
                         [("arrivalDate", lookup_prop "arrivalDate" cur);
                          ("location", lookup_prop "location" cur)]])
    /\ (forall k, k <> "previous" -> k <> "current" ->
        field (field product' "locationData") k = lookup_prop k ld)
    /\ (forall k, k <> "locationData" -> field product' k = lookup_prop k o).
Proof.
  intros Hp Hld Hprev Hcur Ha Hl HL Hd Hacc Hne.
  pose proof (moveTo_product o ld prev cur newLocation arrivalDate Hld Hprev Hcur) as Hm.
  assert (HrL : requireField (Str newLocation) "newLocation" = Ok tt).
  { unfold requireField. by rewrite HL. }
  pose proof (isValidDate_requireField _ "arrivalDate" Hd) as HrT.
  pose proof (shipProductTo_run _ _ _ _ _ _ (JSON_parse_stored _ _ _ Hp) HrL HrT Hd Hp Hm)
    as Hrun.
  assert (Hj : isJson (Obj o) = true) by (by eapply JSON_parse_isJson).
  assert (Hjld : isJson (Obj ld) = true).
  { by eapply isJson_lookup_Obj. }
  assert (Hjprev : isJson (Arr prev) = true).
  { by eapply (isJson_lookup_Obj "previous" ld). }
  assert (Hjcur : isJson (Obj cur) = true).
  { by eapply (isJson_lookup_Obj "current" ld). }
  match type of Hm with _ = Ok ?p => set (product' := p) in * end.
  assert (Hj' : isJson product' = true).
  { subst product'. apply isJson_obj_set; [done|].
    apply isJson_obj_set.
    - apply isJson_obj_set; [done|]. cbn [isJson] in Hjprev |- *.
      rewrite forallb_app, Hjprev. cbn.
      rewrite (isJson_lookup _ _ Hjcur Ha), (isJson_lookup _ _ Hjcur Hl). done.
    - by do 2 (apply isJson_obj_set; [|done]). }
  unfold accepts in Hacc.
  exists (snd (shipProductTo productId newLocation arrivalDate w)), product'.
  split; [|split].
  { rewrite Hrun. by destruct (faults w) as [|[e|] fs]. }
  { apply getProduct_stored; [|done]. rewrite Hrun.
    destruct (faults w) as [|[e|] fs]; try done.
    all: cbn [snd]; rewrite ledger_notified_ne by done; cbn; apply lookup_insert_eq. }
  subst product'. unfold field. cbn [getProp].
  rewrite !lookup_obj_set_eq. cbn [getProp]. rewrite !lookup_obj_set_eq. cbn [getProp].
  rewrite lookup_obj_set_eq.
  rewrite (lookup_obj_set_ne "arrivalDate" "location") by done.
  rewrite lookup_obj_set_eq.
  rewrite (lookup_obj_set_ne "previous" "current") by done.
  rewrite lookup_obj_set_eq.
  repeat split; try done.
  - intros k H1 H2. by rewrite !lookup_obj_set_ne.
  - intros k H1 H2. by rewrite !lookup_obj_set_ne.
  - intros k H1. by rewrite lookup_obj_set_ne.
Qed.

(** C10. For a quality record whose other required fields are present
    and valid, added for a stored product: [addQualityRecord] rejects it
    with the score error when the score is below 0 or above 100 and leaves
    the world as it was; it accepts every score from 0 to 100, the two
    bounds included, and stores the record. *)
Theorem addQualityRecord_score_range
    (w : World) (productId qualityData : string) (o : list (string * value)) (score : Z) :
  stored w productId = true ->
  JSON_parse qualityData = Ok (Obj o) ->
  requireField (lookup_prop "inspector" o) "inspector" = Ok tt ->
  lookup_prop "score" o = Num score ->
  requireField (lookup_prop "notes" o) "notes" = Ok tt ->
  requireField (lookup_prop "timestamp" o) "timestamp" = Ok tt ->
  isValidDate (lookup_prop "timestamp" o) = Ok true ->
  ((score < 0 \/ 100 < score) ->
     addQualityRecord productId qualityData w
     = (Throw (Error "Quality score must be between 0 and 100."), w))
  /\ (0 <= score <= 100 -> accepts w ->
      exists w',
        addQualityRecord productId qualityData w = (Ok tt, w')
        /\ ledger w' !! qualityKey productId w = Some (JSON_stringify (Obj o))).
Proof.
  intros Hs Hp Hi Hsc Hn Ht Hd.
  assert (Hv : validateQualityRecord Date_parse (Obj o)
               = if (score <? 0) || (100 <? score)
                 then Throw (Error "Quality score must be between 0 and 100.")
                 else Ok tt).
  { unfold validateQualityRecord. cbn [getProp mbind result_bind].
    rewrite Hi, Hsc, Hn, Ht. cbn [requireField mbind result_bind toNumber num_lt num_gt].
    destruct ((score <? 0) || (100 <? score)); [done|].
    cbn [mbind result_bind]. by rewrite Hd. }
  split.
  - intros Hr. rewrite addQualityRecord_plan. unfold qualityPlan.
    rewrite Hs, Hp. cbn [negb mbind result_bind]. rewrite Hv.
    assert ((score <? 0) || (100 <? score) = true) as ->; [|done].
    apply orb_true_iff. destruct Hr; [left|right]; lia.
  - intros Hr Hacc.
    assert ((score <? 0) || (100 <? score) = false) as E.
    { apply orb_false_iff. split; lia. }
    rewrite E in Hv. rewrite (addQualityRecord_run _ _ _ _ Hs Hp Hv).
    unfold accepts in Hacc. destruct (faults w) as [|[e|] fs] eqn:Ef; [|done|].
    all: eexists; split; [reflexivity|].
    all: rewrite ledger_notified_ne; [cbn; apply lookup_insert_eq|].
    all: unfold notificationId, qualityKey; intros [=].
Qed.

End Mutations.

(** *** Queries *)

Lemma elem_of_entries (m : gmap string string) key bytes :
  (key, bytes) ∈ entries m <-> m !! key = Some bytes.
Proof.
  unfold entries. rewrite merge_sort_Permutation. apply elem_of_map_to_list.
Qed.

(** The selector of [queryAllProducts]. *)
Definition allProductsQuery : string :=
  "{" +:+ q "selector" +:+ ":{" +:+ q "id" +:+ ":{" +:+ q "$exists" +:+ ":true}}}".

Definition allQualityQuery : string :=
  "{" +:+ q "selector" +:+ ":{" +:+ q "inspector" +:+ ":{" +:+ q "$exists" +:+ ":true}}}".

Lemma selector_allProducts :
  selector_of allProductsQuery = Some [("id", Obj [("$exists", Bool true)])].
Proof. vm_compute. reflexivity. Qed.

Lemma selector_allQuality :
  selector_of allQualityQuery = Some [("inspector", Obj [("$exists", Bool true)])].
Proof. vm_compute. reflexivity. Qed.

(** A stored value is selected by the query on [id] exactly when it is a
    document with a property [id]. *)
Definition hasField (name : string) (bytes : string) : bool :=
  match document bytes with
  | Some doc => bool_decide (is_Some (at_path [name] doc))
  | None => false
  end.

Lemma queryAllProducts_run w :
  queryAllProducts w
  = (Ok (parseAll (List.filter (fun kv => hasField "id" (snd kv)) (entries (ledger w)))), w).
Proof.
  unfold queryAllProducts, executeQuery, getQueryResult.
  change (_ +:+ _) with allProductsQuery. rewrite selector_allProducts.
  cbv [mbind M_bind mret M_ret]. do 3 f_equal.
  apply List.filter_ext. intros [k b]. unfold hasField. cbn [snd].
  destruct (document b) as [doc|]; [|done]. cbn.
  by destruct (bool_decide _).
Qed.

Lemma getAllQualityRecords_run w :
  getAllQualityRecords w
  = (Ok (parseAll (List.filter (fun kv => hasField "inspector" (snd kv)) (entries (ledger w)))), w).
Proof.
  unfold getAllQualityRecords, getQueryResult.
  change (_ +:+ _) with allQualityQuery. rewrite selector_allQuality.
  cbv [mbind M_bind mret M_ret]. do 3 f_equal.
  apply List.filter_ext. intros [k b]. unfold hasField. cbn [snd].
  destruct (document b) as [doc|]; [|done]. cbn.
  by destruct (bool_decide _).
Qed.

Lemma filter_nil_iff {A} (f : A -> bool) l :
  (forall x, x ∈ l -> f x = false) -> List.filter f l = [].
Proof.
  induction l as [|x l IH]; [done|]. intros H. cbn.
  rewrite (H x) by left. apply IH. intros y Hy. apply H. by right.
Qed.

(** *** Notifications as stored documents *)

Definition isUndefined (v : value) : bool :=
  match v with Undefined => true | _ => false end.

(** The properties [JSON.stringify] writes. *)
Definition defined (o : list (string * value)) : list (string * value) :=
  List.filter (fun kv => negb (isUndefined (snd kv))) o.

Lemma stringify_members_defined first o :
  stringify_members first o = stringify_members first (defined o).
Proof.
  revert first. induction o as [|[k x] o IH]; intros first; [done|].
  destruct x; cbn [defined List.filter snd isUndefined negb stringify_members];
    try apply IH; by rewrite (IH false).
Qed.

Lemma stringify_defined o : JSON_stringify (Obj o) = JSON_stringify (Obj (defined o)).
Proof.
  unfold JSON_stringify. by rewrite !stringify_Obj, <- stringify_members_defined.
Qed.

(** A value that is [undefined] or that [JSON.parse] can return. *)
Definition jsonOrUndefined (v : value) : Prop := v = Undefined \/ isJson v = true.

Lemma jsonOrUndefined_field v k : isJson v = true -> jsonOrUndefined (field v k).
Proof.
  intros Hj. unfold field, jsonOrUndefined.
  destruct v as [| |b|n|s|l|o]; cbn; try by left.
  - destruct (String.eqb k "length"); [by right|by left].
  - destruct (String.eqb k "length"); [by right|by left].
  - destruct (lookup_prop k o) eqn:E; try by left.
    all: right; rewrite <- E; apply isJson_lookup; [done|by rewrite E].
Qed.

(** What reads back from a stored notification. *)
Lemma notification_stored stamp rnd pid ty msg ts loc sev :
  jsonOrUndefined pid -> jsonOrUndefined loc ->
  let n := notification stamp rnd pid ty msg ts loc sev in
  exists doc,
    JSON_parse (JSON_stringify n) = Ok doc
    /\ hasField "id" (JSON_stringify n) = true
    /\ field doc "id" = Str ("NOTIF_" +:+ string_of_Z stamp +:+ "_" +:+ rnd)
    /\ field doc "type" = Str ty
    /\ field doc "locationData" = Undefined.
Proof.
  intros Hpid Hloc n. subst n. unfold notification.
  rewrite stringify_defined.
  match goal with |- context [Obj (defined ?o)] => set (fields := defined o) end.
  assert (Hj : isJson (Obj fields) = true).
  { subst fields.
    destruct Hpid as [->|Hp], Hloc as [->|Hl].
    - reflexivity.
    - destruct loc; try done; cbn in Hl |- *; by rewrite ?Hl.
    - destruct pid; try done; cbn in Hp |- *; by rewrite ?Hp.
    - destruct pid; try done; destruct loc; try done; cbn in Hp, Hl |- *;
        by rewrite ?Hp, ?Hl. }
  exists (Obj fields). unfold hasField, document.
  rewrite (JSON_parse_stringify _ Hj).
  subst fields. destruct pid, loc; cbn; done.
Qed.

Lemma elem_of_parseAll results key bytes v :
  (key, bytes) ∈ results -> JSON_parse bytes = Ok v -> v ∈ parseAll results.
Proof.
  intros Hin Hp. induction results as [|[k b] rs IH]; [by apply elem_of_nil in Hin|].
  apply elem_of_cons in Hin as [Heq|Hin].
  - injection Heq as <- <-. cbn. rewrite Hp. by left.
  - cbn. destruct (JSON_parse b); [right|]; by apply IH.
Qed.

(** A stored document with a property [id] is among the results of
    [queryAllProducts], read as a product. *)
Lemma queryAllProducts_selects w key bytes doc :
  ledger w !! key = Some bytes ->
  hasField "id" bytes = true ->
  JSON_parse bytes = Ok doc ->
  exists l, queryAllProducts w = (Ok l, w) /\ doc ∈ l.
Proof.
  intros Hl Hf Hp. rewrite queryAllProducts_run. eexists. split; [reflexivity|].
  eapply elem_of_parseAll; [|done].
  apply list_elem_of_In, List.filter_In. split; [|done].
  by apply list_elem_of_In, elem_of_entries.
Qed.

(** The ledger accepts the next two writes. *)
Definition acceptsBoth (w : World) : Prop :=
  accepts w /\
  match tail (faults w) with
  | Some _ :: _ => False
  | _ => True
  end.

Lemma ledger_notified_eq n nid w :
  accepts w -> ledger (notified n nid w) !! nid = Some (JSON_stringify n).
Proof.
  unfold accepts, notified, put. destruct (faults w) as [|[e|] fs]; try done.
  all: intros _; cbn; apply lookup_insert_eq.
Qed.

Section Reads.
Variable Date_parse : string -> number.
Variable toLocaleMonthShort : number -> string.

(** C9. When no stored document has a property [id] (no product) and none
    has a property [inspector] (no quality record), [getAnalyticsData]
    returns zero products, an on-time delivery rate of 100, a quality
    score of 95.0 and empty statistics. *)
Theorem getAnalyticsData_empty (w : World) :
  (forall key bytes, ledger w !! key = Some bytes ->
     hasField "id" bytes = false /\ hasField "inspector" bytes = false) ->
  getAnalyticsData Date_parse toLocaleMonthShort w
  = (Ok (mkAnalyticsData 0 0 0 (Some 0) 100 (Some (Qmake 95 1)) ∅ ∅ []), w).
Proof.
  intros H. unfold getAnalyticsData.
  cbv [mbind M_bind mret M_ret lift try_catch].
  rewrite queryAllProducts_run, getAllQualityRecords_run.
  rewrite !filter_nil_iff.
  - reflexivity.
  - intros [k b] Hin. apply elem_of_entries in Hin. cbn [snd]. by destruct (H k b Hin).
  - intros [k b] Hin. apply elem_of_entries in Hin. cbn [snd]. by destruct (H k b Hin).
Qed.

Lemma createPlan_isJson w productJson key product :
  createPlan Date_parse w productJson = Ok (key, product) ->
  isJson product = true /\ field product "id" = Str key.
Proof.
  unfold createPlan. destruct (JSON_parse productJson) as [p|] eqn:Hp; [|done].
  cbn [mbind result_bind]. destruct (validateProductData _ p); [|done].
  cbn [mbind result_bind]. unfold field.
  destruct (getProp p "id") as [[| | | |k| |]|] eqn:Hid; try done.
  cbn [mbind result_bind]. destruct (stored w k); [done|]. intros [= <- <-].
  split; [by eapply JSON_parse_isJson|by rewrite Hid].
Qed.

Lemma qualityPlan_isJson w productId qualityData qualityRecord :
  qualityPlan Date_parse w productId qualityData = Ok qualityRecord ->
  isJson qualityRecord = true.
Proof.
  unfold qualityPlan. destruct (negb _); [done|].
  destruct (JSON_parse qualityData) as [p|] eqn:Hp; [|done].
  cbn [mbind result_bind]. destruct (validateQualityRecord _ p); [|done].
  intros [= <-]. by eapply JSON_parse_isJson.
Qed.

(** What a successful mutation leaves for the queries: its notification,
    stored under the notification's id, is a document with a property
    [id], and [queryAllProducts] returns it among the products. *)
Definition queriedAsProduct (w' : World) (nid ty : string) : Prop :=
  exists bytes doc l,
    ledger w' !! nid = Some bytes
    /\ JSON_parse bytes = Ok doc
    /\ field doc "id" = Str nid
    /\ field doc "type" = Str ty
    /\ field doc "locationData" = Undefined
    /\ queryAllProducts w' = (Ok l, w')
    /\ doc ∈ l.

Lemma notified_queriedAsProduct stamp rnd pid ty msg ts loc sev w :
  jsonOrUndefined pid -> jsonOrUndefined loc -> accepts w ->
  queriedAsProduct
    (notified (notification stamp rnd pid ty msg ts loc sev)
       ("NOTIF_" +:+ string_of_Z stamp +:+ "_" +:+ rnd) w)
    ("NOTIF_" +:+ string_of_Z stamp +:+ "_" +:+ rnd) ty.
Proof.
  intros Hpid Hloc Hacc.
  destruct (notification_stored stamp rnd pid ty msg ts loc sev Hpid Hloc)
    as (doc & Hp & Hf & Hid & Hty & Hld).
  pose proof (ledger_notified_eq (notification stamp rnd pid ty msg ts loc sev)
                ("NOTIF_" +:+ string_of_Z stamp +:+ "_" +:+ rnd) w Hacc) as Hl.
  destruct (queryAllProducts_selects _ _ _ _ Hl Hf Hp) as (l & Hq & Hin).
  eexists _, doc, l. done.
Qed.

Lemma mutations_queriedAsProduct (w w' : World) :
  acceptsBoth w ->
  (forall productJson,
     createProduct Date_parse productJson w = (Ok tt, w') ->
     queriedAsProduct w' (notificationId w) "created")
  /\ (forall productId newLocation arrivalDate,
       shipProductTo Date_parse productId newLocation arrivalDate w = (Ok tt, w') ->
       queriedAsProduct w' (notificationId w) "shipped")
  /\ (forall productId qualityData,
       addQualityRecord Date_parse productId qualityData w = (Ok tt, w') ->
       queriedAsProduct w' (notificationId (tick w)) "quality_check").
Proof.
  intros [Ha Hb]. unfold accepts in Ha. repeat split.
  - intros productJson. rewrite createProduct_plan.
    destruct (createPlan _ w productJson) as [[key product]|e] eqn:Hplan; [|done].
    destruct (createPlan_isJson _ _ _ _ Hplan) as [Hj Hid].
    destruct (faults w) as [|[e|] fs] eqn:Ef; try done.
    all: intros [= <-]; apply notified_queriedAsProduct;
      [rewrite Hid; by right | by apply jsonOrUndefined_field
      | unfold accepts; cbn; by rewrite ?Ef in * ].
  - intros productId newLocation arrivalDate. rewrite shipProductTo_plan.
    destruct (shipPlan _ w _ _ _) as [product'|e] eqn:Hplan; [|done].
    destruct (faults w) as [|[e|] fs] eqn:Ef; try done.
    all: intros [= <-]; apply notified_queriedAsProduct;
      [by right | by right | unfold accepts; cbn; by rewrite ?Ef in * ].
  - intros productId qualityData. rewrite addQualityRecord_plan.
    destruct (qualityPlan _ w _ _) as [qualityRecord|e] eqn:Hplan; [|done].
    pose proof (qualityPlan_isJson _ _ _ _ Hplan) as Hj.
    destruct (faults w) as [|[e|] fs] eqn:Ef; try done.
    all: intros [= <-]; apply notified_queriedAsProduct;
      [by right | by apply jsonOrUndefined_field
      | unfold accepts; cbn; by rewrite ?Ef in * ].
Qed.

(** [getAnalyticsData] ends in an exception and returns no figures. *)
Definition analyticsThrow (w : World) : Prop :=
  exists e, getAnalyticsData Date_parse toLocaleMonthShort w = (Throw e, w).

(** The loop of [getAnalyticsData] reads [locationData.current] of every
    element: one without [locationData] ends it with a [TypeError]. *)
Lemma tallyProduct_without_locationData p t :
  field p "locationData" = Undefined -> tallyProduct Date_parse p t = Throw TypeError.
Proof.
  unfold field, tallyProduct. destruct p as [| |b|n|s|l|o]; try done.
  all: cbn [getProp mbind result_bind]; by intros ->.
Qed.

Lemma tallyProducts_without_locationData l p t :
  p ∈ l -> field p "locationData" = Undefined ->
  exists e, tallyProducts Date_parse l t = Throw e.
Proof.
  intros Hin Hp. revert t. induction l as [|x l IH]; intros t.
  { by apply elem_of_nil in Hin. }
  cbn [tallyProducts]. apply elem_of_cons in Hin as [<-|Hin].
  - rewrite tallyProduct_without_locationData by done. by eexists.
  - destruct (tallyProduct Date_parse x t) as [t'|e]; cbn [mbind result_bind];
      [by apply IH | by eexists].
Qed.

Lemma queriedAsProduct_analyticsThrow w nid ty :
  queriedAsProduct w nid ty -> analyticsThrow w.
Proof.
  intros (bytes & doc & l & _ & _ & _ & _ & Hld & Hq & Hin).
  destruct (tallyProducts_without_locationData l doc (mkTally ∅ ∅ (Some 0) 0 0 ∅) Hin Hld)
    as [e He].
  exists e. unfold getAnalyticsData. cbv [mbind M_bind mret M_ret lift].
  by rewrite Hq, He.
Qed.

(** X29.  After a successful [createProduct], [shipProductTo] or
    [addQualityRecord] whose notification write was accepted, the ledger
    holds the notification under its own id, next to the products, and
    [queryAllProducts], which selects every stored document with a
    property [id], returns the notification among the products: its
    results are not restricted to product records.  [getAnalyticsData],
    which goes through the same result without a guard, ends in an
    exception on that ledger, the notification having no [locationData]. *)
Theorem notification_is_queried_as_product (w w' : World) :
  acceptsBoth w ->
  (forall productJson,
     createProduct Date_parse productJson w = (Ok tt, w') ->
     queriedAsProduct w' (notificationId w) "created" /\ analyticsThrow w')
  /\ (forall productId newLocation arrivalDate,
       shipProductTo Date_parse productId newLocation arrivalDate w = (Ok tt, w') ->
       queriedAsProduct w' (notificationId w) "shipped" /\ analyticsThrow w')
  /\ (forall productId qualityData,
       addQualityRecord Date_parse productId qualityData w = (Ok tt, w') ->
       queriedAsProduct w' (notificationId (tick w)) "quality_check"
       /\ analyticsThrow w').
Proof.
  intros Hacc. destruct (mutations_queriedAsProduct w w' Hacc) as (Hc & Hs & Hq).
  repeat split; eauto using queriedAsProduct_analyticsThrow.
Qed.

(* ------------------------------------------------------------------- *)
(** *** Quality records in order                                         *)







Lemma elem_of_parseAll_inv results v :
  v ∈ parseAll results ->
  exists key bytes, (key, bytes) ∈ results /\ JSON_parse bytes = Ok v.
Proof.
  induction results as [|[k b] rs IH]; cbn; [by intros ?%elem_of_nil|].
  destruct (JSON_parse b) as [v'|] eqn:E.
  - intros [->|Hin]%elem_of_cons.
    + exists k, b. split; [by left|done].
    + destruct (IH Hin) as (k' & b' & ? & ?). exists k', b'. split; [by right|done].
  - intros Hin. destruct (IH Hin) as (k' & b' & ? & ?).
    exists k', b'. split; [by right|done].
Qed.

(** The comparator of [getQualityRecords] throws on [null] only. *)
Definition notNull (v : value) : Prop := v <> Null /\ v <> Undefined.

Lemma byTimestampDesc_returns a b :
  notNull a -> notNull b -> exists c, byTimestampDesc Date_parse a b = Ok c.
Proof.
  intros [Ha Ha'] [Hb Hb']. unfold byTimestampDesc.
  destruct a, b; try done; cbn; eauto.
Qed.

Lemma insert_by_returns x l :
  notNull x -> Forall notNull l ->
  exists l', insert_by (byTimestampDesc Date_parse) x l = Ok l' /\ l' ≡ₚ x :: l.
Proof.
  intros Hx Hl. induction Hl as [|y l Hy Hl IH]; [by exists [x]|].
  cbn [insert_by]. destruct (byTimestampDesc_returns x y Hx Hy) as [c ->].
  cbn [mbind result_bind]. destruct (num_gt c (Some 0)).
  - destruct IH as (l' & -> & Hp). exists (y :: l'). split; [done|].
    rewrite Hp. apply perm_swap.
  - by eexists.
Qed.

Lemma sort_by_returns l :
  Forall notNull l ->
  exists l', sort_by (byTimestampDesc Date_parse) l = Ok l' /\ l' ≡ₚ l.
Proof.
  intros Hl. induction Hl as [|x l Hx Hl (l1 & E & Hp)]; [by exists []|].
  cbn [sort_by]. rewrite E. cbn [mbind result_bind].
  assert (Hl1 : Forall notNull l1) by (by rewrite Hp).
  destruct (insert_by_returns x l1 Hx Hl1) as (l' & E' & Hp').
  exists l'. split; [done|]. by rewrite Hp', Hp.
Qed.

(** The key range [getQualityRecords] scans for a product. *)
Definition inQualityRange (productId key : string) : bool :=
  String.leb ("QUALITY_" +:+ productId +:+ "_") key
  && String.ltb key ("QUALITY_" +:+ productId +:+ "_" +:+ uFFFF).

Lemma compare_prepend p a b : String.compare (p +:+ a) (p +:+ b) = String.compare a b.
Proof.
  induction p as [|c p IH]; [by rewrite !app_nil|].
  rewrite !app_cons. cbn [String.compare].
  assert (E : Ascii.compare c c = Eq) by (unfold Ascii.compare; apply N.compare_refl).
  by rewrite E.
Qed.

Lemma startsNumber_below c : startsNumber c = true -> Ascii.compare c (chr 239) = Lt.
Proof.
  destruct c as [[] [] [] [] [] [] [] []]; cbn; intros H;
    first [discriminate H | reflexivity].
Qed.

(** The key [addQualityRecord] writes a record of [productId] under is in
    the product's range, whatever the clock says. *)
Lemma qualityKey_inQualityRange productId w :
  inQualityRange productId (qualityKey productId w) = true.
Proof.
  unfold inQualityRange, qualityKey, String.leb, String.ltb.
  destruct (string_of_Z_head (hd 0 (clock w))) as (c & s & -> & Hc).
  rewrite !compare_prepend, !app_cons, !app_nil. cbn [String.compare uFFFF].
  by rewrite (startsNumber_below _ Hc).
Qed.


(* ------------------------------------------------------------------- *)
(** *** Monthly trends                                                   *)

(** The calendar month [YYYY-MM] of a date, as the loop takes it:
    [new Date(d).toISOString().substring(0, 7)]. *)
Definition monthOf (d : value) : string :=
  match newDate Date_parse d with
  | Some t => take_string 7 (toISOString t)
  | None => ""
  end.

Definition productionMonth (p : value) : string := monthOf (field p "productionDate").

(** The product has at least one previous location entry. *)
Definition hasMoved (p : value) : bool :=
  num_gt (toNumber (field (field (field p "locationData") "previous") "length")) (Some 0).

Definition shipmentMonth (p : value) : string :=
  monthOf (field (field (field p "locationData") "current") "arrivalDate").

(** What one product does to the bucket of month [m]. *)
Definition bucketStep (m : string) (p : value) (b : option (Z * Z)) : option (Z * Z) :=
  let b1 :=
    if String.eqb (productionMonth p) m then
      Some (match b with Some (n, s) => (n + 1, s) | None => (1, 0) end)
    else b in
  if hasMoved p && String.eqb (shipmentMonth p) m then
    match b1 with
    | Some (n, s) => Some (n, s + 1)
    | None => None
    end
  else b1.

Lemma tallyProduct_monthly p t t' m :
  tallyProduct Date_parse p t = Ok t' ->
  t_monthlyData t' !! m = bucketStep m p (t_monthlyData t !! m).
Proof.
  unfold tallyProduct, bucketStep, productionMonth, shipmentMonth, hasMoved, monthOf,
    field, newDate_toISOString.
  destruct (getProp p "category") as [cat|]; [|done]. cbn [mbind result_bind].
  destruct (getProp p "locationData") as [ld|]; [|done]. cbn [mbind result_bind].
  destruct (getProp ld "current") as [cur|]; [|done]. cbn [mbind result_bind].
  destruct (getProp cur "location") as [loc|]; [|done]. cbn [mbind result_bind].
  destruct (getProp p "productionDate") as [pd|]; [|done]. cbn [mbind result_bind].
  destruct (newDate Date_parse pd) as [tp|]; [|done]. cbn [mbind result_bind].
  set (pm := take_string 7 (toISOString tp)).
  set (md := t_monthlyData t).
  set (md1 := match md !! pm with Some _ => md | None => <[pm := (0, 0)]> md end).
  set (md2 := match md1 !! pm with
              | Some (n, s) => <[pm := (n + 1, s)]> md1
              | None => md1
              end).
  assert (H2 : md2 !! m = if String.eqb pm m
                          then Some (match md !! m with
                                     | Some (n, s) => (n + 1, s)
                                     | None => (1, 0)
                                     end)
                          else md !! m).
  { subst md2 md1. destruct (String.eqb_spec pm m) as [->|Hne].
    - destruct (md !! m) as [[n s]|] eqn:E.
      + rewrite E. by rewrite lookup_insert_eq.
      + rewrite lookup_insert_eq. by rewrite lookup_insert_eq.
    - destruct (md !! pm) as [[n s]|] eqn:E.
      + rewrite E. by rewrite lookup_insert_ne.
      + rewrite lookup_insert_eq. by rewrite !lookup_insert_ne. }
  destruct (getProp ld "previous") as [prev|]; [|done]. cbn [mbind result_bind].
  destruct (getProp prev "length") as [len|]; [|done]. cbn [mbind result_bind].
  destruct (num_gt (toNumber len) (Some 0)); cbn [andb].
  2: { intros [= <-]. cbn [t_monthlyData]. exact H2. }
  destruct (getFirst prev) as [first|]; [|done]. cbn [mbind result_bind].
  destruct (getProp cur "arrivalDate") as [ca|]; [|done]. cbn [mbind result_bind].
  destruct (getProp first "arrivalDate") as [fa|]; [|done]. cbn [mbind result_bind].
  destruct (newDate Date_parse ca) as [tc|]; [|done]. cbn [mbind result_bind].
  intros [= <-]. cbn [t_monthlyData].
  set (sm := take_string 7 (toISOString tc)).
  destruct (String.eqb_spec sm m) as [->|Hne].
  - rewrite <- H2. destruct (md2 !! m) as [[n s]|] eqn:E; [|done].
    by rewrite lookup_insert_eq.
  - rewrite <- H2. destruct (md2 !! sm) as [[n s]|] eqn:E; [|done].
    by rewrite lookup_insert_ne.
Qed.

(** The bucket of [m] after a list of products, in the order of the loop. *)
Fixpoint bucketAfter (m : string) (ps : list value) (b : option (Z * Z)) : option (Z * Z) :=
  match ps with
  | [] => b
  | p :: rest => bucketAfter m rest (bucketStep m p b)
  end.

Lemma tallyProducts_monthly ps t t' m :
  tallyProducts Date_parse ps t = Ok t' ->
  t_monthlyData t' !! m = bucketAfter m ps (t_monthlyData t !! m).
Proof.
  revert t. induction ps as [|p ps IH]; intros t; cbn [tallyProducts bucketAfter].
  - by intros [= <-].
  - destruct (tallyProduct Date_parse p t) as [t1|] eqn:E; [|done].
    cbn [mbind result_bind]. intros H. rewrite (IH _ H).
    by rewrite (tallyProduct_monthly _ _ _ m E).
Qed.

(** The number of products of the list produced in month [m]. *)
Fixpoint productsCounted (m : string) (ps : list value) : Z :=
  match ps with
  | [] => 0
  | p :: rest =>
      (if String.eqb (productionMonth p) m then 1 else 0) + productsCounted m rest
  end.

(** The number of products of the list that have moved, arrived at their
    current location in month [m], and come in the list no earlier than
    the first product produced in month [m] ([seen] tells whether one came
    before the list). *)
Fixpoint shipmentsCounted (m : string) (seen : bool) (ps : list value) : Z :=
  match ps with
  | [] => 0
  | p :: rest =>
      let seen' := seen || String.eqb (productionMonth p) m in
      (if seen' && hasMoved p && String.eqb (shipmentMonth p) m then 1 else 0)
      + shipmentsCounted m seen' rest
  end.

Lemma productsCounted_nonneg m ps : 0 <= productsCounted m ps.
Proof. induction ps as [|p ps IH]; cbn; [done|]. destruct (String.eqb _ _); lia. Qed.

Lemma bucketAfter_counts m ps b :
  bucketAfter m ps b =
  if bool_decide (is_Some b) || (0 <? productsCounted m ps) then
    Some (fst (default (0, 0) b) + productsCounted m ps,
          snd (default (0, 0) b) + shipmentsCounted m (bool_decide (is_Some b)) ps)
  else None.
Proof.
  revert b. induction ps as [|p ps IH]; intros b; cbn [bucketAfter productsCounted shipmentsCounted].
  - destruct b as [[n s]|]; cbn; [|done]. by rewrite !Z.add_0_r.
  - rewrite IH. unfold bucketStep. pose proof (productsCounted_nonneg m ps) as Hn.
    destruct (String.eqb (productionMonth p) m), (hasMoved p),
      (String.eqb (shipmentMonth p) m), b as [[n s]|]; cbn.
    all: rewrite ?orb_true_r; cbn.
    all: repeat match goal with
           | |- context [0 <? ?x] => destruct (Z.ltb_spec 0 x); try lia
           end; cbn; try done.
    all: f_equal; f_equal; lia.
Qed.

#[local] Instance month_le_total : Total month_le.
Proof. intros a b. unfold month_le. apply String.le_total. Qed.

Lemma lastSixMonths_spec (md : gmap string (Z * Z)) :
  exists older,
    older ++ lastSixMonths md ≡ₚ map_to_list md
    /\ Sorted month_le (older ++ lastSixMonths md)
    /\ length (lastSixMonths md) = Nat.min 6 (size md).
Proof.
  unfold lastSixMonths. set (sorted := merge_sort month_le (map_to_list md)).
  exists (take (length sorted - 6) sorted). rewrite take_drop. repeat split.
  - apply merge_sort_Permutation.
  - apply Sorted_merge_sort. apply _.
  - rewrite length_drop.
    assert (length sorted = size md) as ->.
    { subst sorted. rewrite merge_sort_Permutation. apply length_map_to_list. }
    lia.
Qed.

(** C5 as the code has it.  In [getAnalyticsData] every product adds one
    production to the bucket of the month of its [productionDate]; a
    product with at least one previous location entry adds one shipment
    to the bucket of the month of its [current.arrivalDate] when that
    bucket exists at that point of the loop, that is when this product or
    a product before it in the order of the query was produced in that
    month, and adds nothing otherwise; and [monthlyTrends] lists the last
    six buckets in the ascending order of their keys. *)
Theorem monthlyTrends_of_products (w w' : World) (a : AnalyticsData) :
  getAnalyticsData Date_parse toLocaleMonthShort w = (Ok a, w') ->
  exists (ps : list value) (md : gmap string (Z * Z)),
    queryAllProducts w = (Ok ps, w)
    /\ (forall m,
         md !! m =
         if 0 <? productsCounted m ps then
           Some (productsCounted m ps, shipmentsCounted m false ps)
         else None)
    /\ monthlyTrends a
       = map (fun '(m, (n, s)) =>
                mkTrend (toLocaleMonthShort (newDate Date_parse (Str (m +:+ "-01")))) n s)
           (lastSixMonths md)
    /\ exists older,
         older ++ lastSixMonths md ≡ₚ map_to_list md
         /\ Sorted month_le (older ++ lastSixMonths md)
         /\ length (lastSixMonths md) = Nat.min 6 (size md).
Proof.
  unfold getAnalyticsData. cbv [mbind M_bind mret M_ret lift try_catch].
  rewrite queryAllProducts_run, getAllQualityRecords_run.
  set (ps := parseAll _).
  destruct (tallyProducts Date_parse ps _) as [t|] eqn:Ht; [|done].
  destruct (tallyQuality _ _ _) as [total count].
  destruct (countWhere _ ps) as [active|]; [|done].
  destruct (countWhere _ ps) as [completed|]; [|done].
  intros [= <- <-]. exists ps, (t_monthlyData t). split; [done|]. split; [|split].
  - intros m. rewrite (tallyProducts_monthly _ _ _ m Ht), bucketAfter_counts.
    cbn [t_monthlyData]. rewrite lookup_empty. cbn. by rewrite !Z.add_0_l.
  - reflexivity.
  - apply lastSixMonths_spec.
Qed.

End Reads.
End ContractFacts.

(* ===================================================================== *)
(** * Runs on concrete ledgers                                            *)
(* ===================================================================== *)

Module Examples.
Import Js Stub Contract JsFacts ContractFacts.

(** Closed facts about concrete runs are proved by evaluation, one
    conjunct at a time. *)
Ltac evaluate :=
  lazymatch goal with
  | |- _ /\ _ => split; [evaluate | evaluate]
  | |- _ <> _ => vm_compute; intros [=]
  | |- _ => vm_compute; first [reflexivity | exact I]
  end.

(** A product record as the contract's tests build it. *)
Definition sampleProduct (id name productionDate arrivalDate : string)
    (previous : list value) : value :=
  Obj [("id", Str id); ("name", Str name); ("barcode", Str "1234567890");
       ("placeOfOrigin", Str "Markham, ON, Canada");
       ("productionDate", Str productionDate);
       ("expirationDate", Str "2022-06-24T18:25:43.511Z");
       ("unitQuantity", Num 300); ("unitQuantityType", Str "mg");
       ("unitPrice", Str "$5.00"); ("category", Str "Fruits");
       ("componentProductIds", Arr []);
       ("locationData",
        Obj [("current", Obj [("arrivalDate", Str arrivalDate);
                              ("location", Str "Markham Farm")]);
             ("previous", Arr previous)])].

Definition apples (id : string) : value :=
  sampleProduct id "Apples" "2021-06-24T18:25:43.511Z" "2021-06-24T18:25:43.511Z" [].

(** Two worlds with the same empty ledger that differ by one millisecond
    on the clock. *)
Definition world_a : World :=
  mkWorld ∅ [] [1700000000000; 1700000000000] ["k3j9x0a1b"] [].



(** A ledger that holds one product, whose id has the form of a
    notification id. *)
Definition collidingId : string := "NOTIF_1700000000000_k3j9x0a1b".

Definition world_c : World :=
  mkWorld {[collidingId := JSON_stringify (apples collidingId)]} []
    [1700000000000; 1700000000000] ["k3j9x0a1b"] [].

(** C2, counterexample.  The product exists, the location is not empty
    and the date is a valid ISO date-time; [shipProductTo] returns
    normally, and what is stored under the product's id afterwards is the
    notification of the shipment, written over the product: it has no
    [locationData]. *)
Lemma shipProductTo_overwritten_by_notification :
  let w' := snd (shipProductTo Date_parse_iso collidingId "Warehouse A"
                   "2021-06-26T00:00:00.000Z" world_c) in
  fst (getProduct collidingId world_c) = Ok (apples collidingId)
  /\ fst (shipProductTo Date_parse_iso collidingId "Warehouse A"
            "2021-06-26T00:00:00.000Z" world_c) = Ok tt
  /\ fst (getProduct collidingId w')
     = Ok (notification 1700000000000 "k3j9x0a1b" (Str collidingId) "shipped"
             "Product Apples shipped to Warehouse A" "2023-11-14T22:13:20.000Z"
             (Str "Warehouse A") "info")
  /\ field (field (match fst (getProduct collidingId w') with
                   | Ok p => p
                   | Throw _ => Null
                   end) "locationData") "current"
     <> Obj [("arrivalDate", Str "2021-06-26T00:00:00.000Z"); ("location", Str "Warehouse A")].
Proof.
  cbv zeta. evaluate.
Qed.

(** A ledger that holds the product ["1001"]. *)
Definition world_1001 : World :=
  mkWorld {["1001" := JSON_stringify (apples "1001")]} []
    [1700000000000; 1700000000001; 1700000000002] ["k3j9x0a1b"] [].

(** A location that is not empty but holds white space only, one space
    or one no-break space (U+00A0), is refused as a missing field, and
    the product stays as it was. *)
Lemma shipProductTo_blank_location :
  shipProductTo Date_parse_iso "1001" " " "2021-06-26T00:00:00.000Z" world_1001
  = (Throw (Error "The 'newLocation' field is required."), world_1001)
  /\ shipProductTo Date_parse_iso "1001" (String (chr 194) (String (chr 160) ""))
       "2021-06-26T00:00:00.000Z" world_1001
     = (Throw (Error "The 'newLocation' field is required."), world_1001).
Proof.
  evaluate.
Qed.

Lemma shipProductTo_appends_history_witness :
  exists w' product',
    shipProductTo Date_parse_iso "1001" "Warehouse A" "2021-06-26T00:00:00.000Z" world_1001
    = (Ok tt, w')
    /\ getProduct "1001" w' = (Ok product', w')
    /\ field (field (field product' "locationData") "current") "location"
       = Str "Warehouse A"
    /\ field (field (field product' "locationData") "current") "arrivalDate"
       = Str "2021-06-26T00:00:00.000Z"
    /\ field (field product' "locationData") "previous"
       = Arr [ProductLocationEntry
                [("arrivalDate", Str "2021-06-24T18:25:43.511Z");
                 ("location", Str "Markham Farm")]].
Proof.
  destruct (shipProductTo_appends_history Date_parse_iso world_1001 "1001" "Warehouse A"
              "2021-06-26T00:00:00.000Z"
              (match apples "1001" with Obj o => o | _ => [] end)
              [("current", Obj [("arrivalDate", Str "2021-06-24T18:25:43.511Z");
                                ("location", Str "Markham Farm")]);
               ("previous", Arr [])]
              [("arrivalDate", Str "2021-06-24T18:25:43.511Z");
               ("location", Str "Markham Farm")]
              [])
    as (w' & product' & H1 & H2 & H3 & H4 & _ & H6 & _).
  - vm_compute. reflexivity.
  - reflexivity.
  - reflexivity.
  - reflexivity.
  - vm_compute. discriminate.
  - vm_compute. discriminate.
  - vm_compute. reflexivity.
  - vm_compute. reflexivity.
  - vm_compute. exact I.
  - vm_compute. discriminate.
  - exists w', product'. repeat (split; [assumption|]). assumption.
Defined.

(** C3, counterexample.  The id ["1001"] is stored and the payload has a
    blank name: the call fails with the error of the validation, not
    with the already-exists error. *)
Lemma createProduct_validates_before_lookup :
  let payload :=
    JSON_stringify (sampleProduct "1001" " " "2021-06-24T18:25:43.511Z"
                      "2021-06-24T18:25:43.511Z" []) in
  stored world_1001 "1001" = true
  /\ createProduct Date_parse_iso payload world_1001
     = (Throw (Error "The 'name' field is required."), world_1001)
  /\ fst (createProduct Date_parse_iso payload world_1001)
     <> Throw (Error "The product 1001 already exists.").
Proof.
  cbv zeta. evaluate.
Qed.

Lemma createProduct_existing_id_witness :
  createProduct Date_parse_iso (JSON_stringify (apples "1001")) world_1001
  = (Throw (Error "The product 1001 already exists."), world_1001).
Proof.
  apply (proj1 (createProduct_existing_id Date_parse_iso world_1001
                  (JSON_stringify (apples "1001")) (apples "1001")
                  ltac:(vm_compute; reflexivity))
           "1001");
    vm_compute; reflexivity.
Defined.



(** C6, the failing input.  After a successful [createProduct] on an
    empty ledger, whose notification was stored, [queryAllProducts]
    returns the product and the notification, and [getAnalyticsData]
    does not return: it throws on the notification, which has no
    [locationData]. *)
Lemma getAnalyticsData_throws_on_notification :
  let w' := snd (createProduct Date_parse_iso (JSON_stringify (apples "1001")) world_a) in
  fst (createProduct Date_parse_iso (JSON_stringify (apples "1001")) world_a) = Ok tt
  /\ fst <$> entries (ledger w') = ["1001"; "NOTIF_1700000000000_k3j9x0a1b"]
  /\ length <$> (match fst (queryAllProducts w') with
                  | Ok l => Some l
                  | Throw _ => None
                  end) = Some 2%nat
  /\ fst (getAnalyticsData Date_parse_iso toLocaleMonthShort_utc w') = Throw TypeError.
Proof. cbv zeta. evaluate. Qed.

Lemma notification_is_queried_as_product_witness :
  queriedAsProduct
    (snd (createProduct Date_parse_iso (JSON_stringify (apples "1001")) world_a))
    "NOTIF_1700000000000_k3j9x0a1b" "created"
  /\ analyticsThrow Date_parse_iso toLocaleMonthShort_utc
       (snd (createProduct Date_parse_iso (JSON_stringify (apples "1001")) world_a)).
Proof.
  apply (proj1 (notification_is_queried_as_product Date_parse_iso toLocaleMonthShort_utc
                  world_a
                  (snd (createProduct Date_parse_iso (JSON_stringify (apples "1001")) world_a))
                  ltac:(vm_compute; split; exact I))
           (JSON_stringify (apples "1001"))).
  vm_compute. reflexivity.
Defined.

(** A ledger that accepts a first write and rejects the second. *)
Definition world_faulty : World :=
  mkWorld ∅ [] [1700000000000; 1700000000000] ["k3j9x0a1b"]
    [None; Some (Error "MVCC_READ_CONFLICT")].

Lemma notification_failure_is_discarded_witness :
  exists w',
    createProduct Date_parse_iso (JSON_stringify (apples "1001")) world_faulty = (Ok tt, w')
    /\ ledger w' = <["1001" := JSON_stringify (apples "1001")]> (ledger world_faulty)
    /\ writes w' = writes world_faulty ++ [("1001", JSON_stringify (apples "1001"))].
Proof.
  apply (proj1 (notification_failure_is_discarded Date_parse_iso world_faulty
                  (Error "MVCC_READ_CONFLICT") [] eq_refl)
           (JSON_stringify (apples "1001"))
           (match apples "1001" with Obj o => o | _ => [] end) "1001").
  - vm_compute. reflexivity.
  - vm_compute. reflexivity.
  - reflexivity.
  - vm_compute. reflexivity.
Defined.

(** Two inspections of the product ["1001"] with the same timestamp. *)
Definition inspection (inspector : string) (score : Z) (timestamp : string) : value :=
  Obj [("inspector", Str inspector); ("score", Num score);
       ("notes", Str "checked"); ("timestamp", Str timestamp)].




(** The range of a product id holds the records of every product whose id
    continues it after an underscore: an inspection of ["1001_B"] is
    returned for ["1001"]. *)
Lemma getQualityRecords_of_longer_id :
  let w :=
    snd (addQualityRecord Date_parse_iso "1001_B"
           (JSON_stringify (inspection "Bob" 90 "2021-06-27T00:00:00.000Z"))
           (mkWorld {["1001" := JSON_stringify (apples "1001");
                      "1001_B" := JSON_stringify (apples "1001_B")]} []
              [1700000000000; 1700000000001; 1700000000002] ["k3j9x0a1b"] [])) in
  fst (getQualityRecords Date_parse_iso "1001" w)
  = Ok [inspection "Bob" 90 "2021-06-27T00:00:00.000Z"].
Proof. vm_compute. reflexivity. Qed.






(** A record with a score of 85.5 is a text outside the model:
    [JSON_parse] rejects it, and [readsExactly] tells so. *)
Lemma fraction_is_outside :
  let text := "{" +:+ q "inspector" +:+ ":" +:+ q "Alice" +:+ "," +:+ q "score" +:+ ":85.5}" in
  JSON_parse text = Throw SyntaxError /\ readsExactly text = false.
Proof. cbv zeta. evaluate. Qed.

(** Two entries in the range of ["1001"], one of them the text [null]:
    the comparator reads [timestamp] of [null], and the call throws. *)
Lemma getQualityRecords_throws_on_null :
  getQualityRecords Date_parse_iso "1001"
    (mkWorld {["QUALITY_1001_1" :=
                 JSON_stringify (inspection "Alice" 80 "2021-06-27T00:00:00.000Z");
               "QUALITY_1001_2" := "null"]} [] [] [] [])
  = (Throw TypeError,
     mkWorld {["QUALITY_1001_1" :=
                 JSON_stringify (inspection "Alice" 80 "2021-06-27T00:00:00.000Z");
               "QUALITY_1001_2" := "null"]} [] [] [] []).
Proof. vm_compute. reflexivity. Qed.

(** A ledger with one product that was produced in June and arrived at
    its current location in July. *)
Definition movedProduct : value :=
  sampleProduct "1001" "Apples" "2021-06-24T18:25:43.511Z" "2021-07-02T08:00:00.000Z"
    [Obj [("arrivalDate", Str "2021-06-24T18:25:43.511Z");
          ("location", Str "Markham, ON, Canada")]].

Definition world_moved : World :=
  mkWorld {["1001" := JSON_stringify movedProduct]} [] [] [] [].

(** C5, counterexample.  The product has a previous location entry and
    the month of its [current.arrivalDate] is July; no product was
    produced in July, and the shipment is counted in no bucket. *)
Lemma shipment_without_bucket_is_not_counted :
  hasMoved movedProduct = true
  /\ shipmentMonth Date_parse_iso movedProduct = "2021-07"
  /\ productionMonth Date_parse_iso movedProduct = "2021-06"
  /\ fst (queryAllProducts world_moved) = Ok [movedProduct]
  /\ match fst (getAnalyticsData Date_parse_iso toLocaleMonthShort_utc world_moved) with
     | Ok a => monthlyTrends a = [mkTrend "Jun" 1 0]
     | Throw _ => False
     end.
Proof. cbv zeta. evaluate. Qed.

Definition analytics_moved : AnalyticsData :=
  match fst (getAnalyticsData Date_parse_iso toLocaleMonthShort_utc world_moved) with
  | Ok a => a
  | Throw _ => mkAnalyticsData 0 0 0 None 0 None ∅ ∅ []
  end.

Lemma monthlyTrends_of_products_witness :
  exists (ps : list value) (md : gmap string (Z * Z)),
    queryAllProducts world_moved = (Ok ps, world_moved)
    /\ md !! "2021-06" = Some (1, 0)
    /\ md !! "2021-07" = None
    /\ monthlyTrends analytics_moved
       = map (fun '(m, (n, s)) =>
                mkTrend (toLocaleMonthShort_utc (newDate Date_parse_iso (Str (m +:+ "-01")))) n s)
           (lastSixMonths md).
Proof.
  destruct (monthlyTrends_of_products Date_parse_iso toLocaleMonthShort_utc
              world_moved world_moved analytics_moved)
    as (ps & md & H1 & H2 & H3 & _).
  - vm_compute. reflexivity.
  - exists ps, md. split; [exact H1|].
    assert (Hps : ps = [movedProduct]).
    { assert (E : queryAllProducts world_moved = (Ok [movedProduct], world_moved))
        by (vm_compute; reflexivity).
      rewrite E in H1. by injection H1. }
    split; [|split]; [| |exact H3].
    + rewrite H2, Hps. vm_compute. reflexivity.
    + rewrite H2, Hps. vm_compute. reflexivity.
Defined.

Lemma getAnalyticsData_empty_witness :
  getAnalyticsData Date_parse_iso toLocaleMonthShort_utc (mkWorld ∅ [] [] [] [])
  = (Ok (mkAnalyticsData 0 0 0 (Some 0) 100 (Some (Qmake 95 1)) ∅ ∅ []),
     mkWorld ∅ [] [] [] []).
Proof.
  apply (getAnalyticsData_empty Date_parse_iso toLocaleMonthShort_utc).
  intros key bytes H. cbn in H. rewrite lookup_empty in H. discriminate H.
Defined.

Lemma addQualityRecord_score_range_witness :
  (exists w',
     addQualityRecord Date_parse_iso "1001"
       (JSON_stringify (inspection "Alice" 100 "2021-06-27T00:00:00.000Z")) world_1001
     = (Ok tt, w'))
  /\ (exists w',
       addQualityRecord Date_parse_iso "1001"
         (JSON_stringify (inspection "Alice" 0 "2021-06-27T00:00:00.000Z")) world_1001
       = (Ok tt, w'))
  /\ addQualityRecord Date_parse_iso "1001"
       (JSON_stringify (inspection "Alice" 101 "2021-06-27T00:00:00.000Z")) world_1001
     = (Throw (Error "Quality score must be between 0 and 100."), world_1001)
  /\ addQualityRecord Date_parse_iso "1001"
       (JSON_stringify (inspection "Alice" (-1) "2021-06-27T00:00:00.000Z")) world_1001
     = (Throw (Error "Quality score must be between 0 and 100."), world_1001).
Proof.
  assert (H : forall score,
            (score < 0 \/ 100 < score ->
             addQualityRecord Date_parse_iso "1001"
               (JSON_stringify (inspection "Alice" score "2021-06-27T00:00:00.000Z"))
               world_1001
             = (Throw (Error "Quality score must be between 0 and 100."), world_1001))
            /\ (0 <= score <= 100 -> accepts world_1001 ->
                exists w',
                  addQualityRecord Date_parse_iso "1001"
                    (JSON_stringify (inspection "Alice" score "2021-06-27T00:00:00.000Z"))
                    world_1001 = (Ok tt, w')
                  /\ ledger w' !! qualityKey "1001" world_1001
                     = Some (JSON_stringify (inspection "Alice" score "2021-06-27T00:00:00.000Z")))).
  { intros score.
    apply (addQualityRecord_score_range Date_parse_iso world_1001 "1001" _
             (match inspection "Alice" score "2021-06-27T00:00:00.000Z" with
              | Obj o => o | _ => [] end) score).
    - vm_compute. reflexivity.
    - apply JSON_parse_stringify. reflexivity.
    - reflexivity.
    - reflexivity.
    - reflexivity.
    - reflexivity.
    - vm_compute. reflexivity. }
  split; [|split; [|split]].
  - destruct (proj2 (H 100) ltac:(lia) ltac:(vm_compute; exact I)) as (w' & E & _).
    exists w'. exact E.
  - destruct (proj2 (H 0) ltac:(lia) ltac:(vm_compute; exact I)) as (w' & E & _).
    exists w'. exact E.
  - apply (proj1 (H 101)). lia.
  - apply (proj1 (H (-1))). lia.
Defined.

End Examples.

(* ===================================================================== *)
(** ** More about the contract                                            *)
(* ===================================================================== *)

Module ContractProperties.
Import Js Stub Contract JsFacts ContractFacts.

(** A computation that leaves the world as it found it, however it ends. *)
Definition readOnly {A} (m : M A) : Prop := forall w, snd (m w) = w.

Lemma readOnly_ret {A} (a : A) : readOnly (mret a).
Proof. done. Qed.

Lemma readOnly_throw {A} e : readOnly (@throw A e).
Proof. done. Qed.

Lemma readOnly_lift {A} (r : result A) : readOnly (lift r).
Proof. done. Qed.

Lemma readOnly_bind {A B} (m : M A) (k : A -> M B) :
  readOnly m -> (forall a, readOnly (k a)) -> readOnly (m ≫= k).
Proof.
  intros Hm Hk w. unfold mbind, M_bind. specialize (Hm w).
  destruct (m w) as [[a|e] w1]; cbn in Hm; subst w1; [apply Hk|done].
Qed.

Lemma readOnly_try_catch {A} (m : M A) (h : exn -> M A) :
  readOnly m -> (forall e, readOnly (h e)) -> readOnly (try_catch m h).
Proof.
  intros Hm Hh w. unfold try_catch. specialize (Hm w).
  destruct (m w) as [[a|e] w1]; cbn in Hm; subst w1; [done|apply Hh].
Qed.

Lemma readOnly_getState key : readOnly (getState key).
Proof. done. Qed.

Lemma readOnly_getStateByRange a b : readOnly (getStateByRange a b).
Proof. done. Qed.

Lemma readOnly_getQueryResult query : readOnly (getQueryResult query).
Proof. intros w. unfold getQueryResult. by destruct (selector_of query). Qed.

Lemma readOnly_asKey v : readOnly (asKey v).
Proof. by destruct v. Qed.

Create HintDb readonly.
#[local] Hint Resolve readOnly_ret readOnly_throw readOnly_lift readOnly_getState
  readOnly_getStateByRange readOnly_getQueryResult readOnly_asKey : readonly.

Ltac readonly :=
  repeat first
    [ apply readOnly_bind; [|intros ?]
    | apply readOnly_try_catch; [|intros ?]
    | match goal with
      | |- readOnly (if ?b then _ else _) => destruct b
      | |- readOnly (match ?x with _ => _ end) => destruct x
      | |- readOnly (let '(_, _) := ?x in _) => destruct x
      end
    | solve [auto with readonly] ].

Lemma readOnly_productExists productId : readOnly (productExists productId).
Proof. unfold productExists. readonly. Qed.

Lemma readOnly_readProduct productId : readOnly (readProduct productId).
Proof. unfold readProduct. readonly. Qed.

Lemma readOnly_executeQuery query : readOnly (executeQuery query).
Proof. unfold executeQuery. readonly. Qed.

#[local] Hint Resolve readOnly_productExists readOnly_readProduct readOnly_executeQuery
  : readonly.

Section ReadOnly.
Variable Date_parse : string -> number.
Variable toLocaleMonthShort : number -> string.
Variable newProductWithHistory : value -> result (list (string * value)).

Lemma readOnly_readComponents ids productWithHistory :
  readOnly (readComponents ids productWithHistory).
Proof.
  revert productWithHistory. induction ids as [|x ids IH]; intros pwh; cbn [readComponents].
  - readonly.
  - apply readOnly_bind; [|intros ?; apply IH]. readonly.
Qed.

(** X1.  The transactions the contract declares as queries
    ([@Transaction(false)]) leave the world as they found it, whether they
    return or throw: the ledger, the record of the writes, the clock and
    the random generator. *)
Theorem queries_leave_the_world :
  (forall productId, readOnly (productExists productId))
  /\ (forall productId, readOnly (getProduct productId))
  /\ (forall productId, readOnly (getProductWithHistory newProductWithHistory productId))
  /\ readOnly queryAllProducts
  /\ (forall category, readOnly (queryProductsByCategory category))
  /\ (forall location, readOnly (queryProductsByLocation location))
  /\ (forall productId, readOnly (getQualityRecords Date_parse productId))
  /\ readOnly (getAnalyticsData Date_parse toLocaleMonthShort).
Proof.
  repeat apply conj.
  - intros productId. readonly.
  - intros productId. unfold getProduct. readonly.
  - intros productId. unfold getProductWithHistory. readonly.
    apply readOnly_readComponents.
  - unfold queryAllProducts. readonly.
  - intros category. unfold queryProductsByCategory. readonly.
  - intros location. unfold queryProductsByLocation. readonly.
  - intros productId. unfold getQualityRecords. readonly.
  - unfold getAnalyticsData, getAllQualityRecords. readonly.
Qed.

End ReadOnly.

(** *** What the mutations do to the ledger *)

(** Everything [acknowledgeNotification] decides before it writes. *)
Definition acknowledgePlan (w : World) (notificationId : string) : result value :=
  let data := default "" (ledger w !! notificationId) in
  if String.eqb data "" then
    Throw (Error ("Notification " +:+ notificationId +:+ " does not exist."))
  else
    notification ← JSON_parse data;
    setProp notification "acknowledged" (Bool true).

Lemma acknowledgeNotification_plan notificationId w :
  acknowledgeNotification notificationId w =
  match acknowledgePlan w notificationId with
  | Throw e => (Throw e, w)
  | Ok notification => putState notificationId (JSON_stringify notification) w
  end.
Proof.
  unfold acknowledgeNotification, acknowledgePlan. run.
  destruct (String.eqb _ ""); [done|].
  destruct (JSON_parse _) as [n|e]; [|done]. cbn [mbind result_bind].
  by destruct (setProp n _ _).
Qed.

(** A call that throws has written nothing. *)
Definition writesNothingOnFailure {A} (m : M A) : Prop :=
  forall w e, fst (m w) = Throw e ->
    ledger (snd (m w)) = ledger w /\ writes (snd (m w)) = writes w.

(** A call removes no key and only adds to the record of the writes, at
    most [n] of them. *)
Definition onlyAdds {A} (n : nat) (m : M A) : Prop :=
  forall w,
    dom (ledger w) ⊆ dom (ledger (snd (m w)))
    /\ writes w `prefix_of` writes (snd (m w))
    /\ (length (writes (snd (m w))) <= length (writes w) + n)%nat.

Lemma putState_spec key value w :
  (fst (putState key value w) = Ok tt
   /\ ledger (snd (putState key value w)) = <[key := value]> (ledger w)
   /\ writes (snd (putState key value w)) = writes w ++ [(key, value)])
  \/ ((exists e, fst (putState key value w) = Throw e)
      /\ ledger (snd (putState key value w)) = ledger w
      /\ writes (snd (putState key value w)) = writes w).
Proof.
  unfold putState. destruct (faults w) as [|[e|] fs]; cbn; eauto 6.
Qed.

Lemma notified_spec n nid w :
  (ledger (notified n nid w) = <[nid := JSON_stringify n]> (ledger w)
   /\ writes (notified n nid w) = writes w ++ [(nid, JSON_stringify n)])
  \/ (ledger (notified n nid w) = ledger w /\ writes (notified n nid w) = writes w).
Proof.
  unfold notified, put. destruct (faults w) as [|[e|] fs]; cbn; eauto.
Qed.

Lemma onlyAdds_two key bytes n nid w w1 c r f :
  ledger w1 = <[key := bytes]> (ledger w) ->
  writes w1 = writes w ++ [(key, bytes)] ->
  let w' := notified n nid (mkWorld (ledger w1) (writes w1) c r f) in
  dom (ledger w) ⊆ dom (ledger w')
  /\ writes w `prefix_of` writes w'
  /\ (length (writes w') <= length (writes w) + 2)%nat.
Proof.
  intros Hl Hw w'. subst w'.
  destruct (notified_spec n nid (mkWorld (ledger w1) (writes w1) c r f))
    as [[-> ->]|[-> ->]]; cbn [ledger writes]; rewrite Hl, Hw.
  - split; [|split].
    + etrans; [apply (dom_insert_subseteq _ key bytes)|apply dom_insert_subseteq].
    + rewrite <- app_assoc. by apply prefix_app_r.
    + rewrite !length_app. cbn. lia.
  - split; [|split].
    + apply dom_insert_subseteq.
    + by apply prefix_app_r.
    + rewrite length_app. cbn. lia.
Qed.

Section Append.
Variable Date_parse : string -> number.

(** X2.  A mutation that throws has written nothing: the ledger and the record
    of the writes are as before the call. *)
Theorem failed_mutation_writes_nothing :
  (forall productJson, writesNothingOnFailure (createProduct Date_parse productJson))
  /\ (forall productId newLocation arrivalDate,
        writesNothingOnFailure (shipProductTo Date_parse productId newLocation arrivalDate))
  /\ (forall productId qualityData,
        writesNothingOnFailure (addQualityRecord Date_parse productId qualityData))
  /\ (forall notificationId, writesNothingOnFailure (acknowledgeNotification notificationId)).
Proof.
  repeat apply conj.
  - intros productJson w e. rewrite createProduct_plan.
    destruct (createPlan _ w productJson) as [[key product]|e']; [|done].
    by destruct (faults w) as [|[e'|] fs].
  - intros productId newLocation arrivalDate w e. rewrite shipProductTo_plan.
    destruct (shipPlan _ w _ _ _) as [product'|e']; [|done].
    by destruct (faults w) as [|[e'|] fs].
  - intros productId qualityData w e. rewrite addQualityRecord_plan.
    destruct (qualityPlan _ w _ _) as [qualityRecord|e']; [|done].
    by destruct (faults w) as [|[e'|] fs].
  - intros notificationId w e. rewrite acknowledgeNotification_plan.
    destruct (acknowledgePlan w notificationId) as [n|e']; [|done].
    unfold putState. by destruct (faults w) as [|[e'|] fs].
Qed.

(** X3.  No mutation removes a key from the ledger, and each one only adds to
    the record of the writes: at most two writes for [createProduct],
    [shipProductTo] and [addQualityRecord], at most one for
    [acknowledgeNotification]. *)
Theorem mutations_only_add :
  (forall productJson, onlyAdds 2 (createProduct Date_parse productJson))
  /\ (forall productId newLocation arrivalDate,
        onlyAdds 2 (shipProductTo Date_parse productId newLocation arrivalDate))
  /\ (forall productId qualityData,
        onlyAdds 2 (addQualityRecord Date_parse productId qualityData))
  /\ (forall notificationId, onlyAdds 1 (acknowledgeNotification notificationId)).
Proof.
  assert (Hsame : forall w l ws c r f, l = ledger w -> ws = writes w -> forall n,
            dom (ledger w) ⊆ dom (ledger (mkWorld l ws c r f))
            /\ writes w `prefix_of` writes (mkWorld l ws c r f)
            /\ (length (writes (mkWorld l ws c r f)) <= length (writes w) + n)%nat).
  { intros w l ws c r f -> -> n. cbn. split; [done|]. split; [done|lia]. }
  assert (Hrefl : forall w n,
            dom (ledger w) ⊆ dom (ledger w)
            /\ writes w `prefix_of` writes w
            /\ (length (writes w) <= length (writes w) + n)%nat).
  { intros w n. split; [done|]. split; [done|lia]. }
  repeat apply conj.
  - intros productJson w. rewrite createProduct_plan.
    destruct (createPlan _ w productJson) as [[key product]|e']; [|apply Hrefl].
    destruct (faults w) as [|[e'|] fs] eqn:Ef; cbn [snd];
      [|by apply Hsame|]; by apply (onlyAdds_two key (JSON_stringify product)).
  - intros productId newLocation arrivalDate w. rewrite shipProductTo_plan.
    destruct (shipPlan _ w _ _ _) as [product'|e']; [|apply Hrefl].
    destruct (faults w) as [|[e'|] fs] eqn:Ef; cbn [snd];
      [|by apply Hsame|]; by apply (onlyAdds_two productId (JSON_stringify product')).
  - intros productId qualityData w. rewrite addQualityRecord_plan.
    destruct (qualityPlan _ w _ _) as [qualityRecord|e']; [|apply Hrefl].
    destruct (faults w) as [|[e'|] fs] eqn:Ef; cbn [snd];
      [|by apply Hsame|];
      by apply (onlyAdds_two (qualityKey productId w) (JSON_stringify qualityRecord)).
  - intros notificationId w. rewrite acknowledgeNotification_plan.
    destruct (acknowledgePlan w notificationId) as [n|e']; [|apply Hrefl].
    destruct (putState_spec notificationId (JSON_stringify n) w)
      as [(_ & -> & ->)|(_ & -> & ->)].
    + split; [|split].
      * apply dom_insert_subseteq.
      * by apply prefix_app_r.
      * rewrite length_app. cbn. lia.
    + split; [done|]. split; [done|lia].
Qed.

End Append.

(** *** Acknowledging *)

Lemma obj_set_idem k x o : obj_set k x (obj_set k x o) = obj_set k x o.
Proof.
  induction o as [|[k' x'] o IH]; cbn.
  - by rewrite String.eqb_refl.
  - destruct (String.eqb k k') eqn:E; cbn.
    + by rewrite String.eqb_refl.
    + by rewrite E, IH.
Qed.

(** X4.  [acknowledgeNotification] of a key that holds nothing, or empty bytes,
    throws the not-found error and leaves the world as it was. *)
Theorem acknowledgeNotification_missing (w : World) (notificationId : string) :
  default "" (ledger w !! notificationId) = "" ->
  acknowledgeNotification notificationId w
  = (Throw (Error ("Notification " +:+ notificationId +:+ " does not exist.")), w).
Proof.
  intros H. rewrite acknowledgeNotification_plan. unfold acknowledgePlan. by rewrite H.
Qed.

(** X5.  [acknowledgeNotification] does not look at what the document is: for
    every key that holds a JSON object, a notification or not, it stores
    the object again with [acknowledged] set to [true], every other
    property as it was and in its place, and touches no other key. *)
Theorem acknowledgeNotification_marks
    (w : World) (notificationId bytes : string) (o : list (string * value)) :
  ledger w !! notificationId = Some bytes ->
  JSON_parse bytes = Ok (Obj o) ->
  accepts w ->
  exists w' o',
    acknowledgeNotification notificationId w = (Ok tt, w')
    /\ JSON_parse (default "" (ledger w' !! notificationId)) = Ok (Obj o')
    /\ o' = obj_set "acknowledged" (Bool true) o
    /\ lookup_prop "acknowledged" o' = Bool true
    /\ (forall k, k <> "acknowledged" -> lookup_prop k o' = lookup_prop k o)
    /\ (forall key, key <> notificationId -> ledger w' !! key = ledger w !! key).
Proof.
  intros Hl Hp Hacc.
  assert (Hs : stored w notificationId = true).
  { apply (JSON_parse_stored w notificationId (Obj o)). by rewrite Hl. }
  rewrite acknowledgeNotification_plan. unfold acknowledgePlan.
  unfold stored in Hs. apply negb_true_iff in Hs. rewrite Hs.
  rewrite Hl. cbn [default from_option id]. rewrite Hp.
  cbn [mbind result_bind setProp]. rewrite (putState_accepts _ _ _ Hacc).
  eexists _, _. split; [reflexivity|]. unfold put. cbn [ledger].
  rewrite lookup_insert_eq. cbn [default from_option id].
  repeat apply conj.
  - apply JSON_parse_stringify, isJson_obj_set; [by eapply JSON_parse_isJson|done].
  - done.
  - apply lookup_obj_set_eq.
  - intros k Hk. by apply lookup_obj_set_ne.
  - intros key Hk. by rewrite lookup_insert_ne.
Qed.

(** X6.  Acknowledging twice is acknowledging once: the second call succeeds
    and leaves the ledger as the first one left it. *)
Theorem acknowledgeNotification_idempotent
    (w : World) (notificationId bytes : string) (o : list (string * value)) :
  ledger w !! notificationId = Some bytes ->
  JSON_parse bytes = Ok (Obj o) ->
  acceptsBoth w ->
  exists w1 w2,
    acknowledgeNotification notificationId w = (Ok tt, w1)
    /\ acknowledgeNotification notificationId w1 = (Ok tt, w2)
    /\ ledger w2 = ledger w1.
Proof.
  intros Hl Hp [Hacc Hacc2].
  set (o' := obj_set "acknowledged" (Bool true) o).
  assert (Hj : isJson (Obj o') = true).
  { apply isJson_obj_set; [by eapply JSON_parse_isJson|done]. }
  assert (Hrun : forall w0 b o0, ledger w0 !! notificationId = Some b ->
            JSON_parse b = Ok (Obj o0) -> accepts w0 ->
            acknowledgeNotification notificationId w0
            = (Ok tt, put notificationId
                        (JSON_stringify (Obj (obj_set "acknowledged" (Bool true) o0))) w0)).
  { intros w0 b o0 Hl0 Hp0 Hacc0.
    assert (Hs : stored w0 notificationId = true).
    { apply (JSON_parse_stored w0 notificationId (Obj o0)). by rewrite Hl0. }
    rewrite acknowledgeNotification_plan. unfold acknowledgePlan.
    unfold stored in Hs. apply negb_true_iff in Hs. rewrite Hs.
    rewrite Hl0. cbn [default from_option id]. rewrite Hp0.
    cbn [mbind result_bind setProp]. by rewrite (putState_accepts _ _ _ Hacc0). }
  eexists _, _. split; [by apply (Hrun w bytes o)|]. split.
  - apply (Hrun _ (JSON_stringify (Obj o')) o').
    + unfold put. cbn [ledger]. apply lookup_insert_eq.
    + by apply JSON_parse_stringify.
    + unfold accepts, put. cbn [faults]. done.
  - unfold put. cbn [ledger]. subst o'. rewrite obj_set_idem.
    apply insert_insert_eq.
Qed.

(** *** The query of the notifications *)

(** The query of [getNotifications] as a JSON value, for the limit [n]. *)
Definition notificationsSelector (n : Z) : value :=
  Obj [("selector", Obj [("type", Obj [("$exists", Bool true)])]);
       ("sort", Arr [Obj [("timestamp", Str "desc")]]);
       ("limit", Num n)].

Lemma notificationsQuery_text limit n :
  (if truthy limit then parseInt (toString limit) else Some 50) = Some n ->
  notificationsQuery limit = JSON_stringify (notificationsSelector n).
Proof.
  intros H. unfold notificationsQuery. rewrite H.
  cbv -[string_of_Z]. repeat f_equal.
  induction (string_of_Z n) as [|c x IH]; [done|]. by rewrite <- IH at 1.
Qed.

(** X7.  The query [getNotifications] sends is the JSON text of a selector on
    [type], a descending sort on [timestamp] and the limit
    [parseInt(limit)] (an integer a JavaScript number holds exactly), 50
    when [limit] is missing or empty; when [parseInt(limit)] is [NaN]
    the text ends in [NaN] and is not JSON. *)
Theorem notificationsQuery_limit (limit : value) :
  match (if truthy limit then parseInt (toString limit) else Some 50) with
  | Some n =>
      Z.abs n <= 2 ^ 53 ->
      notificationsQuery limit = JSON_stringify (notificationsSelector n)
      /\ JSON_parse (notificationsQuery limit) = Ok (notificationsSelector n)
  | None => JSON_parse (notificationsQuery limit) = Throw SyntaxError
  end.
Proof.
  destruct (if truthy limit then _ else _) as [n|] eqn:E.
  - intros _. rewrite (notificationsQuery_text _ _ E). split; [done|].
    by apply JSON_parse_stringify.
  - unfold notificationsQuery. rewrite E. vm_compute. reflexivity.
Qed.

(** *** A product with its components *)






Section Components.
Variable newProductWithHistory : value -> result (list (string * value)).



(** X9.  [validateProductData] does not ask for [componentProductIds], and
    [getProductWithHistory] goes through it without a check: for a stored
    product whose [componentProductIds] is missing, or is neither an array
    nor a string, the call throws a [TypeError]. *)
Theorem getProductWithHistory_not_iterable
    (w : World) (productId : string) (product : value) (fields : list (string * value)) :
  JSON_parse (default "" (ledger w !! productId)) = Ok product ->
  newProductWithHistory product = Ok fields ->
  iterate (field product "componentProductIds") = Throw TypeError ->
  getProductWithHistory newProductWithHistory productId w = (Throw TypeError, w).
Proof.
  intros Hp Hc Hi.
  pose proof (JSON_parse_stored _ _ _ Hp) as Hs.
  unfold getProductWithHistory, readProduct. run.
  unfold stored in Hs. rewrite Hs. cbn [negb].
  apply negb_true_iff in Hs. rewrite Hs, Hp, Hc. cbn [setProp].
  unfold field in Hi. destruct (getProp product "componentProductIds") as [v|e] eqn:E.
  - by rewrite Hi.
  - destruct product; cbn in E; simplify_eq; done.
Qed.

End Components.

(** *** Arguments that are refused *)

Lemma trimStart_idem_bounded n s :
  (String.length s <= n)%nat -> trimStart (trimStart s) = trimStart s.
Proof.
  revert s. induction n as [|n IH]; intros s Hlen.
  { destruct s; [done|cbn in Hlen; lia]. }
  destruct s as [|c s1]; [done|]. cbn [String.length] in Hlen.
  cbn [trimStart]. destruct (isWhiteSpace c) eqn:Hw; [apply IH; lia|].
  destruct s1 as [|d s2]; [cbn [trimStart]; by rewrite Hw|].
  cbn [String.length] in Hlen.
  destruct (isWhiteSpace2 c d) eqn:Hw2; [apply IH; lia|].
  destruct s2 as [|e s3]; [cbn [trimStart]; by rewrite Hw, Hw2|].
  cbn [String.length] in Hlen.
  destruct (isWhiteSpace3 c d e) eqn:Hw3; [apply IH; lia|].
  cbn [trimStart]. by rewrite Hw, Hw2, Hw3.
Qed.

(** [s.trim() === ''] says that [s] is white space only. *)
Lemma trim_blank s : String.eqb (trim s) "" = isBlank s.
Proof.
  unfold trim, isBlank. destruct (trimStart s) as [|c t] eqn:E; [done|].
  cbn [trimEnd]. unfold isBlank.
  assert (Ht : trimStart (String c t) = String c t).
  { rewrite <- E. by apply (trimStart_idem_bounded (String.length s)). }
  by rewrite Ht.
Qed.

(** The error of a product id that holds nothing. *)
Definition doesNotExist {A} (productId : string) : result A :=
  Throw (Error ("The product " +:+ productId +:+ " does not exist.")).

Section Refusals.
Variable Date_parse : string -> number.
Variable newProductWithHistory : value -> result (list (string * value)).

(** X10.  Every transaction that takes the id of a product it expects to find
    ([getProduct], [getProductWithHistory], [shipProductTo],
    [addQualityRecord]) looks for it first: when the key holds nothing, or
    empty bytes, it throws the does-not-exist error whatever the other
    arguments are, and leaves the world as it was. *)
Theorem product_not_found (w : World) (productId : string) :
  stored w productId = false ->
  getProduct productId w = (doesNotExist productId, w)
  /\ getProductWithHistory newProductWithHistory productId w = (doesNotExist productId, w)
  /\ (forall newLocation arrivalDate,
        shipProductTo Date_parse productId newLocation arrivalDate w
        = (doesNotExist productId, w))
  /\ (forall qualityData,
        addQualityRecord Date_parse productId qualityData w = (doesNotExist productId, w)).
Proof.
  intros Hs. unfold doesNotExist. repeat apply conj.
  - unfold getProduct. run. unfold stored in Hs. by rewrite Hs.
  - unfold getProductWithHistory. run. unfold stored in Hs. by rewrite Hs.
  - intros newLocation arrivalDate. rewrite shipProductTo_plan. unfold shipPlan.
    by rewrite Hs.
  - intros qualityData. rewrite addQualityRecord_plan. unfold qualityPlan.
    by rewrite Hs.
Qed.

(** X11.  For a product that exists, [shipProductTo] refuses a location that is
    blank, then a date that is blank, then a date without a [T] (a date
    alone, such as [2021-06-26], whatever [Date.parse] makes of it), each
    with its own error, and leaves the world as it was. *)
Theorem shipProductTo_refuses (w : World) (productId newLocation arrivalDate : string) :
  stored w productId = true ->
  (isBlank newLocation = true ->
   shipProductTo Date_parse productId newLocation arrivalDate w
   = (Throw (Error "The 'newLocation' field is required."), w))
  /\ (isBlank newLocation = false -> isBlank arrivalDate = true ->
      shipProductTo Date_parse productId newLocation arrivalDate w
      = (Throw (Error "The 'arrivalDate' field is required."), w))
  /\ (isBlank newLocation = false -> isBlank arrivalDate = false ->
      str_includes "T" arrivalDate = false ->
      shipProductTo Date_parse productId newLocation arrivalDate w
      = (Throw (Error "Invalid arrival date format. Use ISO 8601 format."), w)).
Proof.
  intros Hs.
  pose proof trim_blank as Hb.
  repeat apply conj.
  - intros HL. rewrite shipProductTo_plan. unfold shipPlan, requireField.
    by rewrite Hs, !Hb, HL.
  - intros HL HT. rewrite shipProductTo_plan. unfold shipPlan, requireField.
    by rewrite Hs, !Hb, HL, HT.
  - intros HL HT Hno. rewrite shipProductTo_plan. unfold shipPlan, requireField, isValidDate.
    rewrite Hs, !Hb, HL, HT. cbn [negb mbind result_bind].
    destruct (newDate Date_parse (Str arrivalDate)); [|done].
    cbn [includes_T]. by rewrite Hno.
Qed.

End Refusals.

(** *** What validation lets through *)

(** A field [requireField] accepts: not [undefined], not [null], not a
    blank string. *)
Definition present (v : value) : bool :=
  match v with
  | Undefined | Null => false
  | Str s => negb (isBlank s)
  | _ => true
  end.

Lemma requireField_present v fieldName :
  requireField v fieldName
  = if present v then Ok tt
    else Throw (Error ("The '" +:+ fieldName +:+ "' field is required.")).
Proof.
  destruct v; cbn; try done. rewrite trim_blank. by destruct (isBlank s).
Qed.

Definition returnsTrue (r : result bool) : bool :=
  match r with
  | Ok true => true
  | _ => false
  end.

Section Validity.
Variable Date_parse : string -> number.

(** What [validateProductData] asks of a product. *)
Definition validProduct (p : value) : bool :=
  let current := field (field p "locationData") "current" in
  forallb (fun k => present (field p k))
    ["id"; "name"; "barcode"; "placeOfOrigin"; "productionDate"; "expirationDate";
     "unitQuantity"; "unitQuantityType"; "unitPrice"; "category"]
  && present (field current "location")
  && present (field current "arrivalDate")
  && returnsTrue (isValidDate Date_parse (field p "productionDate"))
  && returnsTrue (isValidDate Date_parse (field p "expirationDate"))
  && returnsTrue (isValidDate Date_parse (field current "arrivalDate"))
  && num_lt (newDate Date_parse (field p "productionDate"))
       (newDate Date_parse (field p "expirationDate"))
  && negb (num_le (toNumber (field p "unitQuantity")) (Some 0))
  && negb (truthy (field p "batchQuantity")
           && num_le (toNumber (field p "batchQuantity")) (Some 0))
  && negb (num_gt (toNumber (field (field p "name") "length")) (Some 100))
  && negb (num_gt (toNumber (field (field p "placeOfOrigin") "length")) (Some 200)).

Lemma isValidDate_valid v :
  returnsTrue (isValidDate Date_parse v) = true -> is_Some (newDate Date_parse v).
Proof. unfold isValidDate. by destruct (newDate Date_parse v). Qed.

Ltac decide_on b :=
  destruct b eqn:?;
  [| split; intros Hcontra; cbn in Hcontra; rewrite ?andb_false_r in Hcontra;
     discriminate Hcontra ].

(** [validProduct] decides [validateProductData]. *)
Lemma validateProductData_validProduct (p : value) :
  validateProductData Date_parse p = Ok tt <-> validProduct p = true.
Proof.
  destruct p as [| |b|n|s|l|o]; try (split; intros H; discriminate H).
  unfold validProduct, validateProductData, field.
  cbn [getProp forallb mbind result_bind].
  rewrite !requireField_present.
  decide_on (present (lookup_prop "id" o)).
  decide_on (present (lookup_prop "name" o)).
  decide_on (present (lookup_prop "barcode" o)).
  decide_on (present (lookup_prop "placeOfOrigin" o)).
  decide_on (present (lookup_prop "productionDate" o)).
  decide_on (present (lookup_prop "expirationDate" o)).
  decide_on (present (lookup_prop "unitQuantity" o)).
  decide_on (present (lookup_prop "unitQuantityType" o)).
  decide_on (present (lookup_prop "unitPrice" o)).
  decide_on (present (lookup_prop "category" o)).
  cbn [mbind result_bind andb].
  destruct (lookup_prop "locationData" o) as [| |b|n|s|l|ld];
    try (split; intros H; cbn in H; discriminate H).
  cbn [getProp mbind result_bind].
  destruct (lookup_prop "current" ld) as [| |b|n|s|l|cur];
    try (split; intros H; cbn in H; discriminate H).
  cbn [getProp mbind result_bind].
  rewrite !requireField_present.
  decide_on (present (lookup_prop "location" cur)).
  decide_on (present (lookup_prop "arrivalDate" cur)).
  cbn [mbind result_bind andb].
  destruct (isValidDate Date_parse (lookup_prop "productionDate" o)) as [[]|e] eqn:Hd1;
    try (split; intros H; cbn in H; discriminate H).
  destruct (isValidDate Date_parse (lookup_prop "expirationDate" o)) as [[]|e] eqn:Hd2;
    try (split; intros H; cbn in H; discriminate H).
  destruct (isValidDate Date_parse (lookup_prop "arrivalDate" cur)) as [[]|e] eqn:Hd3;
    try (split; intros H; cbn in H; discriminate H).
  cbn [mbind result_bind andb negb returnsTrue].
  destruct (isValidDate_valid (lookup_prop "productionDate" o)) as [tp Htp];
    [by rewrite Hd1|].
  destruct (isValidDate_valid (lookup_prop "expirationDate" o)) as [te Hte];
    [by rewrite Hd2|].
  rewrite Htp, Hte. cbn [num_le num_lt].
  rewrite (Z.ltb_antisym te tp).
  destruct (te <=? tp) eqn:Hle;
    [split; intros H; cbn in H; rewrite ?andb_false_r in H; discriminate H|].
  cbn [mbind result_bind andb negb].
  destruct (num_le (toNumber (lookup_prop "unitQuantity" o)) (Some 0)) eqn:Hq;
    [split; intros H; cbn in H; discriminate H|].
  cbn [mbind result_bind andb negb].
  destruct (truthy (lookup_prop "batchQuantity" o)
            && num_le (toNumber (lookup_prop "batchQuantity" o)) (Some 0)) eqn:Hb;
    [split; intros H; cbn in H; discriminate H|].
  cbn [mbind result_bind andb negb].
  assert (Hn : exists len, getProp (lookup_prop "name" o) "length" = Ok len).
  { destruct (lookup_prop "name" o); try done; cbn; eauto. }
  destruct Hn as [len1 ->].
  assert (Hn : exists len, getProp (lookup_prop "placeOfOrigin" o) "length" = Ok len).
  { destruct (lookup_prop "placeOfOrigin" o); try done; cbn; eauto. }
  destruct Hn as [len2 ->].
  cbn [mbind result_bind].
  destruct (num_gt (toNumber len1) (Some 100)) eqn:Hl1;
    [split; intros H; cbn in H; discriminate H|].
  destruct (num_gt (toNumber len2) (Some 200)) eqn:Hl2;
    [split; intros H; cbn in H; discriminate H|].
  done.
Qed.










Lemma present_defined v : present v = true -> v <> Undefined.
Proof. by destruct v. Qed.

Lemma validProduct_shape p :
  validProduct p = true ->
  exists o ld cur,
    p = Obj o /\ lookup_prop "locationData" o = Obj ld
    /\ lookup_prop "current" ld = Obj cur
    /\ present (lookup_prop "location" cur) = true
    /\ present (lookup_prop "arrivalDate" cur) = true.
Proof.
  unfold validProduct. intros Hv.
  repeat match type of Hv with
         | _ && _ = true => apply andb_prop in Hv as [Hv ?]
         end.
  destruct p as [| |b|n|s|l|o]; try done.
  unfold field in *. cbn [getProp] in *.
  destruct (lookup_prop "locationData" o) as [| |b|n|s|l|ld] eqn:Hld; try done.
  cbn [getProp] in *.
  destruct (lookup_prop "current" ld) as [| |b|n|s|l|cur] eqn:Hcur; try done.
  cbn [getProp] in *. by exists o, ld, cur.
Qed.

(** X13.  A shipment keeps a valid product valid: when the stored product
    passes [validateProductData] and [shipProductTo] returns, the product
    stored afterwards passes it too. *)
Theorem shipProductTo_keeps_valid
    (w w' : World) (productId newLocation arrivalDate : string) (product : value) :
  JSON_parse (default "" (ledger w !! productId)) = Ok product ->
  validateProductData Date_parse product = Ok tt ->
  shipProductTo Date_parse productId newLocation arrivalDate w = (Ok tt, w') ->
  notificationId w <> productId ->
  exists product',
    getProduct productId w' = (Ok product', w')
    /\ validateProductData Date_parse product' = Ok tt.
Proof.
  intros Hp Hv Hship Hne. apply validateProductData_validProduct in Hv.
  destruct (validProduct_shape _ Hv) as (o & ld & cur & -> & Hld & Hcur & HpL & HpA).
  rewrite shipProductTo_plan in Hship. unfold shipPlan in Hship.
  rewrite (JSON_parse_stored _ _ _ Hp) in Hship. cbn [negb] in Hship.
  rewrite !requireField_present in Hship. cbn [present] in Hship.
  destruct (isBlank newLocation) eqn:HL; [done|].
  destruct (isBlank arrivalDate) eqn:HT; [done|].
  cbn [negb mbind result_bind] in Hship.
  destruct (isValidDate Date_parse (Str arrivalDate)) as [[]|e] eqn:Hd; try done.
  cbn [negb mbind result_bind] in Hship. rewrite Hp in Hship.
  cbn [mbind result_bind] in Hship.
  destruct (lookup_prop "previous" ld) as [| |b|n|s|prev|po] eqn:Hprev;
    try (unfold moveTo in Hship; cbn [getProp mbind result_bind] in Hship;
         rewrite Hld in Hship; cbn [getProp mbind result_bind] in Hship;
         rewrite Hprev, Hcur in Hship; cbn in Hship; discriminate Hship).
  rewrite (moveTo_product o ld prev cur newLocation arrivalDate Hld Hprev Hcur) in Hship.
  match type of Hship with context [JSON_stringify ?p] => set (product' := p) in * end.
  assert (Hj : isJson (Obj o) = true) by (by eapply JSON_parse_isJson).
  assert (Hjld : isJson (Obj ld) = true) by (by eapply isJson_lookup_Obj).
  assert (Hjprev : isJson (Arr prev) = true)
    by (by eapply (isJson_lookup_Obj "previous" ld)).
  assert (Hjcur : isJson (Obj cur) = true)
    by (by eapply (isJson_lookup_Obj "current" ld)).
  assert (Hj' : isJson product' = true).
  { subst product'. apply isJson_obj_set; [done|].
    apply isJson_obj_set.
    - apply isJson_obj_set; [done|]. cbn [isJson] in Hjprev |- *.
      rewrite forallb_app, Hjprev. cbn.
      rewrite (isJson_lookup _ _ Hjcur (present_defined _ HpA)),
        (isJson_lookup _ _ Hjcur (present_defined _ HpL)). done.
    - by do 2 (apply isJson_obj_set; [|done]). }
  exists product'. split.
  - apply getProduct_stored; [|done].
    destruct (faults w) as [|[e|] fs]; try done.
    all: injection Hship as <-; rewrite ledger_notified_ne by done; cbn;
      apply lookup_insert_eq.
  - apply validateProductData_validProduct. clear Hship.
    unfold validProduct, field in Hv |- *. subst product'.
    cbn [getProp forallb] in Hv |- *. rewrite Hld in Hv. cbn [getProp] in Hv.
    rewrite Hcur in Hv. cbn [getProp] in Hv.
    rewrite !lookup_obj_set_eq. cbn [getProp]. rewrite !lookup_obj_set_eq. cbn [getProp].
    rewrite !(lookup_obj_set_ne _ "locationData") by done.
    rewrite lookup_obj_set_eq, (lookup_obj_set_ne "arrivalDate" "location") by done.
    rewrite lookup_obj_set_eq. cbn [present]. rewrite HL, HT, Hd. cbn [negb returnsTrue].
    repeat match goal with
           | H : _ && _ = true |- _ => apply andb_prop in H as [? ?]
           end.
    repeat (apply andb_true_intro; split); done.
Qed.

End Validity.

Lemma stored_insert key bytes key' (l : gmap string string) ws c r f :
  String.eqb (default "" (l !! key)) "" = false ->
  String.eqb bytes "" = false ->
  stored (mkWorld (<[key' := bytes]> l) ws c r f) key = true.
Proof.
  intros H Hb. unfold stored. cbn [ledger].
  destruct (decide (key' = key)) as [->|Hne].
  - rewrite lookup_insert_eq. cbn. by rewrite Hb.
  - rewrite lookup_insert_ne by done. by rewrite H.
Qed.

Lemma stored_notified n nid w key :
  stored w key = true -> stored (notified n nid w) key = true.
Proof.
  intros Hs. unfold stored in *. apply negb_true_iff in Hs.
  destruct (notified_spec n nid w) as [[-> _]|[-> _]].
  - destruct (decide (nid = key)) as [->|Hne].
    + rewrite lookup_insert_eq. cbn. by rewrite stringify_not_empty.
    + rewrite lookup_insert_ne by done. by rewrite Hs.
  - by rewrite Hs.
Qed.

Section Sequences.
Variable Date_parse : string -> number.

(** X14.  A product is created once: after a [createProduct] that returned,
    [productExists] of the id is true and the same [createProduct] again
    throws the already-exists error, leaving the world as it is. *)
Theorem createProduct_twice (w w' : World) (productJson : string) :
  createProduct Date_parse productJson w = (Ok tt, w') ->
  exists id,
    productExists id w' = (Ok true, w')
    /\ createProduct Date_parse productJson w'
       = (Throw (Error ("The product " +:+ id +:+ " already exists.")), w').
Proof.
  rewrite createProduct_plan.
  destruct (createPlan Date_parse w productJson) as [[key product]|e] eqn:Hplan; [|done].
  intros Hrun.
  assert (Hs : stored w' key = true).
  { destruct (faults w) as [|[e|] fs]; try done.
    all: injection Hrun as <-; apply stored_notified; unfold stored, tick, draw, put; cbn;
      rewrite lookup_insert_eq; cbn; by rewrite stringify_not_empty. }
  exists key. split.
  - unfold productExists. run. unfold stored in Hs. by rewrite Hs.
  - rewrite createProduct_plan. unfold createPlan in *.
    destruct (JSON_parse productJson) as [p|]; [|done]. cbn [mbind result_bind] in *.
    destruct (validateProductData Date_parse p); [|done]. cbn [mbind result_bind] in *.
    destruct (getProp p "id") as [[| | | |k| |]|]; try done. cbn [mbind result_bind] in *.
    destruct (stored w k); [done|]. injection Hplan as -> _. by rewrite Hs.
Qed.

Lemma lookup_defined k o :
  distinct (map fst o) = true -> lookup_prop k (defined o) = lookup_prop k o.
Proof.
  unfold lookup_prop, defined. induction o as [|[k' x] o IH]; [done|].
  cbn [map fst distinct]. intros [Hk Hd]%andb_prop. cbn [List.filter snd find fst].
  destruct (String.eqb_spec k k') as [->|Hne].
  - destruct x; cbn [isUndefined negb find fst]; rewrite ?String.eqb_refl; try done.
    cbn [snd]. clear IH Hd. induction o as [|[k2 x2] o IH2]; [done|].
    cbn [map fst existsb] in Hk. apply negb_true_iff, orb_false_iff in Hk as [Hk Hk'].
    cbn [List.filter snd]. destruct (negb (isUndefined x2)); cbn [find fst]; rewrite ?Hk;
      apply IH2; by rewrite Hk'.
  - apply String.eqb_neq in Hne.
    destruct (negb (isUndefined x)); cbn [find fst]; rewrite ?Hne; by apply IH.
Qed.

(** A stored notification reads back with the fields it was built with. *)
Lemma notification_fields stamp rnd pid ty msg ts loc sev :
  jsonOrUndefined pid -> jsonOrUndefined loc ->
  let n := notification stamp rnd pid ty msg ts loc sev in
  exists doc,
    JSON_parse (JSON_stringify n) = Ok doc /\ forall k, field doc k = field n k.
Proof.
  intros Hpid Hloc n. subst n. unfold notification.
  rewrite stringify_defined.
  match goal with |- context [Obj (defined ?o)] => set (fields := o) end.
  assert (Hj : isJson (Obj (defined fields)) = true).
  { subst fields.
    destruct Hpid as [->|Hp], Hloc as [->|Hl].
    - reflexivity.
    - destruct loc; try done; cbn in Hl |- *; by rewrite ?Hl.
    - destruct pid; try done; cbn in Hp |- *; by rewrite ?Hp.
    - destruct pid; try done; destruct loc; try done; cbn in Hp, Hl |- *;
        by rewrite ?Hp, ?Hl. }
  exists (Obj (defined fields)). split; [by apply JSON_parse_stringify|].
  intros k. unfold field. cbn [getProp]. by rewrite lookup_defined.
Qed.

(** X15.  The notification of a quality inspection carries the severity the
    score gives it: [info] from 80 on, [warning] from 60 to 79, [error]
    below 60; it is of type [quality_check], names the product, and is
    not acknowledged. *)
Theorem addQualityRecord_severity
    (w w' : World) (productId qualityData : string) (qualityRecord : value) (score : Z) :
  addQualityRecord Date_parse productId qualityData w = (Ok tt, w') ->
  acceptsBoth w ->
  JSON_parse qualityData = Ok qualityRecord ->
  field qualityRecord "score" = Num score ->
  exists doc,
    JSON_parse (default "" (ledger w' !! notificationId (tick w))) = Ok doc
    /\ field doc "severity"
       = Str (if 80 <=? score then "info" else if 60 <=? score then "warning" else "error")
    /\ field doc "type" = Str "quality_check"
    /\ field doc "productId" = Str productId
    /\ field doc "acknowledged" = Bool false.
Proof.
  rewrite addQualityRecord_plan. unfold qualityPlan.
  destruct (negb (stored w productId)); [done|].
  intros Hrun [Hacc Hacc2] Hp Hscore. rewrite Hp in Hrun. cbn [mbind result_bind] in Hrun.
  destruct (validateQualityRecord Date_parse qualityRecord) eqn:Hv; [|done].
  cbn [mbind result_bind] in Hrun.
  assert (Hj : isJson qualityRecord = true) by (by eapply JSON_parse_isJson).
  unfold accepts in Hacc.
  set (w1 := put (qualityKey productId w) (JSON_stringify qualityRecord) (tick w)) in *.
  assert (Hw' : w' = notified (qualityNotification qualityRecord productId w1)
                       (notificationId w1) (tick (draw (tick w1)))).
  { destruct (faults w) as [|[e|] fs]; try done; by injection Hrun as <-. }
  assert (Hacc1 : accepts (tick (draw (tick w1)))).
  { unfold accepts, tick, draw, w1, put. cbn [faults]. done. }
  unfold qualityNotification in Hw'.
  edestruct (notification_fields (hd 0 (clock w1)) (hd "" (random w1)) (Str productId)
               "quality_check") as (doc & Hdoc & Hf);
    [by right | by apply (jsonOrUndefined_field qualityRecord "location") |].
  exists doc. split.
  - rewrite Hw'. change (notificationId (tick w)) with (notificationId w1).
    rewrite ledger_notified_eq by done. exact Hdoc.
  - rewrite !Hf. repeat apply conj; try reflexivity.
    change (field (notification _ _ _ _ _ _ _ ?s) "severity") with (Str s).
    rewrite Hscore. reflexivity.
Qed.

Lemma notification_key_outside productId nid_rest :
  inQualityRange productId ("NOTIF_" +:+ nid_rest) = false.
Proof. reflexivity. Qed.

(** X16.  A record [addQualityRecord] stored is among those
    [getQualityRecords] returns for the product, when no entry of the
    product's key range holds [null] (on which the comparator of the sort
    throws). *)
Theorem addQualityRecord_then_getQualityRecords
    (w w' : World) (productId qualityData : string) (qualityRecord : value) :
  addQualityRecord Date_parse productId qualityData w = (Ok tt, w') ->
  JSON_parse qualityData = Ok qualityRecord ->
  (forall key bytes,
     ledger w !! key = Some bytes -> inQualityRange productId key = true ->
     JSON_parse bytes <> Ok Null) ->
  exists l,
    getQualityRecords Date_parse productId w' = (Ok l, w')
    /\ qualityRecord ∈ l.
Proof.
  rewrite addQualityRecord_plan. unfold qualityPlan.
  destruct (negb (stored w productId)); [done|].
  intros Hrun Hp Hnull. rewrite Hp in Hrun. cbn [mbind result_bind] in Hrun.
  destruct (validateQualityRecord Date_parse qualityRecord) as [[]|] eqn:Hv; [|done].
  cbn [mbind result_bind] in Hrun.
  destruct (validateQualityRecord_Obj _ _ Hv) as [o ->].
  assert (Hj : isJson (Obj o) = true) by (by eapply JSON_parse_isJson).
  set (qkey := qualityKey productId w) in *.
  set (qbytes := JSON_stringify (Obj o)) in *.
  assert (Hl : forall key bytes, ledger w' !! key = Some bytes ->
            inQualityRange productId key = true ->
            (key = qkey /\ bytes = qbytes) \/ ledger w !! key = Some bytes).
  { intros key bytes Hk Hr.
    assert (Hput : forall l', l' = <[qkey := qbytes]> (ledger w) ->
              l' !! key = Some bytes ->
              (key = qkey /\ bytes = qbytes) \/ ledger w !! key = Some bytes).
    { intros l' -> Hk'. destruct (decide (key = qkey)) as [->|Hne].
      - rewrite lookup_insert_eq in Hk'. left. split; congruence.
      - rewrite lookup_insert_ne in Hk' by done. by right. }
    destruct (faults w) as [|[e|] fs]; try done.
    all: injection Hrun as <-.
    all: match type of Hk with
         | ledger (notified ?n ?nid ?w0) !! _ = _ =>
             destruct (notified_spec n nid w0) as [[Hn _]|[Hn _]]; rewrite Hn in Hk
         end.
    all: try (apply (Hput _ eq_refl); exact Hk).
    all: destruct (decide (key = notificationId (put qkey qbytes (tick w)))) as [->|Hne];
      [unfold notificationId in Hr; by rewrite notification_key_outside in Hr|].
    all: rewrite lookup_insert_ne in Hk by done; apply (Hput _ eq_refl); exact Hk. }
  assert (Hq : ledger w' !! qkey = Some qbytes).
  { destruct (faults w) as [|[e|] fs]; try done.
    all: injection Hrun as <-.
    all: rewrite ledger_notified_ne; [cbn; apply lookup_insert_eq|].
    all: unfold notificationId, qkey, qualityKey; intros [=]. }
  unfold getQualityRecords, getStateByRange. cbv [mbind M_bind mret M_ret lift].
  set (range := List.filter _ (entries (ledger w'))).
  assert (Hrange : forall k b, (k, b) ∈ range <->
            ledger w' !! k = Some b /\ inQualityRange productId k = true).
  { intros k b. subst range. rewrite list_elem_of_In, List.filter_In.
    rewrite <- list_elem_of_In, elem_of_entries. done. }
  assert (Hall : Forall notNull (parseAll range)).
  { apply Forall_forall. intros v Hin.
    destruct (elem_of_parseAll_inv _ _ Hin) as (k & b & Hkb & Hpb).
    apply Hrange in Hkb as [Hk Hr].
    destruct (Hl k b Hk Hr) as [[-> ->]|Hold].
    - subst qbytes. rewrite (JSON_parse_stringify _ Hj) in Hpb. by injection Hpb as <-.
    - split.
      + intros ->. by eapply Hnull.
      + intros ->. apply JSON_parse_isJson in Hpb. done. }
  destruct (sort_by_returns Date_parse _ Hall) as (l & -> & Hperm).
  exists l. split; [done|]. rewrite Hperm.
  eapply elem_of_parseAll; [|by apply JSON_parse_stringify].
  apply Hrange. split; [exact Hq|]. apply qualityKey_inQualityRange.
Qed.

End Sequences.

(** *** Queries by a field *)














(** *** The figures of the analytics *)

(** The sum of the counts of a table. *)
Definition total (stats : gmap string Z) : Z := map_fold (fun _ n acc => n + acc) 0 stats.

Lemma total_bump key stats : total (bump key stats) = total stats + 1.
Proof.
  unfold total, bump. destruct (stats !! key) as [n|] eqn:E; cbn [default from_option id].
  - rewrite <- insert_delete_eq.
    rewrite map_fold_insert_L; [|intros; lia|apply lookup_delete_eq].
    rewrite (map_fold_delete_L _ _ key n stats); [lia|intros; lia|done].
  - rewrite map_fold_insert_L; [lia|intros; lia|done].
Qed.

(** A category or a location that is not the name of a member of
    [Object.prototype]: as a key of one of the two tables, such a name is
    not counted as the others are. *)
Definition ordinaryKey (v : value) : Prop := toString v ∉ prototypeNames.

Section Figures.
Variable Date_parse : string -> number.
Variable toLocaleMonthShort : number -> string.

Lemma tallyProduct_totals p t t' :
  tallyProduct Date_parse p t = Ok t' ->
  total (t_categoryStats t') = total (t_categoryStats t) + 1
  /\ total (t_locationStats t') = total (t_locationStats t) + 1
  /\ (0 <= t_onTimeDeliveries t <= t_deliveryCount t ->
      0 <= t_onTimeDeliveries t' <= t_deliveryCount t').
Proof.
  unfold tallyProduct.
  repeat match goal with
         | |- context [mbind _ ?x] =>
             lazymatch x with
             | context [mbind] => fail
             | _ => destruct x; cbn [mbind result_bind]; [|done]
             end
         end.
  destruct (num_gt _ _).
  2: { intros [= <-]. cbn. by rewrite !total_bump. }
  repeat match goal with
         | |- context [mbind _ ?x] =>
             lazymatch x with
             | context [mbind] => fail
             | _ => destruct x; cbn [mbind result_bind]; [|done]
             end
         end.
  intros [= <-]. cbn. rewrite !total_bump. repeat split; try done.
  all: destruct (num_le _ _); lia.
Qed.

Lemma tallyProducts_totals ps t t' :
  tallyProducts Date_parse ps t = Ok t' ->
  total (t_categoryStats t') = total (t_categoryStats t) + Z.of_nat (length ps)
  /\ total (t_locationStats t') = total (t_locationStats t) + Z.of_nat (length ps)
  /\ (0 <= t_onTimeDeliveries t <= t_deliveryCount t ->
      0 <= t_onTimeDeliveries t' <= t_deliveryCount t').
Proof.
  revert t. induction ps as [|p ps IH]; intros t; cbn [tallyProducts].
  - intros [= <-]. cbn. lia.
  - destruct (tallyProduct Date_parse p t) as [t1|] eqn:E; [|done]. cbn [mbind result_bind].
    intros H. destruct (tallyProduct_totals _ _ _ E) as (H1 & H2 & H3).
    destruct (IH _ H) as (H4 & H5 & H6). rewrite H4, H5, H1, H2.
    cbn [length]. repeat split; try lia; apply H6, H3; lia.
Qed.

Lemma countWhere_bounds f ps n :
  countWhere f ps = Ok n -> 0 <= n <= Z.of_nat (length ps).
Proof.
  revert n. induction ps as [|p ps IH]; intros n; cbn [countWhere].
  - intros [= <-]. cbn. lia.
  - destruct (previousLength p) as [len|]; [|done]. cbn [mbind result_bind].
    destruct (countWhere f ps) as [m|]; [|done]. cbn [mbind result_bind].
    specialize (IH m eq_refl). intros [= <-]. cbn [length]. destruct (f len); lia.
Qed.

Lemma round_div_percent a b : 0 <= a <= b -> 0 < b -> 0 <= round_div (a * 100) b <= 100.
Proof.
  intros Ha Hb. unfold round_div. split.
  - apply Z.div_pos; lia.
  - assert ((2 * (a * 100) + b) / (2 * b) < 101); [|lia].
    apply Z.div_lt_upper_bound; lia.
Qed.

(** X18.  The figures [getAnalyticsData] returns fit together: [totalProducts]
    is the number of documents [queryAllProducts] returns; the counts of
    [categoryStats] add up to it, and so do those of [locationStats] (when
    no category or location is the name of a member of
    [Object.prototype]); [onTimeDeliveryRate] is a percentage, from 0 to
    100; [activeShipments] and [completedDeliveries] are each from 0 to
    [totalProducts]. *)
Theorem getAnalyticsData_figures (w w' : World) (a : AnalyticsData) :
  getAnalyticsData Date_parse toLocaleMonthShort w = (Ok a, w') ->
  exists ps : list value,
    queryAllProducts w = (Ok ps, w)
    /\ totalProducts a = Z.of_nat (length ps)
    /\ ((forall p, p ∈ ps ->
           ordinaryKey (field p "category")
           /\ ordinaryKey (field (field (field p "locationData") "current") "location")) ->
        total (categoryStats a) = totalProducts a
        /\ total (locationStats a) = totalProducts a)
    /\ 0 <= onTimeDeliveryRate a <= 100
    /\ 0 <= activeShipments a <= totalProducts a
    /\ 0 <= completedDeliveries a <= totalProducts a.
Proof.
  unfold getAnalyticsData. cbv [mbind M_bind mret M_ret lift try_catch].
  rewrite queryAllProducts_run, getAllQualityRecords_run.
  set (ps := parseAll _).
  destruct (tallyProducts Date_parse ps _) as [t|] eqn:Ht; [|done].
  destruct (tallyQuality _ _ _) as [tot count].
  destruct (countWhere _ ps) as [active|] eqn:Ha; [|done].
  destruct (countWhere (fun len => num_ge len (Some 2)) ps) as [completed|] eqn:Hc; [|done].
  intros [= <- <-]. exists ps. split; [done|]. cbn.
  destruct (tallyProducts_totals _ _ _ Ht) as (H1 & H2 & H3). cbn in H1, H2, H3.
  split; [done|]. split; [|split; [|split]].
  - intros _. rewrite H1, H2. unfold total. rewrite !map_fold_empty. lia.
  - destruct (t_deliveryCount t >? 0) eqn:E; [|lia].
    apply round_div_percent; lia.
  - by apply countWhere_bounds in Ha.
  - by apply countWhere_bounds in Hc.
Qed.

End Figures.

End ContractProperties.

(* ===================================================================== *)
(** ** The gateway: breaker, permissions, login                           *)
(* ===================================================================== *)

Module GatewayFacts.
Import Js Gateway.

(** *** The circuit breaker *)

(** The calls of [execute] one after the other, each with the outcome of
    its operation. *)
Fixpoint executeAll {A} (operations : list (result A)) (cb : CircuitBreaker)
    (clock : list Z) : CircuitBreaker * list Z :=
  match operations with
  | [] => (cb, clock)
  | operation :: rest =>
      let '(_, cb, clock) := execute operation cb clock in
      executeAll rest cb clock
  end.

(** What holds of a breaker between two calls: it is closed with fewer
    failures than the threshold, or open with at least as many and the
    time of the last one; it is never left half open. *)
Definition settled (cb : CircuitBreaker) : Prop :=
  1 <= failureThreshold cb
  /\ 0 <= failureCount cb
  /\ match state cb with
     | CLOSED => failureCount cb < failureThreshold cb
     | OPEN => failureThreshold cb <= failureCount cb /\ is_Some (lastFailureTime cb)
     | HALF_OPEN => False
     end.

Lemma execute_settled {A} (operation : result A) cb clock :
  settled cb ->
  let cb' := snd (fst (execute operation cb clock)) in
  settled cb'
  /\ failureThreshold cb' = failureThreshold cb /\ timeout cb' = timeout cb.
Proof.
  intros (Hn & H0 & Hs). unfold execute, settled, onSuccess, onFailure.
  destruct cb as [n t c l []]; cbn in *.
  - destruct operation; cbn; [repeat split; lia|].
    destruct (Z.leb_spec n (c + 1)); cbn; repeat split; try lia; eauto.
  - destruct Hs as [Hs Hl]. destruct (t <? _); cbn; [|by repeat apply conj].
    destruct operation; cbn; [repeat split; lia|].
    destruct (Z.leb_spec n (c + 1)); cbn; repeat split; try lia; eauto.
  - done.
Qed.

(** X19.  Whatever the operations do and whatever the clock reads, a breaker
    made with a threshold of 1 or more is, after every call, closed with
    fewer failures counted than the threshold, or open with at least as
    many: it is never left half open, and its threshold and timeout stay
    as they were given. *)
Theorem breaker_settles {A} (threshold timeout_ : Z) (operations : list (result A))
    (clock : list Z) :
  1 <= threshold ->
  let cb := fst (executeAll operations (newCircuitBreaker threshold timeout_) clock) in
  settled cb /\ failureThreshold cb = threshold /\ timeout cb = timeout_.
Proof.
  intros Hn.
  assert (H : forall cb clock,
            settled cb ->
            let cb' := fst (executeAll operations cb clock) in
            settled cb' /\ failureThreshold cb' = failureThreshold cb
            /\ timeout cb' = timeout cb).
  { clear. induction operations as [|op ops IH]; intros cb clock Hs; [done|].
    cbn [executeAll].
    pose proof (execute_settled op cb clock Hs) as H.
    destruct (execute op cb clock) as [[r cb1] clock1]. cbn in H.
    destruct H as (Hs1 & Ht & Hto). destruct (IH cb1 clock1 Hs1) as (H1 & H2 & H3).
    cbn. repeat split; [apply H1..|congruence|congruence]. }
  apply (H (newCircuitBreaker threshold timeout_) clock).
  unfold settled, newCircuitBreaker. cbn. lia.
Qed.

(** X20.  A new breaker opens at the failure that reaches the threshold, and
    not before: after [k] failed operations in a row, [k] up to the
    threshold, it has counted [k] failures and is open exactly when [k]
    is the threshold. *)
Theorem breaker_trips {A} (threshold timeout_ : Z) (errors : list exn) (clock : list Z) :
  1 <= threshold ->
  Z.of_nat (length errors) <= threshold ->
  let cb := fst (executeAll (map (@Throw A) errors)
                   (newCircuitBreaker threshold timeout_) clock) in
  failureCount cb = Z.of_nat (length errors)
  /\ state cb = (if threshold =? Z.of_nat (length errors) then OPEN else CLOSED).
Proof.
  intros Hn.
  assert (H : forall c l clock,
            0 <= c -> c < threshold -> c + Z.of_nat (length errors) <= threshold ->
            let cb := fst (executeAll (map (@Throw A) errors)
                             (mkCircuitBreaker threshold timeout_ c l CLOSED) clock) in
            failureCount cb = c + Z.of_nat (length errors)
            /\ state cb = (if threshold =? c + Z.of_nat (length errors)
                           then OPEN else CLOSED)).
  { induction errors as [|e errors IH]; intros c l clock0 H0 Hc Hk.
    - cbn. rewrite Z.add_0_r. split; [done|].
      destruct (Z.eqb_spec threshold c); [lia|done].
    - cbv zeta. cbn [map executeAll]. unfold execute, onFailure.
      cbn -[Z.of_nat Z.add Z.leb Z.eqb executeAll].
      cbn [length] in Hk.
      destruct (Z.leb_spec threshold (c + 1)) as [E|E].
      + assert (errors = []) as ->.
        { destruct errors; [done|]. cbn [length] in Hk. lia. }
        cbn -[Z.of_nat Z.add Z.leb Z.eqb]. change (Z.of_nat 1) with 1. split; [done|].
        destruct (Z.eqb_spec threshold (c + 1)); [done|lia].
      + destruct (IH (c + 1) (Some (hd 0 clock0)) (tail clock0)) as [H1 H2]; [lia..|].
        cbn zeta in H1, H2. rewrite H1, H2.
        replace (c + 1 + Z.of_nat (length errors))
          with (c + Z.of_nat (length (e :: errors))) by (cbn [length]; lia).
        done. }
  intros Hk. destruct (H 0 None clock) as [H1 H2]; [lia..|].
  cbn zeta in H1, H2. unfold newCircuitBreaker. by rewrite H1, H2.
Qed.

(** X21.  An open breaker.  Until more than [timeout] milliseconds have passed
    since the last failure it refuses every call with its own error,
    without running the operation, and stays as it is.  After that it runs
    the operation: a success closes it and clears the count; a failure
    leaves it open, with one more failure counted and the time of this
    one. *)
Theorem breaker_open {A} (cb : CircuitBreaker) (clock : list Z) (last : Z) :
  state cb = OPEN ->
  lastFailureTime cb = Some last ->
  failureThreshold cb <= failureCount cb ->
  (hd 0 clock - last <= timeout cb ->
   forall operation : result A,
     execute operation cb clock
     = (Throw (Error "Circuit breaker is OPEN - network temporarily unavailable"),
        cb, tail clock))
  /\ (timeout cb < hd 0 clock - last ->
      (forall r : A,
         execute (Ok r) cb clock
         = (Ok r,
            mkCircuitBreaker (failureThreshold cb) (timeout cb) 0 (Some last) CLOSED,
            tail clock))
      /\ (forall error,
            execute (@Throw A error) cb clock
            = (Throw error,
               mkCircuitBreaker (failureThreshold cb) (timeout cb) (failureCount cb + 1)
                 (Some (hd 0 (tail clock))) OPEN,
               tail (tail clock)))).
Proof.
  intros Hs Hl Hc. unfold execute. rewrite Hs, Hl. cbn [default from_option id].
  split.
  - intros Hw operation. destruct (Z.ltb_spec (timeout cb) (hd 0 clock - last)); [lia|done].
  - intros Hw. destruct (Z.ltb_spec (timeout cb) (hd 0 clock - last)); [|lia].
    split; [intros r|intros error]; unfold onSuccess, onFailure; cbn; [done|].
    destruct (Z.leb_spec (failureThreshold cb) (failureCount cb + 1)); [done|lia].
Qed.

(** *** Roles and permissions *)

Definition passes (permission : string) (role : string) : Prop :=
  forall userId, requirePermission permission (Some (mkTokenUser userId role)) = Ok Next.

Lemma passes_iff permission role :
  passes permission role
  <-> includesPermission ROLE_PERMISSIONS role permission = Ok true.
Proof.
  unfold passes, requirePermission. cbn [Gateway.role].
  destruct (includesPermission ROLE_PERMISSIONS role permission) as [[]|e]; cbn.
  - split; done.
  - split; [intros H; by specialize (H "")|done].
  - split; [intros H; by specialize (H "")|done].
Qed.

Lemma includesPermission_cases role permission :
  includesPermission ROLE_PERMISSIONS role permission = Ok true <->
  (role = "admin" /\ permission ∈ ["create"; "read"; "update"; "delete"; "ship"; "quality"])
  \/ (role = "manager" /\ permission ∈ ["create"; "read"; "update"; "ship"; "quality"])
  \/ (role = "employee" /\ permission ∈ ["read"; "ship"])
  \/ (role = "client" /\ permission ∈ ["read"]).
Proof.
  assert (Hex : forall l,
            @Ok bool (existsb (String.eqb permission) l) = Ok true <-> permission ∈ l).
  { intros l. split.
    - intros [= H]. apply existsb_exists in H as (x & Hin & ->%String.eqb_eq).
      by apply list_elem_of_In.
    - intros Hin. f_equal. apply existsb_exists. exists permission.
      split; [by apply list_elem_of_In|apply String.eqb_refl]. }
  unfold includesPermission, ROLE_PERMISSIONS. cbn [find fst snd].
  destruct (String.eqb_spec role "admin") as [->|H1].
  { rewrite Hex. split; [by left|]. by intros [[_ ?]|[[[=] _]|[[[=] _]|[[=] _]]]]. }
  destruct (String.eqb_spec role "manager") as [->|H2].
  { rewrite Hex. split; [right; by left|].
    by intros [[[=] _]|[[_ ?]|[[[=] _]|[[=] _]]]]. }
  destruct (String.eqb_spec role "employee") as [->|H3].
  { rewrite Hex. split; [right; right; by left|].
    by intros [[[=] _]|[[[=] _]|[[_ ?]|[[=] _]]]]. }
  destruct (String.eqb_spec role "client") as [->|H4].
  { rewrite Hex. split; [right; right; by right|].
    by intros [[[=] _]|[[[=] _]|[[[=] _]|[_ ?]]]]. }
  split.
  - by destruct (existsb _ prototypeNames).
  - intros [[? _]|[[? _]|[[? _]|[? _]]]]; done.
Qed.

(** X22.  Who passes [requirePermission].  The roles are ordered: what a client
    may do an employee may, what an employee may a manager may, what a
    manager may an admin may.  The routes to [createProduct] and
    [addQualityRecord] (permissions [create] and [quality]) are open to
    admins and managers only, the route to [shipProductTo] ([ship]) also
    to employees; a client may only read, and only an admin has [delete].
    No other role passes for any permission, and a request without a
    user is answered 401. *)
Theorem requirePermission_roles (permission : string) :
  (passes permission "client" -> passes permission "employee")
  /\ (passes permission "employee" -> passes permission "manager")
  /\ (passes permission "manager" -> passes permission "admin")
  /\ (forall role, passes "create" role <-> role = "admin" \/ role = "manager")
  /\ (forall role, passes "quality" role <-> role = "admin" \/ role = "manager")
  /\ (forall role,
        passes "ship" role <-> role = "admin" \/ role = "manager" \/ role = "employee")
  /\ (forall role, passes "delete" role <-> role = "admin")
  /\ (passes permission "client" <-> permission = "read")
  /\ (forall role,
        passes permission role -> role ∈ ["admin"; "manager"; "employee"; "client"])
  /\ requirePermission permission None
     = Ok (Respond 401 (Obj [("error", Str "Authentication required")])).
Proof.
  assert (Hin : forall (x : string) l, x ∈ l <-> In x l).
  { intros x l. apply list_elem_of_In. }
  repeat apply conj; intros; try reflexivity.
  all: rewrite ?passes_iff, ?includesPermission_cases in *.
  all: rewrite ?Hin in *; cbn [In] in *; intuition congruence.
Qed.

(** X23.  The client's [hasPermission] and the server's [requirePermission]
    agree: for a user who is logged in, the client shows what needs a
    permission exactly when the server lets a request with that
    permission through, whatever the role is. *)
Theorem hasPermission_agrees (role_ permission : string) :
  hasPermission (Some role_) permission = Ok true <-> passes permission role_.
Proof. by rewrite passes_iff. Qed.

(** *** Logging in *)

(** A request [login] does not turn away for its form. *)
Definition wellFormed (username password : string) : Prop :=
  username <> "" /\ password <> ""
  /\ utf16_length username <= 50 /\ utf16_length password <= 100.

(** The account is locked at the time [now]. *)
Definition lockedAt (user : User) (now : Z) : Prop :=
  exists t, lockedUntil user = Some t /\ t <> 0 /\ now < t.

(** The count of failures and the lock agree: an account that was never
    locked since its last success has fewer than five failures, one that
    was has five or more. *)
Definition lockConsistent (user : User) : Prop :=
  match lockedUntil user with
  | None => 0 <= failedAttempts user < MAX_FAILED_ATTEMPTS
  | Some _ => MAX_FAILED_ATTEMPTS <= failedAttempts user
  end.

Definition status (r : result Handled) : option Z :=
  match r with
  | Ok (Respond status _) => Some status
  | _ => None
  end.

(** The requests of a list, one after the other. *)
Fixpoint logins (bcrypt_compare : string -> string -> result bool)
    (jwt_sign : value -> result string) (requests : list (string * string)) (s : Server)
  : list (result Handled) * Server :=
  match requests with
  | [] => ([], s)
  | (username, password) :: requests =>
      let '(r, s) := login bcrypt_compare jwt_sign username password s in
      let '(rs, s) := logins bcrypt_compare jwt_sign requests s in
      (r :: rs, s)
  end.

Lemma wellFormed_passes username password :
  wellFormed username password ->
  String.eqb username "" || String.eqb password "" = false
  /\ (50 <? utf16_length username) || (100 <? utf16_length password) = false.
Proof.
  intros (Hu & Hp & Hlu & Hlp).
  apply String.eqb_neq in Hu, Hp. rewrite Hu, Hp.
  split; [done|]. apply orb_false_iff. split; apply Z.ltb_ge; done.
Qed.

Section LoginFacts.
Variable bcrypt_compare : string -> string -> result bool.
Variable jwt_sign : value -> result string.
Let login := Gateway.login bcrypt_compare jwt_sign.

Lemma login_locked_step username password s user :
  wellFormed username password ->
  users s !! username = Some user ->
  lockedAt user (hd 0 (clock s)) ->
  login username password s
  = (Ok (Respond 423
           (Obj [("error",
                  Str ("Account locked. Try again in "
                       +:+ string_of_Z
                             (ceil_div (default 0 (lockedUntil user)
                                        - hd 0 (tail (clock s))) 60000)
                       +:+ " minutes."))])),
     mkServer (users s) (tail (tail (clock s))) (randomHex s)).
Proof.
  intros Hw Hu (t & Ht & Ht0 & Hlt).
  apply wellFormed_passes in Hw as [H1 H2].
  unfold login, Gateway.login. rewrite H1, H2, Hu, Ht.
  apply Z.eqb_neq in Ht0. rewrite Ht0.
  assert ((t >? hd 0 (clock s)) = true) as -> by (apply Z.gtb_lt; lia).
  reflexivity.
Qed.

Lemma login_wrong_step username password s user :
  wellFormed username password ->
  users s !! username = Some user ->
  lockedUntil user = None ->
  bcrypt_compare password (passwordHash user) = Ok false ->
  login username password s
  = if MAX_FAILED_ATTEMPTS <=? failedAttempts user + 1 then
      (Ok (Respond 423
             (Obj [("error",
                    Str "Account locked due to too many failed attempts. Try again later.")])),
       mkServer
         (<[username := mkUser (passwordHash user) (userRole user) (lastLogin user)
                          (failedAttempts user + 1)
                          (Some (hd 0 (clock s) + LOCKOUT_DURATION))]> (users s))
         (tail (clock s)) (randomHex s))
    else
      (Ok (Respond 401
             (Obj [("error", Str "Invalid credentials");
                   ("attemptsRemaining",
                    Num (MAX_FAILED_ATTEMPTS - (failedAttempts user + 1)))])),
       mkServer
         (<[username := mkUser (passwordHash user) (userRole user) (lastLogin user)
                          (failedAttempts user + 1) None]> (users s))
         (clock s) (randomHex s)).
Proof.
  intros Hw Hu Hl Hb.
  apply wellFormed_passes in Hw as [H1 H2].
  unfold login, Gateway.login. rewrite H1, H2, Hu, Hl, Hb. reflexivity.
Qed.

Lemma login_expired_step username password s user t :
  wellFormed username password ->
  users s !! username = Some user ->
  lockedUntil user = Some t -> t <> 0 -> t <= hd 0 (clock s) ->
  MAX_FAILED_ATTEMPTS <= failedAttempts user ->
  bcrypt_compare password (passwordHash user) = Ok false ->
  login username password s
  = (Ok (Respond 423
           (Obj [("error",
                  Str "Account locked due to too many failed attempts. Try again later.")])),
     mkServer
       (<[username := mkUser (passwordHash user) (userRole user) (lastLogin user)
                        (failedAttempts user + 1)
                        (Some (hd 0 (tail (clock s)) + LOCKOUT_DURATION))]> (users s))
       (tail (tail (clock s))) (randomHex s)).
Proof.
  intros Hw Hu Hl Ht0 Hle Hk Hb.
  apply wellFormed_passes in Hw as [H1 H2].
  unfold login, Gateway.login. rewrite H1, H2, Hu, Hl.
  apply Z.eqb_neq in Ht0. rewrite Ht0.
  assert ((t >? hd 0 (clock s)) = false) as ->.
  { destruct (Z.gtb_spec t (hd 0 (clock s))); [lia|done]. }
  cbn [clock users randomHex]. rewrite Hb.
  assert ((MAX_FAILED_ATTEMPTS <=? failedAttempts user + 1) = true) as ->
    by (apply Z.leb_le; lia).
  reflexivity.
Qed.

(** X24.  A locked account is refused whatever the password is: the answer is
    423, nothing is asked of [bcrypt] and no account changes. *)
Theorem login_locked_out username password s user :
  wellFormed username password ->
  users s !! username = Some user ->
  lockedAt user (hd 0 (clock s)) ->
  status (fst (login username password s)) = Some 423
  /\ users (snd (login username password s)) = users s.
Proof.
  intros Hw Hu Hl. by rewrite (login_locked_step _ _ _ _ Hw Hu Hl).
Qed.

(** X25.  An account that has [k] failures and no lock is locked by its
    [5 - k]-th wrong password and not before: the wrong passwords before
    it are answered 401, that one 423, and the lock lasts fifteen minutes
    from the time of that request. *)
Theorem login_lockout n : forall username passwords s user,
  users s !! username = Some user ->
  lockedUntil user = None ->
  failedAttempts user + Z.of_nat (S n) = MAX_FAILED_ATTEMPTS ->
  length passwords = S n ->
  Forall (fun password =>
            wellFormed username password
            /\ bcrypt_compare password (passwordHash user) = Ok false) passwords ->
  let run := logins bcrypt_compare jwt_sign (map (pair username) passwords) s in
  map status (fst run) = replicate n (Some 401) ++ [Some 423]
  /\ exists user',
       users (snd run) !! username = Some user'
       /\ failedAttempts user' = MAX_FAILED_ATTEMPTS
       /\ lockedUntil user' = Some (hd 0 (clock s) + LOCKOUT_DURATION).
Proof.
  induction n as [|n IH]; intros username passwords s user Hu Hl Hk Hlen Hall.
  - destruct passwords as [|p [|? ?]]; try discriminate.
    apply Forall_inv in Hall as [Hw Hb].
    cbn [map logins]. fold login.
    rewrite (login_wrong_step _ _ _ _ Hw Hu Hl Hb).
    assert ((MAX_FAILED_ATTEMPTS <=? failedAttempts user + 1) = true) as ->
      by (apply Z.leb_le; lia).
    cbn. split; [done|]. eexists. rewrite lookup_insert_eq.
    split; [done|]. cbn. split; [lia|done].
  - destruct passwords as [|p passwords]; [discriminate|].
    pose proof (Forall_inv Hall) as [Hw Hb]. apply Forall_inv_tail in Hall.
    cbn [map logins]. fold login.
    rewrite (login_wrong_step _ _ _ _ Hw Hu Hl Hb).
    assert ((MAX_FAILED_ATTEMPTS <=? failedAttempts user + 1) = false) as ->
      by (apply Z.leb_gt; lia).
    set (user1 := mkUser _ _ _ _ _). set (s1 := mkServer _ _ _).
    specialize (IH username passwords s1 user1).
    destruct IH as [IH1 (user' & IH2 & IH3 & IH4)].
    + apply lookup_insert_eq.
    + done.
    + cbn [failedAttempts user1]. lia.
    + by injection Hlen.
    + done.
    + destruct (logins _ _ _ s1) as [rs s2]. cbn in *.
      split; [by rewrite IH1|]. by exists user'.
Qed.

(** X26.  The count of failures is not taken back when a lock runs out: the
    first wrong password after it locks the account again, for fifteen
    minutes from that request. *)
Theorem login_relocks username password s user t :
  wellFormed username password ->
  users s !! username = Some user ->
  lockConsistent user ->
  lockedUntil user = Some t -> t <> 0 -> t <= hd 0 (clock s) ->
  bcrypt_compare password (passwordHash user) = Ok false ->
  status (fst (login username password s)) = Some 423
  /\ exists user',
       users (snd (login username password s)) !! username = Some user'
       /\ lockedUntil user' = Some (hd 0 (tail (clock s)) + LOCKOUT_DURATION).
Proof.
  intros Hw Hu Hc Hl Ht0 Hle Hb.
  unfold lockConsistent in Hc. rewrite Hl in Hc.
  rewrite (login_expired_step _ _ _ _ _ Hw Hu Hl Ht0 Hle Hc Hb).
  split; [done|]. eexists. cbn [snd users]. by rewrite lookup_insert_eq.
Qed.

(** X27.  The right password on an account that is not locked clears the
    count of failures and the lock, whatever they were; the answer is
    200 with the token signed for the user's name and role, or 500 when
    the signing throws. *)
Theorem login_success username password s user :
  wellFormed username password ->
  users s !! username = Some user ->
  ~ lockedAt user (hd 0 (clock s)) ->
  bcrypt_compare password (passwordHash user) = Ok true ->
  (exists user',
     users (snd (login username password s)) !! username = Some user'
     /\ failedAttempts user' = 0 /\ lockedUntil user' = None
     /\ passwordHash user' = passwordHash user /\ userRole user' = userRole user)
  /\ exists payload,
       getProp payload "userId" = Ok (Str username)
       /\ getProp payload "role" = Ok (Str (userRole user))
       /\ match jwt_sign payload with
          | Ok token =>
              exists body,
                fst (login username password s) = Ok (Respond 200 body)
                /\ getProp body "token" = Ok (Str token)
          | Throw _ => status (fst (login username password s)) = Some 500
          end.
Proof.
  intros Hw Hu Hl Hb.
  apply wellFormed_passes in Hw as [H1 H2].
  unfold login, Gateway.login. rewrite H1, H2, Hu.
  set (check := match match lockedUntil user with
                      | Some t => if t =? 0 then None else Some t
                      | None => None
                      end with
                | Some t => _
                | None => _
                end).
  assert (Hcheck : exists c, check = (false, mkServer (users s) c (randomHex s))).
  { subst check. destruct (lockedUntil user) as [t|] eqn:Ht.
    - destruct (Z.eqb_spec t 0) as [->|Ht0].
      + exists (clock s). by destruct s.
      + destruct (Z.gtb_spec t (hd 0 (clock s))) as [Hlt|Hge].
        * destruct Hl. exists t. split; [done|]. split; [done|lia].
        * by eexists.
    - exists (clock s). by destruct s. }
  destruct Hcheck as [c ->]. cbn [users clock randomHex passwordHash]. rewrite Hb.
  unfold generateToken. cbn [users clock randomHex userRole].
  match goal with
  | |- context [if ?b then _ else _] => destruct b
  end.
  all: cbn [users clock randomHex].
  all: match goal with
       | |- context [jwt_sign ?p] =>
           pose (payload := p); destruct (jwt_sign p) eqn:Hj
       end.
  all: (split;
        [cbn [snd users]; rewrite lookup_insert_eq; by eexists
        |exists payload; subst payload; rewrite Hj;
         split; [reflexivity|]; split; [reflexivity|]]).
  all: try (eexists; split; reflexivity).
  all: reflexivity.
Qed.

(** X28.  A request adds no account and removes none, touches no account
    but the one it names, and changes neither the password nor the role
    of the one it names; the count of failures and the lock stay in
    agreement.  (A name the table of the accounts inherits from
    [Object.prototype] names no account: the handler then writes to the
    inherited member, and to no account.) *)
Theorem login_keeps_accounts username password s :
  (forall name user, users s !! name = Some user -> lockConsistent user) ->
  let s' := snd (login username password s) in
  dom (users s') = dom (users s)
  /\ (forall name, name <> username -> users s' !! name = users s !! name)
  /\ (forall name user',
        users s' !! name = Some user' ->
        lockConsistent user'
        /\ exists user,
             users s !! name = Some user
             /\ passwordHash user' = passwordHash user
             /\ userRole user' = userRole user).
Proof.
  intros Hinv.
  set (kept := fun accounts : gmap string User =>
         dom accounts = dom (users s)
         /\ (forall name, name <> username -> accounts !! name = users s !! name)
         /\ (forall name user',
               accounts !! name = Some user' ->
               lockConsistent user'
               /\ exists user,
                    users s !! name = Some user
                    /\ passwordHash user' = passwordHash user
                    /\ userRole user' = userRole user)).
  assert (Hsame : forall s0 : Server, users s0 = users s -> kept (users s0)).
  { intros s0 ->. split; [done|]. split; [done|].
    intros name user' H. split; [by eapply Hinv|]. by exists user'. }
  assert (Hset : forall (s0 : Server) user user1,
            users s !! username = Some user ->
            users s0 = <[username := user1]> (users s) ->
            lockConsistent user1 ->
            passwordHash user1 = passwordHash user ->
            userRole user1 = userRole user ->
            kept (users s0)).
  { intros s0 user user1 Hu -> Hc Hp Hr. split; [|split].
    - by apply dom_insert_lookup_L.
    - intros name Hne. by rewrite lookup_insert_ne.
    - intros name user'. destruct (decide (name = username)) as [->|Hne].
      + rewrite lookup_insert_eq. intros [= <-]. split; [done|]. by exists user.
      + rewrite lookup_insert_ne by done. intros H. split; [by eapply Hinv|].
        by exists user'. }
  cbv zeta. change (kept (users (snd (login username password s)))).
  clearbody kept. unfold login, Gateway.login.
  destruct (_ || _); [by apply Hsame|].
  destruct (_ || _); [by apply Hsame|].
  destruct (users s !! username) as [user|] eqn:Hu.
  2: { destruct (bcrypt_compare _ _); by apply Hsame. }
  pose proof (Hinv _ _ Hu) as Hc. unfold lockConsistent in Hc.
  match goal with
  | |- context [let '(isLocked, s) := ?c in _] =>
      assert (Hcheck : exists b c', c = (b, mkServer (users s) c' (randomHex s)))
  end.
  { destruct (lockedUntil user) as [t|].
    - destruct (t =? 0); [exists false, (clock s); by destruct s|by eexists _, _].
    - exists false, (clock s). by destruct s. }
  destruct Hcheck as (b & c' & ->). destruct b; [by apply Hsame|].
  cbn [users clock randomHex].
  destruct (bcrypt_compare _ _) as [[]|]; [| |by apply Hsame].
  - unfold generateToken. cbn [users clock randomHex userRole].
    destruct (String.eqb _ _); destruct (jwt_sign _);
      (eapply Hset; [first [exact Hu|reflexivity]|reflexivity
                    |unfold lockConsistent, MAX_FAILED_ATTEMPTS; cbn; lia
                    |reflexivity|reflexivity]).
  - destruct (Z.leb_spec MAX_FAILED_ATTEMPTS (failedAttempts user + 1)) as [Hge|Hlt].
    + eapply Hset; [first [exact Hu|reflexivity]|reflexivity| |reflexivity|reflexivity].
      unfold lockConsistent. cbn. done.
    + eapply Hset; [first [exact Hu|reflexivity]|reflexivity| |reflexivity|reflexivity].
      unfold lockConsistent. cbn [lockedUntil failedAttempts].
      destruct (lockedUntil user); unfold MAX_FAILED_ATTEMPTS in *; lia.
Qed.

End LoginFacts.

End GatewayFacts.

(* ===================================================================== *)
(** ** The contract on concrete ledgers, continued                        *)
(* ===================================================================== *)

Module ContractRuns.
Import Js Stub Contract JsFacts ContractFacts Examples ContractProperties.

(** The ledger after [createProduct] of the product ["1001"]: it holds
    the product and the notification of its creation. *)
Definition world_notified : World :=
  snd (createProduct Date_parse_iso (JSON_stringify (apples "1001")) world_a).

Definition notice : list (string * value) :=
  [("id", Str collidingId); ("productId", Str "1001"); ("type", Str "created");
   ("message", Str "Product Apples created at Markham, ON, Canada");
   ("timestamp", Str "2023-11-14T22:13:20.000Z");
   ("location", Str "Markham, ON, Canada"); ("severity", Str "info");
   ("acknowledged", Bool false)].

Lemma acknowledgeNotification_missing_witness :
  acknowledgeNotification "NOTIF_0_none" world_1001
  = (Throw (Error "Notification NOTIF_0_none does not exist."), world_1001).
Proof.
  apply (acknowledgeNotification_missing world_1001 "NOTIF_0_none").
  vm_compute. reflexivity.
Defined.

Lemma acknowledgeNotification_marks_witness :
  exists w' o',
    acknowledgeNotification collidingId world_notified = (Ok tt, w')
    /\ JSON_parse (default "" (ledger w' !! collidingId)) = Ok (Obj o')
    /\ o' = obj_set "acknowledged" (Bool true) notice
    /\ lookup_prop "acknowledged" o' = Bool true
    /\ (forall k, k <> "acknowledged" -> lookup_prop k o' = lookup_prop k notice)
    /\ (forall key, key <> collidingId -> ledger w' !! key = ledger world_notified !! key).
Proof.
  apply (acknowledgeNotification_marks world_notified collidingId
           (JSON_stringify (Obj notice)) notice).
  - vm_compute. reflexivity.
  - vm_compute. reflexivity.
  - vm_compute. exact I.
Defined.

Lemma acknowledgeNotification_idempotent_witness :
  exists w1 w2,
    acknowledgeNotification collidingId world_notified = (Ok tt, w1)
    /\ acknowledgeNotification collidingId w1 = (Ok tt, w2)
    /\ ledger w2 = ledger w1.
Proof.
  apply (acknowledgeNotification_idempotent world_notified collidingId
           (JSON_stringify (Obj notice)) notice).
  - vm_compute. reflexivity.
  - vm_compute. reflexivity.
  - vm_compute. split; exact I.
Defined.

Lemma notificationsQuery_limit_witness :
  notificationsQuery (Str "10") = JSON_stringify (notificationsSelector 10)
  /\ JSON_parse (notificationsQuery (Str "10")) = Ok (notificationsSelector 10).
Proof.
  apply (notificationsQuery_limit (Str "10")). vm_compute. discriminate.
Defined.

(** A constructor of [ProductWithHistory] that copies the own properties
    of the product it is given. *)
Definition copyProperties (product : value) : result (list (string * value)) :=
  match product with
  | Obj o => Ok o
  | _ => Throw TypeError
  end.

(** A product made of the product ["1001"] and of one the ledger does
    not hold. *)
Definition juice : value :=
  Obj [("id", Str "2002"); ("name", Str "Apple juice");
       ("componentProductIds", Arr [Str "1001"; Str "9999"])].

(** A document whose [componentProductIds] is a number. *)
Definition oddProduct : value :=
  Obj [("id", Str "3003"); ("componentProductIds", Num 5)].

Definition world_assembled : World :=
  mkWorld {["1001" := JSON_stringify (apples "1001");
            "2002" := JSON_stringify juice;
            "3003" := JSON_stringify oddProduct]} [] [] [] [].


Lemma getProductWithHistory_not_iterable_witness :
  getProductWithHistory copyProperties "3003" world_assembled
  = (Throw TypeError, world_assembled).
Proof.
  apply (getProductWithHistory_not_iterable copyProperties world_assembled "3003"
           oddProduct (match oddProduct with Obj o => o | _ => [] end)).
  - vm_compute. reflexivity.
  - reflexivity.
  - reflexivity.
Defined.

Lemma product_not_found_witness :
  getProduct "4004" world_1001 = (doesNotExist "4004", world_1001)
  /\ getProductWithHistory copyProperties "4004" world_1001
     = (doesNotExist "4004", world_1001)
  /\ (forall newLocation arrivalDate,
        shipProductTo Date_parse_iso "4004" newLocation arrivalDate world_1001
        = (doesNotExist "4004", world_1001))
  /\ (forall qualityData,
        addQualityRecord Date_parse_iso "4004" qualityData world_1001
        = (doesNotExist "4004", world_1001)).
Proof.
  apply (product_not_found Date_parse_iso copyProperties world_1001 "4004").
  vm_compute. reflexivity.
Defined.

Lemma shipProductTo_refuses_witness :
  shipProductTo Date_parse_iso "1001" "Warehouse A" "2021-06-26" world_1001
  = (Throw (Error "Invalid arrival date format. Use ISO 8601 format."), world_1001).
Proof.
  apply (shipProductTo_refuses Date_parse_iso world_1001 "1001" "Warehouse A" "2021-06-26").
  - vm_compute. reflexivity.
  - reflexivity.
  - reflexivity.
  - reflexivity.
Defined.


Lemma shipProductTo_keeps_valid_witness :
  let w' := snd (shipProductTo Date_parse_iso "1001" "Warehouse A"
                   "2021-06-26T00:00:00.000Z" world_1001) in
  exists product',
    getProduct "1001" w' = (Ok product', w')
    /\ validateProductData Date_parse_iso product' = Ok tt.
Proof.
  apply (shipProductTo_keeps_valid Date_parse_iso world_1001 _ "1001" "Warehouse A"
           "2021-06-26T00:00:00.000Z" (apples "1001")).
  - vm_compute. reflexivity.
  - vm_compute. reflexivity.
  - vm_compute. reflexivity.
  - vm_compute. intros [=].
Defined.

Lemma createProduct_twice_witness :
  exists id,
    productExists id world_notified = (Ok true, world_notified)
    /\ createProduct Date_parse_iso (JSON_stringify (apples "1001")) world_notified
       = (Throw (Error ("The product " +:+ id +:+ " already exists.")), world_notified).
Proof.
  apply (createProduct_twice Date_parse_iso world_a world_notified
           (JSON_stringify (apples "1001"))).
  vm_compute. reflexivity.
Defined.

Lemma addQualityRecord_severity_witness :
  exists doc,
    JSON_parse
      (default ""
         (ledger (snd (addQualityRecord Date_parse_iso "1001"
                         (JSON_stringify (inspection "Alice" 70 "2021-06-27T00:00:00.000Z"))
                         world_1001))
          !! notificationId (tick world_1001))) = Ok doc
    /\ field doc "severity" = Str "warning"
    /\ field doc "type" = Str "quality_check"
    /\ field doc "productId" = Str "1001"
    /\ field doc "acknowledged" = Bool false.
Proof.
  apply (addQualityRecord_severity Date_parse_iso world_1001 _ "1001"
           (JSON_stringify (inspection "Alice" 70 "2021-06-27T00:00:00.000Z"))
           (inspection "Alice" 70 "2021-06-27T00:00:00.000Z") 70).
  - vm_compute. reflexivity.
  - vm_compute. split; exact I.
  - vm_compute. reflexivity.
  - reflexivity.
Defined.

Lemma addQualityRecord_then_getQualityRecords_witness :
  let w' := snd (addQualityRecord Date_parse_iso "1001"
                   (JSON_stringify (inspection "Alice" 70 "2021-06-27T00:00:00.000Z"))
                   world_1001) in
  exists l,
    getQualityRecords Date_parse_iso "1001" w' = (Ok l, w')
    /\ inspection "Alice" 70 "2021-06-27T00:00:00.000Z" ∈ l.
Proof.
  apply (addQualityRecord_then_getQualityRecords Date_parse_iso world_1001 _ "1001"
           (JSON_stringify (inspection "Alice" 70 "2021-06-27T00:00:00.000Z"))).
  - vm_compute. reflexivity.
  - vm_compute. reflexivity.
  - intros key bytes H _. cbn [ledger world_1001] in H.
    apply lookup_singleton_Some in H as [_ <-]. vm_compute. discriminate.
Defined.


Definition analytics_1001 : AnalyticsData :=
  match fst (getAnalyticsData Date_parse_iso toLocaleMonthShort_utc world_1001) with
  | Ok a => a
  | Throw _ => mkAnalyticsData 0 0 0 None 0 None ∅ ∅ []
  end.

Lemma getAnalyticsData_figures_witness :
  exists ps : list value,
    queryAllProducts world_1001 = (Ok ps, world_1001)
    /\ totalProducts analytics_1001 = Z.of_nat (length ps)
    /\ ((forall p, p ∈ ps ->
           ordinaryKey (field p "category")
           /\ ordinaryKey (field (field (field p "locationData") "current") "location")) ->
        total (categoryStats analytics_1001) = totalProducts analytics_1001
        /\ total (locationStats analytics_1001) = totalProducts analytics_1001)
    /\ 0 <= onTimeDeliveryRate analytics_1001 <= 100
    /\ 0 <= activeShipments analytics_1001 <= totalProducts analytics_1001
    /\ 0 <= completedDeliveries analytics_1001 <= totalProducts analytics_1001.
Proof.
  apply (getAnalyticsData_figures Date_parse_iso toLocaleMonthShort_utc
           world_1001 world_1001 analytics_1001).
  vm_compute. reflexivity.
Defined.

End ContractRuns.

(* ===================================================================== *)
(** ** The gateway on concrete requests                                   *)
(* ===================================================================== *)

Module GatewayRuns.
Import Js Gateway GatewayFacts.

Lemma breaker_settles_witness :
  let cb := fst (executeAll [Throw (Error "down"); Ok tt; Throw (Error "down")]
                   (newCircuitBreaker 5 60000) [1000; 2000]) in
  settled cb /\ failureThreshold cb = 5 /\ timeout cb = 60000.
Proof.
  apply (@breaker_settles unit 5 60000). lia.
Defined.

Lemma breaker_trips_witness :
  let cb := fst (executeAll (map (@Throw unit) [Error "down"; Error "down"])
                   (newCircuitBreaker 2 60000) [1000; 2000]) in
  failureCount cb = 2 /\ state cb = OPEN.
Proof.
  apply (@breaker_trips unit 2 60000 [Error "down"; Error "down"] [1000; 2000]).
  - lia.
  - cbn. lia.
Defined.

(** A breaker that opened at its fifth failure, at the time 1000. *)
Definition tripped : CircuitBreaker := mkCircuitBreaker 5 60000 5 (Some 1000) OPEN.

Lemma breaker_open_witness :
  execute (Ok tt) tripped [2000]
  = (Throw (Error "Circuit breaker is OPEN - network temporarily unavailable"), tripped, []).
Proof.
  apply (@breaker_open unit tripped [2000] 1000).
  - reflexivity.
  - reflexivity.
  - cbn. lia.
  - cbn. lia.
Defined.

(** A [bcrypt.compare] that takes [admin123] for the password of every
    account, and a [jwt.sign] that returns the payload as JSON. *)
Definition compare_admin123 (password hash : string) : result bool :=
  Ok (String.eqb password "admin123").

Definition sign_plain (payload : value) : result string := Ok (JSON_stringify payload).

Definition server_start : Server :=
  mkServer SECURE_USERS [1700000000000; 1700000000001; 1700000000002]
    ["0f1e2d3c4b5a69788796a5b4c3d2e1f00f1e2d3c4b5a69788796a5b4c3d2e1f0"].

Definition admin : User :=
  mkUser "$2b$12$LQv3c1yqBWVHxkd0LHAkCOYz6TtxMQJqhN8/LewdBPj/RK.s5uO8O" "admin"
    None 0 None.

(** The server at the time 1700000000000 + 60000, the account [admin] locked at the
    time 1700000000000 for fifteen minutes. *)
Definition server_locked : Server :=
  mkServer
    (<["admin" := mkUser (passwordHash admin) "admin" None 5
                    (Some (1700000000000 + LOCKOUT_DURATION))]> SECURE_USERS)
    [1700000060000; 1700000060001; 1700000060002] [].

(** The same an hour later. *)
Definition server_expired : Server :=
  mkServer (users server_locked) [1700003600000; 1700003600001; 1700003600002] [].

Lemma login_locked_out_witness :
  status (fst (login compare_admin123 sign_plain "admin" "admin123" server_locked))
  = Some 423
  /\ users (snd (login compare_admin123 sign_plain "admin" "admin123" server_locked))
     = users server_locked.
Proof.
  apply (login_locked_out compare_admin123 sign_plain "admin" "admin123" server_locked
           (mkUser (passwordHash admin) "admin" None 5
              (Some (1700000000000 + LOCKOUT_DURATION)))).
  - repeat split; [discriminate|discriminate|vm_compute; discriminate
                  |vm_compute; discriminate].
  - vm_compute. reflexivity.
  - eexists. split; [reflexivity|]. split; [discriminate|]. reflexivity.
Defined.

Lemma login_lockout_witness :
  let run := logins compare_admin123 sign_plain
               (map (pair "admin") ["a"; "b"; "c"; "d"; "e"]) server_start in
  map status (fst run) = replicate 4 (Some 401) ++ [Some 423]
  /\ exists user',
       users (snd run) !! "admin" = Some user'
       /\ failedAttempts user' = MAX_FAILED_ATTEMPTS
       /\ lockedUntil user' = Some (1700000000000 + LOCKOUT_DURATION).
Proof.
  apply (login_lockout compare_admin123 sign_plain 4 "admin" ["a"; "b"; "c"; "d"; "e"]
           server_start admin).
  - vm_compute. reflexivity.
  - reflexivity.
  - reflexivity.
  - reflexivity.
  - repeat constructor; try discriminate; vm_compute; discriminate.
Defined.

Lemma login_relocks_witness :
  status (fst (login compare_admin123 sign_plain "admin" "guess" server_expired))
  = Some 423
  /\ exists user',
       users (snd (login compare_admin123 sign_plain "admin" "guess" server_expired))
       !! "admin" = Some user'
       /\ lockedUntil user' = Some (1700003600001 + LOCKOUT_DURATION).
Proof.
  apply (login_relocks compare_admin123 sign_plain "admin" "guess" server_expired
           (mkUser (passwordHash admin) "admin" None 5
              (Some (1700000000000 + LOCKOUT_DURATION)))
           (1700000000000 + LOCKOUT_DURATION)).
  - repeat split; [discriminate|discriminate|vm_compute; discriminate
                  |vm_compute; discriminate].
  - vm_compute. reflexivity.
  - vm_compute. discriminate.
  - reflexivity.
  - discriminate.
  - vm_compute. discriminate.
  - reflexivity.
Defined.

Lemma login_success_witness :
  (exists user',
     users (snd (login compare_admin123 sign_plain "admin" "admin123" server_expired))
     !! "admin" = Some user'
     /\ failedAttempts user' = 0 /\ lockedUntil user' = None
     /\ passwordHash user' = passwordHash admin /\ userRole user' = "admin")
  /\ exists payload,
       getProp payload "userId" = Ok (Str "admin")
       /\ getProp payload "role" = Ok (Str "admin")
       /\ match sign_plain payload with
          | Ok token =>
              exists body,
                fst (login compare_admin123 sign_plain "admin" "admin123" server_expired)
                = Ok (Respond 200 body)
                /\ getProp body "token" = Ok (Str token)
          | Throw _ =>
              status (fst (login compare_admin123 sign_plain "admin" "admin123"
                             server_expired)) = Some 500
          end.
Proof.
  apply (login_success compare_admin123 sign_plain "admin" "admin123" server_expired
           (mkUser (passwordHash admin) "admin" None 5
              (Some (1700000000000 + LOCKOUT_DURATION)))).
  - repeat split; [discriminate|discriminate|vm_compute; discriminate
                  |vm_compute; discriminate].
  - vm_compute. reflexivity.
  - intros (t & [= <-] & _ & H). vm_compute in H. discriminate.
  - reflexivity.
Defined.

Lemma SECURE_USERS_consistent name user :
  SECURE_USERS !! name = Some user -> lockConsistent user.
Proof.
  unfold SECURE_USERS. intros H.
  repeat (apply lookup_insert_Some in H as [[_ <-]|[_ H]];
          [unfold lockConsistent, MAX_FAILED_ATTEMPTS; cbn; lia|]).
  apply lookup_singleton_Some in H as [_ <-].
  unfold lockConsistent, MAX_FAILED_ATTEMPTS; cbn; lia.
Qed.

Lemma login_keeps_accounts_witness :
  let s' := snd (login compare_admin123 sign_plain "admin" "guess" server_start) in
  dom (users s') = dom (users server_start)
  /\ (forall name, name <> "admin" -> users s' !! name = users server_start !! name)
  /\ (forall name user',
        users s' !! name = Some user' ->
        lockConsistent user'
        /\ exists user,
             users server_start !! name = Some user
             /\ passwordHash user' = passwordHash user
             /\ userRole user' = userRole user).
Proof.
  apply (login_keeps_accounts compare_admin123 sign_plain "admin" "guess" server_start).
  exact SECURE_USERS_consistent.
Defined.

End GatewayRuns.
